(** * wickedbased: validation and serialization pipeline

    A shallow embedding of the TypeScript sources of the library:
    - [src/serialization/transformers.ts] (camelToSnake, transformKeys,
      removeEmpty, isPulumiOutput),
    - [src/serialization/serializer.ts] (toYAML, toYAMLSync and helpers),
    - [src/validation/schemas.ts] and the configuration classes,
    - [src/base/AppPlatformResource.ts] and the Service, Job, Worker classes,
    - [src/base/ValidationError.ts], [src/validation/ZodError.ts],
      [src/validation/validate.ts].

    Conventions of the embedding.
    - A JavaScript string is a [string]: a sequence of code units below 256.
    - A JavaScript number is an integer ([VNum], a [Z]) or a number that is
      not an integer ([VFloat]): a binary fraction, an infinity or NaN.
      Negative zero is not told apart from zero.
    - A function is the value [VFun]; two functions are not told apart.
    - A thrown exception is the [Err] case of [result]; an [async] function
      is modelled by the value its promise settles to.
    - An object is its list of own enumerable properties in insertion order
      ([own]) together with the names it exposes through its prototype chain
      ([proto]), which only the [in] operator observes.  The objects are
      plain objects and instances of classes, not promises, dates, maps or
      sets.  Property names that are canonical array indices (which
      JavaScript enumerates first) and the name [__proto__] do not occur in
      the modelled trees.
    - An object has an identity, which a tree of values does not show: one
      object may be reached at several places of a tree.  Where the code
      compares references (the [Map] of resolved outputs) the identity is
      given beside the tree, by the relation [same]. *)

From Stdlib Require Import List String Ascii ZArith Bool Lia.
From Stdlib Require Import DecimalString.
Import ListNotations.
Local Open Scope string_scope.
Local Open Scope Z_scope.

Set Implicit Arguments.

(** ** JavaScript values *)

(** A number that is not an integer.  A finite binary floating-point number
    that is not an integer is [(2k+1)/2^e] for exactly one [k] and one
    [e >= 1]. *)
Inductive nonInteger : Type :=
| Fraction (k : Z) (e : positive)
| Infinity (negative : bool)
| NaN.

Unset Elimination Schemes.
Inductive jsval : Type :=
| VUndefined
| VNull
| VBool (b : bool)
| VNum (n : Z)
| VFloat (x : nonInteger)
| VStr (s : string)
| VArr (items : list jsval)
| VObj (proto : list string) (own : list (string * jsval))
| VFun.
Set Elimination Schemes.

(** Induction over a tree, with the hypothesis on every array element and on
    every own property value. *)
Definition jsval_ind (P : jsval -> Prop)
  (Hundef : P VUndefined) (Hnull : P VNull)
  (Hbool : forall b, P (VBool b)) (Hnum : forall n, P (VNum n))
  (Hfloat : forall x, P (VFloat x)) (Hstr : forall s, P (VStr s))
  (Harr : forall items, Forall P items -> P (VArr items))
  (Hobj : forall proto own, Forall (fun kv => P (snd kv)) own -> P (VObj proto own))
  (Hfun : P VFun)
  : forall v, P v :=
  fix go (v : jsval) : P v :=
    match v with
    | VUndefined => Hundef
    | VNull => Hnull
    | VBool b => Hbool b
    | VNum n => Hnum n
    | VFloat x => Hfloat x
    | VStr s => Hstr s
    | VFun => Hfun
    | VArr items =>
        Harr items
          ((fix all (l : list jsval) : Forall P l :=
              match l with
              | [] => Forall_nil P
              | x :: r => Forall_cons x (go x) (all r)
              end) items)
    | VObj proto own =>
        Hobj proto own
          ((fix all (l : list (string * jsval)) : Forall (fun kv => P (snd kv)) l :=
              match l with
              | [] => Forall_nil _
              | kv :: r => Forall_cons kv (go (snd kv)) (all r)
              end) own)
    end.

(** [v !== undefined && v !== null] *)
Definition defined (v : jsval) : bool :=
  match v with
  | VUndefined | VNull => false
  | _ => true
  end.

(** The [typeof]-like classification the validation library reports. *)
Definition parsedType (v : jsval) : string :=
  match v with
  | VUndefined => "undefined"
  | VNull => "null"
  | VBool _ => "boolean"
  | VNum _ => "number"
  | VFloat NaN => "nan"
  | VFloat _ => "number"
  | VStr _ => "string"
  | VArr _ => "array"
  | VObj _ _ => "object"
  | VFun => "function"
  end.

(** ** Objects as ordered property lists *)

Fixpoint lookup (k : string) (o : list (string * jsval)) : option jsval :=
  match o with
  | [] => None
  | (k', v) :: r => if String.eqb k k' then Some v else lookup k r
  end.

(** [result[k] = v]: overwrite in place when the key exists, append otherwise. *)
Fixpoint obj_set (k : string) (v : jsval) (o : list (string * jsval))
  : list (string * jsval) :=
  match o with
  | [] => [(k, v)]
  | (k', v') :: r =>
      if String.eqb k k' then (k, v) :: r else (k', v') :: obj_set k v r
  end.

Definition keys (o : list (string * jsval)) : list string := map fst o.

Definition mem (k : string) (l : list string) : bool :=
  existsb (String.eqb k) l.

(** [data[k]] on an arbitrary value; only own properties carry a value here. *)
Definition get_prop (k : string) (v : jsval) : jsval :=
  match v with
  | VObj _ own => match lookup k own with Some x => x | None => VUndefined end
  | _ => VUndefined
  end.

(** [k in v] for an object [v]: own or inherited. *)
Definition has_in (k : string) (v : jsval) : bool :=
  match v with
  | VObj proto own => mem k (keys own) || mem k proto
  | _ => false
  end.

(** An object literal [{ k1: v1, ... }]. *)
Definition literal (own : list (string * jsval)) : jsval := VObj [] own.

(** ** src/serialization/transformers.ts *)

Definition is_upper (c : ascii) : bool :=
  let n := nat_of_ascii c in (65 <=? n)%nat && (n <=? 90)%nat.

(** [letter.toLowerCase()] for a letter matched by [[A-Z]]. *)
Definition toLowerCase (c : ascii) : ascii :=
  if is_upper c then ascii_of_nat (nat_of_ascii c + 32) else c.

(** [str.replace(/[A-Z]/g, letter => `_${letter.toLowerCase()}`)] *)
Fixpoint camelToSnake (str : string) : string :=
  match str with
  | EmptyString => EmptyString
  | String c r =>
      if is_upper c
      then String "_" (String (toLowerCase c) (camelToSnake r))
      else String c (camelToSnake r)
  end.

Fixpoint transformKeys (obj : jsval) : jsval :=
  match obj with
  | VUndefined => VUndefined
  | VNull => VNull
  | VArr items => VArr (map transformKeys items)
  | VObj _ own =>
      VObj []
        (fold_left
           (fun result kv => obj_set (camelToSnake (fst kv)) (transformKeys (snd kv)) result)
           own [])
  | _ => obj
  end.

Fixpoint removeEmpty (obj : jsval) : jsval :=
  match obj with
  | VUndefined | VNull => VUndefined
  | VArr items =>
      let filtered := filter defined (map removeEmpty items) in
      if (0 <? List.length filtered)%nat then VArr filtered else VUndefined
  | VObj _ own =>
      let result :=
        fold_left
          (fun result kv =>
             let filteredValue := removeEmpty (snd kv) in
             if defined filteredValue then obj_set (fst kv) filteredValue result
             else result)
          own [] in
      if (0 <? List.length (keys result))%nat then VObj [] result else VUndefined
  | _ => obj
  end.

Definition isPulumiOutput (v : jsval) : bool :=
  match v with
  | VObj _ _ => has_in "isSecret" v && has_in "then" v
  | _ => false
  end.

(** ** Exceptions

    The three kinds of exception the sources construct: the validation
    library's [ZodError] (a list of issues), the library's own
    [ValidationError] (src/base/ValidationError.ts) and the built-in [Error];
    and the [YAMLException] of the YAML printer. *)

Record ZodIssue := mkIssue {
  code : string;
  path : list string;
  message : string;
  (** the [received] property, which only some issues have: the name of the
      received type on a type mismatch, the rejected input itself on an enum
      mismatch *)
  received : option jsval
}.

Inductive exn : Type :=
| ZodError (issues : list ZodIssue)
| ValidationError (field : string) (rejected : jsval) (constraint : string)
| Error (msg : string)
| YAMLException (reason : string).

Inductive result (A : Type) : Type :=
| Ok (a : A)
| Err (e : exn).
Arguments Ok {A} a.
Arguments Err {A} e.

Definition bind {A B} (r : result A) (k : A -> result B) : result B :=
  match r with
  | Ok a => k a
  | Err e => Err e
  end.

(** [try { body } catch { handler }] *)
Definition try_catch {A} (body : result A) (handler : result A) : result A :=
  match body with
  | Ok a => Ok a
  | Err _ => handler
  end.

Declare Scope js_scope.
Notation "x <- c ;; k" := (bind c (fun x => k))
  (at level 61, c at next level, right associativity) : js_scope.
Local Open Scope js_scope.

(** ** src/serialization/serializer.ts *)

(** An element of the accumulator of [extractPulumiOutputs]. *)
Record OutputRef := mkOutputRef { o_value : jsval; o_path : string }.

Fixpoint extractPulumiOutputs (obj : jsval) (outputs : list OutputRef)
  : list OutputRef :=
  if isPulumiOutput obj then outputs ++ [mkOutputRef obj ""]
  else
    match obj with
    | VArr items =>
        fold_left (fun outputs item => extractPulumiOutputs item outputs) items outputs
    | VObj _ own =>
        fold_left (fun outputs kv => extractPulumiOutputs (snd kv) outputs) own outputs
    | _ => outputs
    end.

Section Identity.

(** [same i j]: the [i]-th and the [j]-th output that [extractPulumiOutputs]
    collected are one and the same object. *)
Variable same : nat -> nat -> bool.

(** [new Map(pairs)] followed by [get] of the key of pair [j].  The pairs are
    set in order and a pair whose key is an object already set overwrites its
    value, so [get] returns the value of the last pair whose key is the same
    object.  [i] is the index of the first pair of [pairs]. *)
Fixpoint map_find (j i : nat) (pairs : list (jsval * jsval)) : option jsval :=
  match pairs with
  | [] => None
  | (_, v) :: r =>
      match map_find j (S i) r with
      | Some found => Some found
      | None => if same i j then Some v else None
      end
  end.

Definition map_get (j : nat) (pairs : list (jsval * jsval)) : jsval :=
  match map_find j 0 pairs with
  | Some v => v
  | None => VUndefined
  end.

(** The traversal of [replacePulumiOutputs] reaches the deferred values in the
    order in which [extractPulumiOutputs] collected them: [next] counts the
    ones already passed, so that the object looked up in the map is the key
    of pair [next]. *)
Fixpoint replace_from (obj : jsval) (resolvedMap : list (jsval * jsval)) (next : nat)
  : jsval * nat :=
  if isPulumiOutput obj then (map_get next resolvedMap, S next)
  else
    match obj with
    | VArr items =>
        let (mapped, next') :=
          fold_left
            (fun (done : list jsval * nat) item =>
               let (replaced, n) := replace_from item resolvedMap (snd done) in
               ((fst done ++ [replaced])%list, n))
            items ([], next) in
        (VArr mapped, next')
    | VObj _ own =>
        let (result, next') :=
          fold_left
            (fun (done : list (string * jsval) * nat) kv =>
               let (replaced, n) := replace_from (snd kv) resolvedMap (snd done) in
               (obj_set (fst kv) replaced (fst done), n))
            own ([], next) in
        (VObj [] result, next')
    | _ => (obj, next)
    end.

Definition replacePulumiOutputs (obj : jsval) (resolvedMap : list (jsval * jsval))
  : jsval :=
  fst (replace_from obj resolvedMap 0).

End Identity.

(** [pulumiOutputs.map((output, index) => [output.value, resolved[index]])] *)
Fixpoint zip_resolved (outputs : list OutputRef) (resolved : list jsval)
  : list (jsval * jsval) :=
  match outputs with
  | [] => []
  | o :: r =>
      (o_value o, hd VUndefined resolved) :: zip_resolved r (tl resolved)
  end.

Section Serializer.

(** [yaml.dump(tree, { indent: 2, lineWidth: -1, noRefs: true,
    sortKeys: false })]: the printer of the js-yaml package, which may
    throw. *)
Variable dump : jsval -> result string.

(** The resolution backend: [None] when [import('@pulumi/pulumi')] fails,
    otherwise the package's [all]. *)
Variable pulumi : option (list jsval -> result (list jsval)).

(** Which of the collected outputs are the same object. *)
Variable same : nat -> nat -> bool.

Definition importPulumi : result (list jsval -> result (list jsval)) :=
  match pulumi with
  | Some all => Ok all
  | None =>
      Err (Error ("Pulumi is required for resolving Pulumi Outputs. " ++
                  "Install it with: npm install @pulumi/pulumi"))
  end.

Definition toYAML (obj : jsval) : result string :=
  let pulumiOutputs := extractPulumiOutputs obj [] in
  if (0 <? List.length pulumiOutputs)%nat then
    try_catch
      (all <- importPulumi ;;
       resolved <- all (map o_value pulumiOutputs) ;;
       let resolvedMap := zip_resolved pulumiOutputs resolved in
       let objWithResolved := replacePulumiOutputs same obj resolvedMap in
       let cleaned := removeEmpty objWithResolved in
       let transformed := transformKeys cleaned in
       dump transformed)
      (let cleaned := removeEmpty obj in
       let transformed := transformKeys cleaned in
       dump transformed)
  else
    let cleaned := removeEmpty obj in
    let transformed := transformKeys cleaned in
    dump transformed.

Definition toYAMLSync (obj : jsval) : result string :=
  let pulumiOutputs := extractPulumiOutputs obj [] in
  if (0 <? List.length pulumiOutputs)%nat then
    Err (Error "Pulumi Outputs found. Use async toYAML() instead to resolve them.")
  else
    let cleaned := removeEmpty obj in
    let transformed := transformKeys cleaned in
    dump transformed.

End Serializer.

(** ** Strings *)

(** White space removed by [String.prototype.trim], among code units below
    256: TAB, LF, VT, FF, CR, SPACE and NO-BREAK SPACE. *)
Definition is_ws (c : ascii) : bool :=
  let n := nat_of_ascii c in
  ((9 <=? n)%nat && (n <=? 13)%nat) || (n =? 32)%nat || (n =? 160)%nat.

Fixpoint trimStart (s : string) : string :=
  match s with
  | EmptyString => EmptyString
  | String c r => if is_ws c then trimStart r else s
  end.

Fixpoint rev_append (s acc : string) : string :=
  match s with
  | EmptyString => acc
  | String c r => rev_append r (String c acc)
  end.

Definition reverse (s : string) : string := rev_append s EmptyString.

Definition trimEnd (s : string) : string := reverse (trimStart (reverse s)).

Definition trim (s : string) : string := trimEnd (trimStart s).

(** [val.trim().length > 0] *)
Definition nonblank (s : string) : bool := (0 <? String.length (trim s))%nat.

Definition startsWith (p s : string) : bool := String.prefix p s.

(** [s] between two double-quote characters. *)
Definition quoted (s : string) : string :=
  String (ascii_of_nat 34) (s ++ String (ascii_of_nat 34) EmptyString).

(** ** The validation library (zod, version 3 semantics)

    A schema maps an input to the issues it raised and, unless parsing was
    aborted by a type mismatch, an output.  Refinements and range checks add
    their issue and let parsing continue; an object schema parses all its
    fields in declaration order and collects their issues. *)

Record ParseReturn (A : Type) := mkParse {
  issues_of : list ZodIssue;
  output : option A
}.
Arguments mkParse {A} _ _.

Definition ZodType (A : Type) : Type := jsval -> ParseReturn A.

Definition OK {A} (a : A) : ParseReturn A := mkParse [] (Some a).
Definition INVALID {A} (errs : list ZodIssue) : ParseReturn A := mkParse errs None.

Definition invalid_type (expected : string) (v : jsval) : ZodIssue :=
  mkIssue "invalid_type" []
    (match v with
     | VUndefined => "Required"
     | _ => "Expected " ++ expected ++ ", received " ++ parsedType v
     end)
    (Some (VStr (parsedType v))).

Definition z_string : ZodType string :=
  fun v => match v with VStr s => OK s | _ => INVALID [invalid_type "string" v] end.

(** A value whose [typeof] is [number]. *)
Inductive number : Type :=
| Integer (n : Z)
| Float (x : nonInteger).

(** [z.number()]: NaN is not accepted as a number. *)
Definition z_number : ZodType number :=
  fun v =>
    match v with
    | VNum n => OK (Integer n)
    | VFloat NaN => INVALID [invalid_type "number" v]
    | VFloat x => OK (Float x)
    | _ => INVALID [invalid_type "number" v]
    end.

Definition z_boolean : ZodType bool :=
  fun v => match v with VBool b => OK b | _ => INVALID [invalid_type "boolean" v] end.

Definition z_any : ZodType jsval := fun v => OK v.

Definition enum_list (options : list string) : string :=
  String.concat " | " (map (fun o => "'" ++ o ++ "'") options).

Definition z_enum (options : list string) : ZodType string :=
  fun v =>
    match v with
    | VStr s =>
        if mem s options then OK s
        else INVALID [mkIssue "invalid_enum_value" []
                        ("Invalid enum value. Expected " ++ enum_list options ++
                         ", received '" ++ s ++ "'") (Some v)]
    | _ => INVALID [invalid_type (enum_list options) v]
    end.

(** A check that adds one issue when it fails and never aborts. *)
Definition check {A} (c : string) (p : A -> bool) (msg : string) (t : ZodType A)
  : ZodType A :=
  fun v =>
    match t v with
    | mkParse errs (Some a) =>
        if p a then mkParse errs (Some a)
        else mkParse (errs ++ [mkIssue c [] msg None]) (Some a)
    | aborted => aborted
    end.

(** [.refine(p, msg)] *)
Definition refine {A} (p : A -> bool) (msg : string) : ZodType A -> ZodType A :=
  check "custom" p msg.

(** [.refine(p, { message, path })] on an object schema *)
Definition refine_at {A} (p : A -> bool) (msg : string) (pth : list string)
  (t : ZodType A) : ZodType A :=
  fun v =>
    match t v with
    | mkParse errs (Some a) =>
        if p a then mkParse errs (Some a)
        else mkParse (errs ++ [mkIssue "custom" pth msg None]) (Some a)
    | aborted => aborted
    end.

(** [Number.isInteger(x)] *)
Definition isInteger (x : number) : bool :=
  match x with
  | Integer _ => true
  | Float _ => false
  end.

(** The greatest integer below the fraction [(2k+1)/2^e]. *)
Definition floor (k : Z) (e : positive) : Z := Z.shiftr (2 * k + 1) (Zpos e).

(** [x >= n] and [x <= n] for an integer [n]. *)
Definition number_geb (x : number) (n : Z) : bool :=
  match x with
  | Integer m => n <=? m
  | Float (Fraction k e) => n <=? floor k e
  | Float (Infinity negative) => negb negative
  | Float NaN => false
  end.

Definition number_leb (x : number) (n : Z) : bool :=
  match x with
  | Integer m => m <=? n
  | Float (Fraction k e) => floor k e <? n
  | Float (Infinity negative) => negative
  | Float NaN => false
  end.

(** [.int()]: its issue is a type mismatch that received a [float]. *)
Definition z_int (t : ZodType number) : ZodType number :=
  fun v =>
    match t v with
    | mkParse errs (Some x) =>
        if isInteger x then mkParse errs (Some x)
        else mkParse (errs ++ [mkIssue "invalid_type" []
                                 "Expected integer, received float"
                                 (Some (VStr "float"))])
               (Some x)
    | aborted => aborted
    end.

Definition z_min (n : Z) (msg : string) : ZodType number -> ZodType number :=
  check "too_small" (fun x => number_geb x n) msg.

Definition z_max (n : Z) (msg : string) : ZodType number -> ZodType number :=
  check "too_big" (fun x => number_leb x n) msg.

(** The number a field holds once its schema has let it through.  Every
    number schema of the sources has [.int()] in its chain, so a number that
    is not an integer has left an issue and no value is read from it. *)
Definition integer (t : ZodType number) : ZodType Z :=
  fun v =>
    let r := t v in
    mkParse (issues_of r)
      (match output r with
       | Some (Integer n) => Some n
       | _ => None
       end).

(** [z.string().min(1, msg)] *)
Definition z_minLength (n : nat) (msg : string) : ZodType string -> ZodType string :=
  check "too_small" (fun s => (n <=? String.length s)%nat) msg.

Definition z_optional {A} (t : ZodType A) : ZodType (option A) :=
  fun v =>
    match v with
    | VUndefined => OK None
    | _ => let r := t v in mkParse (issues_of r) (option_map Some (output r))
    end.

(** [.default(d)]: an [undefined] input is replaced by [d] and then parsed. *)
Definition z_default {A} (d : jsval) (t : ZodType A) : ZodType A :=
  fun v => match v with VUndefined => t d | _ => t v end.

Definition at_key {A} (k : string) (r : ParseReturn A) : ParseReturn A :=
  mkParse
    (map (fun i => mkIssue (code i) (k :: path i) (message i) (received i)) (issues_of r))
    (output r).

(** The field [k] of an object schema, applied to the input object. *)
Definition prop {A} (k : string) (t : ZodType A) (data : jsval) : ParseReturn A :=
  at_key k (t (get_prop k data)).

(** Combination of the fields parsed so far with the next one. *)
Definition ap {A B} (f : ParseReturn (A -> B)) (x : ParseReturn A) : ParseReturn B :=
  mkParse (issues_of f ++ issues_of x)
    (match output f, output x with
     | Some g, Some a => Some (g a)
     | _, _ => None
     end).

Notation "f <*> x" := (ap f x) (at level 50, left associativity) : js_scope.

(** [z.object(shape)]: the input must be a non-array object. *)
Definition z_object {A} (shape : jsval -> ParseReturn A) : ZodType A :=
  fun v =>
    match v with
    | VObj _ _ => shape v
    | _ => INVALID [invalid_type "object" v]
    end.

Fixpoint parse_items {A} (t : ZodType A) (index : nat) (items : list jsval)
  : ParseReturn (list A) :=
  match items with
  | [] => OK []
  | x :: r =>
      OK cons
        <*> at_key (NilZero.string_of_uint (Nat.to_uint index)) (t x)
        <*> parse_items t (S index) r
  end.

Definition z_array {A} (t : ZodType A) : ZodType (list A) :=
  fun v =>
    match v with
    | VArr items => parse_items t 0 items
    | _ => INVALID [invalid_type "array" v]
    end.

(** [schema.parse(input)] *)
Definition parse {A} (t : ZodType A) (input : jsval) : result A :=
  match t input with
  | mkParse [] (Some a) => Ok a
  | mkParse errs _ => Err (ZodError errs)
  end.

(** ** src/validation/schemas.ts *)

Definition EnvVarType : ZodType string := z_enum ["GENERAL"; "SECRET"].

Definition EnvVarScope : ZodType string :=
  z_enum ["RUN_TIME"; "BUILD_TIME"; "DEPLOY_TIME"].

Definition DockerRegistryType : ZodType string := z_enum ["DOCKER_HUB"; "DOCR"; "GHCR"].

Definition INSTANCE_SIZE_SLUGS : list string :=
  ["basic-xxs"; "basic-xs"; "basic-s"; "basic-m";
   "professional-xs"; "professional-s"; "professional-m"; "professional-l"].

(** The character class [[a-zA-Z0-9_-]]. *)
Definition repo_char (c : ascii) : bool :=
  let n := nat_of_ascii c in
  ((97 <=? n)%nat && (n <=? 122)%nat) || ((65 <=? n)%nat && (n <=? 90)%nat) ||
  ((48 <=? n)%nat && (n <=? 57)%nat) || (n =? 95)%nat || (n =? 45)%nat.

Fixpoint all_repo_chars (s : string) : bool :=
  match s with
  | EmptyString => true
  | String c r => repo_char c && all_repo_chars r
  end.

(** A match of [[a-zA-Z0-9_-]+\/[a-zA-Z0-9_-]+$] once [seen] characters of the
    first segment have been consumed. *)
Fixpoint repo_pattern_from (s : string) (seen : nat) : bool :=
  match s with
  | EmptyString => false
  | String c r =>
      if repo_char c then repo_pattern_from r (S seen)
      else if Ascii.eqb c "/"
           then (0 <? seen)%nat && (0 <? String.length r)%nat && all_repo_chars r
           else false
  end.

(** [GITHUB_REPO_PATTERN.test(s)] for [/^[a-zA-Z0-9_-]+\/[a-zA-Z0-9_-]+$/] *)
Definition GITHUB_REPO_PATTERN (s : string) : bool := repo_pattern_from s 0.

Definition port_range : ZodType number -> ZodType number :=
  fun t =>
    z_max 65535 "Port must be between 1 and 65535"
      (z_min 1 "Number must be greater than or equal to 1" t).

Module EnvironmentVariable.

Record t := mk {
  key : string;
  value : jsval;
  type : string;
  scope : string
}.

Definition Schema : ZodType t :=
  z_object (fun data =>
    OK mk
      <*> prop "key" (refine nonblank "Key must be non-empty" z_string) data
      <*> prop "value" (refine defined "Value is required" z_any) data
      <*> prop "type" (z_default (VStr "GENERAL") EnvVarType) data
      <*> prop "scope" (z_default (VStr "RUN_TIME") EnvVarScope) data).

Definition new (config : jsval) : result t :=
  data <- parse Schema config ;;
  Ok (mk (key data) (value data) (type data) (scope data)).

Definition toJSON (this : t) : jsval :=
  literal [("key", VStr (key this)); ("value", value this);
           ("type", VStr (type this)); ("scope", VStr (scope this))].

End EnvironmentVariable.

Module HealthCheck.

Record t := mk {
  httpPath : string;
  port : Z;
  initialDelaySeconds : Z;
  periodSeconds : Z;
  timeoutSeconds : Z;
  successThreshold : Z;
  failureThreshold : Z
}.

Definition at_least (n : Z) : ZodType number -> ZodType number :=
  z_min n ("Number must be greater than or equal to " ++
           NilZero.string_of_int (Z.to_int n)).

Definition Schema : ZodType t :=
  z_object (fun data =>
    OK mk
      <*> prop "httpPath" (refine nonblank "HTTP path must be non-empty" z_string) data
      <*> prop "port" (integer (port_range (z_int z_number))) data
      <*> prop "initialDelaySeconds"
            (z_default (VNum 0) (integer (at_least 0 (z_int z_number)))) data
      <*> prop "periodSeconds"
            (z_default (VNum 10) (integer (at_least 1 (z_int z_number)))) data
      <*> prop "timeoutSeconds"
            (z_default (VNum 1) (integer (at_least 1 (z_int z_number)))) data
      <*> prop "successThreshold"
            (z_default (VNum 1) (integer (at_least 1 (z_int z_number)))) data
      <*> prop "failureThreshold"
            (z_default (VNum 3) (integer (at_least 1 (z_int z_number)))) data).

Definition new (config : jsval) : result t :=
  data <- parse Schema config ;;
  Ok (mk (httpPath data) (port data) (initialDelaySeconds data) (periodSeconds data)
        (timeoutSeconds data) (successThreshold data) (failureThreshold data)).

Definition toJSON (this : t) : jsval :=
  literal [("httpPath", VStr (httpPath this));
           ("port", VNum (port this));
           ("initialDelaySeconds", VNum (initialDelaySeconds this));
           ("periodSeconds", VNum (periodSeconds this));
           ("timeoutSeconds", VNum (timeoutSeconds this));
           ("successThreshold", VNum (successThreshold this));
           ("failureThreshold", VNum (failureThreshold this))].

End HealthCheck.

Module DockerImage.

Record t := mk {
  registryType : string;
  registry : option string;
  repository : string;
  tag : string
}.

(** The cross-field rule: [DOCR] requires a non-blank registry. *)
Definition docr_rule (data : t) : bool :=
  if String.eqb (registryType data) "DOCR"
  then match registry data with
       | Some r => nonblank r
       | None => false
       end
  else true.

Definition Schema : ZodType t :=
  refine_at docr_rule "DOCR registry type requires non-empty registry field"
    ["registry"]
    (z_object (fun data =>
       OK mk
         <*> prop "registryType" DockerRegistryType data
         <*> prop "registry"
               (z_optional
                  (refine nonblank "Registry must be non-empty when specified" z_string))
               data
         <*> prop "repository" (refine nonblank "Repository must be non-empty" z_string) data
         <*> prop "tag" (refine nonblank "Tag must be non-empty" z_string) data)).

Definition new (config : jsval) : result t :=
  data <- parse Schema config ;;
  Ok (mk (registryType data) (registry data) (repository data) (tag data)).

Definition toJSON (this : t) : jsval :=
  let json := [("registryType", VStr (registryType this));
               ("repository", VStr (repository this));
               ("tag", VStr (tag this))] in
  literal
    (match registry this with
     | Some r =>
         (* [if (this.registry)]: set and not the empty string *)
         if (0 <? String.length r)%nat then obj_set "registry" (VStr r) json else json
     | None => json
     end).

End DockerImage.

Module GitHubSource.

Record t := mk {
  repo : string;
  branch : string;
  sourceDir : string;
  dockerfilePath : string;
  deployOnPush : bool
}.

Definition Schema : ZodType t :=
  z_object (fun data =>
    OK mk
      <*> prop "repo"
            (check "invalid_string" GITHUB_REPO_PATTERN
               ("Must be in format " ++ quoted "owner/repo") z_string) data
      <*> prop "branch" (refine nonblank "Branch must be non-empty" z_string) data
      <*> prop "sourceDir" (z_default (VStr "/") z_string) data
      <*> prop "dockerfilePath"
            (z_default (VStr "Dockerfile")
               (refine nonblank "Dockerfile path must be non-empty" z_string)) data
      <*> prop "deployOnPush" (z_default (VBool false) z_boolean) data).

Definition new (config : jsval) : result t :=
  data <- parse Schema config ;;
  Ok (mk (repo data) (branch data) (sourceDir data) (dockerfilePath data)
        (deployOnPush data)).

Definition toJSON (this : t) : jsval :=
  literal [("repo", VStr (repo this));
           ("branch", VStr (branch this));
           ("sourceDir", VStr (sourceDir this));
           ("dockerfilePath", VStr (dockerfilePath this));
           ("deployOnPush", VBool (deployOnPush this))].

End GitHubSource.

Module VolumeMount.

Record t := mk {
  name : string;
  mountPath : string;
  size : string
}.

Definition Schema : ZodType t :=
  z_object (fun data =>
    OK mk
      <*> prop "name" (refine nonblank "Name must be non-empty" z_string) data
      <*> prop "mountPath"
            (check "invalid_string" (startsWith "/")
               "Must be an absolute path (starting with /)" z_string) data
      <*> prop "size"
            (z_default (VStr "1GB") (z_minLength 1 "Size must be non-empty" z_string))
            data).

(** [config.size ?? '1GB'] *)
Definition nullish_or (v d : jsval) : jsval := if defined v then v else d.

Definition new (config : jsval) : result t :=
  data <- parse Schema
            (literal [("name", get_prop "name" config);
                      ("mountPath", get_prop "mountPath" config);
                      ("size", nullish_or (get_prop "size" config) (VStr "1GB"))]) ;;
  Ok (mk (name data) (mountPath data) (size data)).

Definition toJSON (this : t) : jsval :=
  literal [("name", VStr (name this));
           ("mountPath", VStr (mountPath this));
           ("size", VStr (size this))].

End VolumeMount.

(** ** src/base/AppPlatformResource.ts *)

Module AppPlatformResource.

Record t := mk {
  name : string;
  envs : list EnvironmentVariable.t
}.

(** An [EnvironmentVariable] instance as the validation library sees it. *)
Definition instance (e : EnvironmentVariable.t) : jsval :=
  VObj ["toJSON"] [("key", VStr (EnvironmentVariable.key e));
                   ("value", EnvironmentVariable.value e);
                   ("type", VStr (EnvironmentVariable.type e));
                   ("scope", VStr (EnvironmentVariable.scope e))].

Definition array_or_undefined {A} (f : A -> jsval) (l : option (list A)) : jsval :=
  match l with
  | Some items => VArr (map f items)
  | None => VUndefined
  end.

Definition Schema : ZodType (string * list jsval) :=
  z_object (fun data =>
    OK pair
      <*> prop "name" (refine nonblank "Name must be non-empty" z_string) data
      <*> prop "envs" (z_default (VArr []) (z_array z_any)) data).

Definition new (config_name : jsval) (config_envs : option (list EnvironmentVariable.t))
  : result t :=
  data <- parse Schema
            (literal [("name", config_name);
                      ("envs", array_or_undefined instance config_envs)]) ;;
  Ok (mk (fst data)
        (* [config.envs?.slice() || []] *)
        (match config_envs with Some l => l | None => [] end)).

(** [this.envs.findIndex(e => e.key === key)] *)
Fixpoint findIndex (key : string) (l : list EnvironmentVariable.t) : option nat :=
  match l with
  | [] => None
  | e :: r =>
      if String.eqb (EnvironmentVariable.key e) key then Some 0%nat
      else option_map S (findIndex key r)
  end.

(** Every method returns its outcome together with the object after the
    call. *)
Definition addEnv (env : EnvironmentVariable.t) (this : t) : result unit * t :=
  match findIndex (EnvironmentVariable.key env) (envs this) with
  | Some _ =>
      (Err (ZodError
              [mkIssue "custom" ["key"]
                 ("Environment variable with key " ++
                  quoted (EnvironmentVariable.key env) ++ " already exists")
                 None]),
       this)
  | None => (Ok tt, mk (name this) (envs this ++ [env]))
  end.

Fixpoint splice1 {A} (index : nat) (l : list A) : list A :=
  match index, l with
  | _, [] => []
  | O, _ :: r => r
  | S i, x :: r => x :: splice1 i r
  end.

Definition removeEnv (key : string) (this : t) : bool * t :=
  match findIndex key (envs this) with
  | Some index => (true, mk (name this) (splice1 index (envs this)))
  | None => (false, this)
  end.

Definition getEnv (key : string) (this : t) : option EnvironmentVariable.t :=
  find (fun e => String.eqb (EnvironmentVariable.key e) key) (envs this).

Definition listEnvs (this : t) : list EnvironmentVariable.t := envs this.

End AppPlatformResource.

(** [DockerImage | GitHubSource] *)
Inductive Source : Type :=
| FromDockerImage (image : DockerImage.t)
| FromGitHubSource (source : GitHubSource.t).

Definition Source_toJSON (s : Source) : jsval :=
  match s with
  | FromDockerImage image => DockerImage.toJSON image
  | FromGitHubSource source => GitHubSource.toJSON source
  end.

Definition set_if {A} (k : string) (f : A -> jsval) (field : option A)
  (json : list (string * jsval)) : list (string * jsval) :=
  match field with
  | Some x => obj_set k (f x) json
  | None => json
  end.

(** [this.volumes !== undefined && this.volumes.length > 0] *)
Definition nonempty_volumes (v : option (list VolumeMount.t))
  : option (list VolumeMount.t) :=
  match v with
  | Some l => if (0 <? List.length l)%nat then Some l else None
  | None => None
  end.

Definition ports (l : list Z) : jsval := VArr (map VNum l).

(** ** src/resources/Service.ts *)

Module Service.

Module Config.
Record t := mk {
  name : jsval;
  instanceSizeSlug : jsval;
  instanceCount : jsval;
  httpPort : jsval;
  internalPorts : jsval;
  healthCheck : option HealthCheck.t;
  runCommand : jsval;
  volumes : option (list VolumeMount.t);
  source : option Source;
  envs : option (list EnvironmentVariable.t)
}.
End Config.

Record t := mk {
  base : AppPlatformResource.t;
  instanceSizeSlug : string;
  instanceCount : Z;
  httpPort : option Z;
  internalPorts : option (list Z);
  healthCheck : option HealthCheck.t;
  runCommand : option string;
  volumes : option (list VolumeMount.t);
  source : option Source
}.

Record Primitives := mkPrimitives {
  p_instanceSizeSlug : string;
  p_instanceCount : Z;
  p_httpPort : option Z;
  p_internalPorts : option (list Z);
  p_runCommand : option string
}.

Definition Schema : ZodType Primitives :=
  z_object (fun data =>
    OK mkPrimitives
      <*> prop "instanceSizeSlug" (z_enum INSTANCE_SIZE_SLUGS) data
      <*> prop "instanceCount"
            (integer (z_min 1 "Instance count must be a positive integer"
                        (z_int z_number))) data
      <*> prop "httpPort" (z_optional (integer (port_range (z_int z_number)))) data
      <*> prop "internalPorts"
            (z_optional
               (z_array
                  (integer
                     (z_max 65535 "Number must be less than or equal to 65535"
                        (z_min 1 "Number must be greater than or equal to 1"
                           (z_int z_number))))))
            data
      <*> prop "runCommand" (z_optional z_string) data).

Definition new (config : Config.t) : result t :=
  super <- AppPlatformResource.new (Config.name config) (Config.envs config) ;;
  data <- parse Schema
            (literal [("instanceSizeSlug", Config.instanceSizeSlug config);
                      ("instanceCount", Config.instanceCount config);
                      ("httpPort", Config.httpPort config);
                      ("internalPorts", Config.internalPorts config);
                      ("runCommand", Config.runCommand config)]) ;;
  Ok (mk super (p_instanceSizeSlug data) (p_instanceCount data) (p_httpPort data)
        (p_internalPorts data) (Config.healthCheck config) (p_runCommand data)
        (Config.volumes config) (Config.source config)).

Definition toJSON (this : t) : jsval :=
  let json :=
    [("name", VStr (AppPlatformResource.name (base this)));
     ("instanceSizeSlug", VStr (instanceSizeSlug this));
     ("instanceCount", VNum (instanceCount this));
     ("envs", VArr (map EnvironmentVariable.toJSON (AppPlatformResource.envs (base this))))] in
  let json := set_if "httpPort" VNum (httpPort this) json in
  let json := set_if "internalPorts" ports (internalPorts this) json in
  let json := set_if "healthCheck" HealthCheck.toJSON (healthCheck this) json in
  let json := set_if "runCommand" VStr (runCommand this) json in
  let json :=
    set_if "volumes" (fun l => VArr (map VolumeMount.toJSON l))
      (nonempty_volumes (volumes this)) json in
  let json := set_if "source" Source_toJSON (source this) json in
  literal json.

End Service.

(** ** src/resources/Job.ts *)

Module Job.

Module Config.
Record t := mk {
  name : jsval;
  kind : jsval;
  runCommand : jsval;
  instanceSizeSlug : jsval;
  instanceCount : jsval;
  source : option Source;
  envs : option (list EnvironmentVariable.t)
}.
End Config.

Record t := mk {
  base : AppPlatformResource.t;
  kind : string;
  runCommand : string;
  instanceSizeSlug : option string;
  instanceCount : option Z;
  source : option Source
}.

Record Primitives := mkPrimitives {
  p_kind : string;
  p_runCommand : string;
  p_instanceSizeSlug : option string;
  p_instanceCount : option Z
}.

Definition Schema : ZodType Primitives :=
  z_object (fun data =>
    OK mkPrimitives
      <*> prop "kind" (z_enum ["PRE_DEPLOY"; "POST_DEPLOY"]) data
      <*> prop "runCommand" (refine nonblank "Run command must be non-empty" z_string) data
      <*> prop "instanceSizeSlug" (z_optional (z_enum INSTANCE_SIZE_SLUGS)) data
      <*> prop "instanceCount"
            (z_optional
               (integer (z_min 1 "Number must be greater than or equal to 1"
                           (z_int z_number))))
            data).

Definition new (config : Config.t) : result t :=
  super <- AppPlatformResource.new (Config.name config) (Config.envs config) ;;
  data <- parse Schema
            (literal [("kind", Config.kind config);
                      ("runCommand", Config.runCommand config);
                      ("instanceSizeSlug", Config.instanceSizeSlug config);
                      ("instanceCount", Config.instanceCount config)]) ;;
  Ok (mk super (p_kind data) (p_runCommand data) (p_instanceSizeSlug data)
        (p_instanceCount data) (Config.source config)).

Definition toJSON (this : t) : jsval :=
  let json :=
    [("name", VStr (AppPlatformResource.name (base this)));
     ("kind", VStr (kind this));
     ("runCommand", VStr (runCommand this));
     ("envs", VArr (map EnvironmentVariable.toJSON (AppPlatformResource.envs (base this))))] in
  let json := set_if "instanceSizeSlug" VStr (instanceSizeSlug this) json in
  let json := set_if "instanceCount" VNum (instanceCount this) json in
  let json := set_if "source" Source_toJSON (source this) json in
  literal json.

End Job.

(** ** src/resources/Worker.ts *)

Module Worker.

Module Config.
Record t := mk {
  name : jsval;
  instanceSizeSlug : jsval;
  instanceCount : jsval;
  internalPorts : jsval;
  runCommand : jsval;
  volumes : option (list VolumeMount.t);
  source : option Source;
  envs : option (list EnvironmentVariable.t)
}.
End Config.

Record t := mk {
  base : AppPlatformResource.t;
  instanceSizeSlug : string;
  instanceCount : Z;
  internalPorts : option (list Z);
  runCommand : option string;
  volumes : option (list VolumeMount.t);
  source : option Source
}.

Record Primitives := mkPrimitives {
  p_instanceSizeSlug : string;
  p_instanceCount : Z;
  p_internalPorts : option (list Z);
  p_runCommand : option string
}.

Definition Schema : ZodType Primitives :=
  z_object (fun data =>
    OK mkPrimitives
      <*> prop "instanceSizeSlug" (z_enum INSTANCE_SIZE_SLUGS) data
      <*> prop "instanceCount"
            (integer (z_min 1 "Instance count must be a positive integer"
                        (z_int z_number))) data
      <*> prop "internalPorts"
            (z_optional
               (z_array
                  (integer
                     (z_max 65535 "Number must be less than or equal to 65535"
                        (z_min 1 "Number must be greater than or equal to 1"
                           (z_int z_number))))))
            data
      <*> prop "runCommand" (z_optional z_string) data).

Definition new (config : Config.t) : result t :=
  super <- AppPlatformResource.new (Config.name config) (Config.envs config) ;;
  data <- parse Schema
            (literal [("instanceSizeSlug", Config.instanceSizeSlug config);
                      ("instanceCount", Config.instanceCount config);
                      ("internalPorts", Config.internalPorts config);
                      ("runCommand", Config.runCommand config)]) ;;
  Ok (mk super (p_instanceSizeSlug data) (p_instanceCount data) (p_internalPorts data)
        (p_runCommand data) (Config.volumes config) (Config.source config)).

Definition toJSON (this : t) : jsval :=
  let json :=
    [("name", VStr (AppPlatformResource.name (base this)));
     ("instanceSizeSlug", VStr (instanceSizeSlug this));
     ("instanceCount", VNum (instanceCount this));
     ("envs", VArr (map EnvironmentVariable.toJSON (AppPlatformResource.envs (base this))))] in
  let json := set_if "internalPorts" ports (internalPorts this) json in
  let json := set_if "runCommand" VStr (runCommand this) json in
  let json :=
    set_if "volumes" (fun l => VArr (map VolumeMount.toJSON l))
      (nonempty_volumes (volumes this)) json in
  let json := set_if "source" Source_toJSON (source this) json in
  literal json.

End Worker.

(** ** Inheritance from AppPlatformResource

    A class that extends the abstract base holds the base's fields and
    implements [toJSON]; the base's methods act on the inherited fields. *)

Class Extends (A : Type) := {
  super : A -> AppPlatformResource.t;
  with_super : AppPlatformResource.t -> A -> A;
  toJSON : A -> jsval;
  super_with_super : forall b a, super (with_super b a) = b;
  with_super_super : forall a, with_super (super a) a = a
}.

Definition Service_with_super (b : AppPlatformResource.t) (s : Service.t) : Service.t :=
  Service.mk b (Service.instanceSizeSlug s) (Service.instanceCount s)
    (Service.httpPort s) (Service.internalPorts s) (Service.healthCheck s)
    (Service.runCommand s) (Service.volumes s) (Service.source s).

Definition Job_with_super (b : AppPlatformResource.t) (j : Job.t) : Job.t :=
  Job.mk b (Job.kind j) (Job.runCommand j) (Job.instanceSizeSlug j)
    (Job.instanceCount j) (Job.source j).

Definition Worker_with_super (b : AppPlatformResource.t) (w : Worker.t) : Worker.t :=
  Worker.mk b (Worker.instanceSizeSlug w) (Worker.instanceCount w)
    (Worker.internalPorts w) (Worker.runCommand w) (Worker.volumes w)
    (Worker.source w).

#[export] Instance Service_extends : Extends Service.t := {|
  super := Service.base;
  with_super := Service_with_super;
  toJSON := Service.toJSON;
  super_with_super := fun _ _ => eq_refl;
  with_super_super := fun a =>
    match a as x return Service_with_super (Service.base x) x = x with
    | Service.mk _ _ _ _ _ _ _ _ _ => eq_refl
    end
|}.

#[export] Instance Job_extends : Extends Job.t := {|
  super := Job.base;
  with_super := Job_with_super;
  toJSON := Job.toJSON;
  super_with_super := fun _ _ => eq_refl;
  with_super_super := fun a =>
    match a as x return Job_with_super (Job.base x) x = x with
    | Job.mk _ _ _ _ _ _ => eq_refl
    end
|}.

#[export] Instance Worker_extends : Extends Worker.t := {|
  super := Worker.base;
  with_super := Worker_with_super;
  toJSON := Worker.toJSON;
  super_with_super := fun _ _ => eq_refl;
  with_super_super := fun a =>
    match a as x return Worker_with_super (Worker.base x) x = x with
    | Worker.mk _ _ _ _ _ _ _ => eq_refl
    end
|}.

Section Inherited.

Context {A : Type} `{Extends A}.

Definition addEnv (env : EnvironmentVariable.t) (this : A) : result unit * A :=
  let (outcome, b) := AppPlatformResource.addEnv env (super this) in
  (outcome, with_super b this).

Definition removeEnv (key : string) (this : A) : bool * A :=
  let (removed, b) := AppPlatformResource.removeEnv key (super this) in
  (removed, with_super b this).

Definition getEnv (key : string) (this : A) : option EnvironmentVariable.t :=
  AppPlatformResource.getEnv key (super this).

Definition listEnvs (this : A) : list EnvironmentVariable.t :=
  AppPlatformResource.listEnvs (super this).

(** [async toYAML() { const json = this.toJSON(); return await toYAML(json); }] *)
Definition resource_toYAML (dump : jsval -> result string)
  (pulumi : option (list jsval -> result (list jsval))) (same : nat -> nat -> bool)
  (this : A) : result string :=
  toYAML dump pulumi same (toJSON this).

End Inherited.

(** ** src/validation/ZodError.ts and src/validation/validate.ts *)

Definition fromZodError (issues : list ZodIssue) : exn :=
  match issues with
  | [] => ValidationError "unknown" VNull "Unknown validation error"
  | issue :: _ =>
      let field :=
        if (0 <? List.length (path issue))%nat then String.concat "." (path issue)
        else "unknown" in
      let rejected :=
        match received issue with
        | Some r => r
        | None => VUndefined
        end in
      let constraint :=
        if (0 <? String.length (message issue))%nat then message issue
        else "Validation failed" in
      ValidationError field rejected constraint
  end.

Definition validate {A} (schema : ZodType A) (input : jsval) : result A :=
  match schema input with
  | mkParse [] (Some a) => Ok a
  | mkParse errs _ => Err (fromZodError errs)
  end.

Definition validateWithPrefix {A} (schema : ZodType A) (input : jsval) (prefix : string)
  : result A :=
  match schema input with
  | mkParse [] (Some a) => Ok a
  | mkParse errs _ =>
      match fromZodError errs with
      | ValidationError field rejected constraint =>
          Err (ValidationError (prefix ++ "." ++ field) rejected constraint)
      | e => Err e
      end
  end.

(** ** The YAML printer

    A model of [yaml.dump] of the js-yaml package (version 4) with the options
    the serializer passes: block style, two spaces of indentation, no line
    folding, no anchors, keys in insertion order.  The package is not part of
    the sources; the model follows its dumper.  A string is written plain
    when that is unambiguous, in single quotes otherwise, as a literal block
    when it has line breaks and in double quotes when it has characters that
    are not printable; a number is written as [Number.prototype.toString]
    gives it; a function cannot be written and makes the printer throw. *)

Definition nl : string := String (ascii_of_nat 10) EmptyString.

Definition is_digit (c : ascii) : bool :=
  let n := nat_of_ascii c in (48 <=? n)%nat && (n <=? 57)%nat.

Fixpoint all_chars (p : ascii -> bool) (s : string) : bool :=
  match s with
  | EmptyString => true
  | String c r => p c && all_chars p r
  end.

Fixpoint last_char (s : string) (d : ascii) : ascii :=
  match s with
  | EmptyString => d
  | String c r => last_char r c
  end.

Definition one_of (chars : string) (c : ascii) : bool :=
  existsb (Ascii.eqb c) (list_ascii_of_string chars).

(** The longest prefix of characters satisfying [p], and the rest. *)
Fixpoint span (p : ascii -> bool) (s : string) : string * string :=
  match s with
  | EmptyString => (EmptyString, EmptyString)
  | String c r =>
      if p c then let (taken, rest) := span p r in (String c taken, rest)
      else (EmptyString, s)
  end.

Fixpoint repeat_char (c : ascii) (n : nat) : string :=
  match n with
  | O => EmptyString
  | S m => String c (repeat_char c m)
  end.

(** *** Numbers: [Number.prototype.toString]

    A positive number is given as [m * 2^q].  When it is a double, its text
    has the digits of the shortest decimal that reads back as that double,
    the one nearest to it when there are several; otherwise (more than 53
    significant bits, which no JavaScript number has) it has all its
    digits. *)

Definition pow (b : Z) (n : Z) : Z := if 0 <=? n then b ^ n else 1.

Definition decimal (n : Z) : string := NilZero.string_of_int (Z.to_int n).

Definition strip_zeros (digits : string) : string :=
  reverse (snd (span (Ascii.eqb "0") (reverse digits))).

(** [n] with [10^(n-1) <= X/D < 10^n]. *)
Definition magnitude (X D : Z) : Z :=
  if D <=? X then Z.of_nat (String.length (decimal (X / D)))
  else 1 - Z.of_nat (String.length (decimal (D / X))).

(** The decimal with last digit at [10^j] that is nearest to [X/D], when it
    lies in the rounding interval from [L/D] to [H/D] of the double [X/D]:
    below or above the number, the nearer one, the even one on a tie. *)
Definition candidate (closed : bool) (j X L H D : Z) : option Z :=
  let up := pow 10 j in
  let down := pow 10 (- j) in
  let x := X * down in
  let unit := D * up in
  let below := x / unit in
  let above := below + 1 in
  let inside (s : Z) :=
    let c := s * unit in
    if closed then (L * down <=? c) && (c <=? H * down)
    else (L * down <? c) && (c <? H * down) in
  let d_below := x - below * unit in
  let d_above := above * unit - x in
  match inside below, inside above with
  | true, true =>
      if d_below <? d_above then Some below
      else if d_above <? d_below then Some above
      else if Z.even below then Some below else Some above
  | true, false => Some below
  | false, true => Some above
  | false, false => None
  end.

(** The first number of digits [k] for which there is such a decimal. *)
Fixpoint shortest (fuel : nat) (closed : bool) (k n0 X L H D : Z) : option (Z * Z) :=
  match fuel with
  | O => None
  | S f =>
      match candidate closed (n0 - k) X L H D with
      | Some s => Some (s, n0 - k)
      | None => shortest f closed (k + 1) n0 X L H D
      end
  end.

(** The digits [s] and the exponent [j] of the text of [m * 2^q]: the text
    denotes [s * 10^j].  The gap between the double and its neighbours is
    [2^u]; the interval of the decimals that read back as the double reaches
    half a gap to each side (a quarter below a power of two) and is closed
    when the mantissa is even. *)
Definition digits_and_exponent (m q : Z) : Z * Z :=
  let v := Z.log2 (Z.land m (- m)) in
  let M := Z.shiftr m v in
  let Q := q + v in
  let b := Z.log2 M + 1 in
  let E := Q + b - 1 in
  let exact := (M * pow 2 Q * pow 5 (- Q), Z.min Q 0) in
  if (b <=? 53) && (E <=? 1023) && (-1074 <=? Q) then
    let u := Z.max (E - 52) (-1074) in
    let mantissa := M * pow 2 (Q - u) in
    let quarter := pow 2 (u - 2) in
    let D := pow 2 (2 - u) in
    let X := 4 * mantissa * quarter in
    let L := (if (M =? 1) && (-1022 <? E) then 4 * mantissa - 1 else 4 * mantissa - 2)
             * quarter in
    let H := (4 * mantissa + 2) * quarter in
    match shortest 17 (Z.even mantissa) 1 (magnitude X D) X L H D with
    | Some found => found
    | None => exact
    end
  else exact.

(** The text: all digits up to [10^21], a decimal point inside or [0.] and
    up to six zeros before the digits, an exponent beyond. *)
Definition number_text (negative : bool) (m q : Z) : string :=
  let (s, j) := digits_and_exponent m q in
  let all := decimal s in
  let n := j + Z.of_nat (String.length all) in
  let ds := strip_zeros all in
  let k := Z.of_nat (String.length ds) in
  (if negative then "-" else "") ++
  (if (k <=? n) && (n <=? 21) then ds ++ repeat_char "0" (Z.to_nat (n - k))
   else if (0 <? n) && (n <=? 21)
        then substring 0 (Z.to_nat n) ds ++ "." ++
             substring (Z.to_nat n) (Z.to_nat (k - n)) ds
   else if (-6 <? n) && (n <=? 0)
        then "0." ++ repeat_char "0" (Z.to_nat (- n)) ++ ds
   else
     let e := n - 1 in
     (match ds with
      | String d EmptyString => ds
      | String d r => String d ("." ++ r)
      | EmptyString => ds
      end) ++ "e" ++ (if e <? 0 then "-" else "+") ++ decimal (Z.abs e)).

(** An integer: [n.toString(10)]. *)
Definition yaml_number (n : Z) : string :=
  if n =? 0 then "0" else number_text (n <? 0) (Z.abs n) 0.


(** A number that is not an integer.  A text in exponent form without a dot
    gets a dot before its [e]. *)
Definition yaml_float (x : nonInteger) : string :=
  match x with
  | NaN => ".nan"
  | Infinity false => ".inf"
  | Infinity true => "-.inf"
  | Fraction k e =>
      let m := 2 * k + 1 in
      let res := number_text (m <? 0) (Z.abs m) (- Zpos e) in
      let (digits, rest) :=
        span is_digit (match res with String "-" r => r | _ => res end) in
      match rest with
      | String "e" exponent =>
          (if m <? 0 then "-" else "") ++ digits ++ ".e" ++ exponent
      | _ => res
      end
  end.

(** *** Strings: the style of a scalar *)

Definition isPrintable (c : ascii) : bool :=
  let n := nat_of_ascii c in ((32 <=? n) && (n <=? 126) || (161 <=? n))%nat.

Definition isWhitespace (c : ascii) : bool :=
  let n := nat_of_ascii c in ((n =? 32) || (n =? 9))%nat.

Definition dquote : ascii := ascii_of_nat 34.

(** A character that can start a plain scalar: printable, not white space
    and not an indicator. *)
Definition isPlainSafeFirst (c : ascii) : bool :=
  isPrintable c && negb (isWhitespace c) &&
  negb (one_of "-?:,[]{}#&*!|=>'%@`" c) && negb (Ascii.eqb c dquote).

(** A character that can continue a plain scalar of a block collection after
    the character [prev]: not [#] unless it follows a character that is not
    white space, and not white space after a colon. *)
Definition isPlainSafe (c : ascii) (prev : option ascii) : bool :=
  let nsOrWhitespace := isPrintable c in
  let ns := nsOrWhitespace && negb (isWhitespace c) in
  let afterColon := match prev with Some p => Ascii.eqb p ":" | None => false end in
  let afterNs :=
    match prev with
    | Some p => isPrintable p && negb (isWhitespace p)
    | None => false
    end in
  (nsOrWhitespace && negb (Ascii.eqb c "#") && negb (afterColon && negb ns))
  || (afterNs && Ascii.eqb c "#")
  || (afterColon && ns).

Definition isPlainSafeLast (c : ascii) : bool :=
  negb (isWhitespace c) && negb (Ascii.eqb c ":").

Fixpoint all_plain_safe (prev : option ascii) (s : string) : bool :=
  match s with
  | EmptyString => true
  | String c r => isPlainSafe c prev && all_plain_safe (Some c) r
  end.

(** The words the older YAML version reads as booleans. *)
Definition DEPRECATED_BOOLEANS_SYNTAX : list string :=
  ["y"; "Y"; "yes"; "Yes"; "YES"; "on"; "On"; "ON";
   "n"; "N"; "no"; "No"; "NO"; "off"; "Off"; "OFF"].

Definition digit_or_underscore (c : ascii) : bool := is_digit c || Ascii.eqb c "_".

Definition drop_sign (s : string) : string :=
  match s with
  | String c r => if one_of "-+" c then r else s
  | EmptyString => s
  end.

Definition nonempty (s : string) : bool := (0 <? String.length s)%nat.

(** One or more groups [:[0-9_]+], then the rest. *)
Fixpoint colon_groups (fuel : nat) (s : string) (seen : nat) : option string :=
  match fuel, s with
  | S f, String c r =>
      if Ascii.eqb c ":" then
        let (group, rest) := span digit_or_underscore r in
        if nonempty group then colon_groups f rest (S seen) else None
      else if (0 <? seen)%nat then Some s else None
  | _, _ => if (0 <? seen)%nat then Some s else None
  end.

(** An optional sign, digits and underscores, one or more groups of a colon
    with digits and underscores, and optionally a dot with digits and
    underscores: the sexagesimal numbers of the older YAML version. *)
Definition DEPRECATED_BASE60_SYNTAX (s : string) : bool :=
  let (first, rest) := span digit_or_underscore (drop_sign s) in
  nonempty first &&
  match colon_groups (String.length rest) rest 0 with
  | Some EmptyString => true
  | Some (String c r) => Ascii.eqb c "." && all_chars digit_or_underscore r
  | None => false
  end.

(** The implicit types of the default schema, as recognisers of a plain
    scalar. *)
Definition resolveYamlNull (s : string) : bool :=
  mem s ["~"; "null"; "Null"; "NULL"].

Definition resolveYamlBoolean (s : string) : bool :=
  mem s ["true"; "True"; "TRUE"; "false"; "False"; "FALSE"].

Definition is_hex (c : ascii) : bool :=
  let n := nat_of_ascii c in
  is_digit c || ((65 <=? n) && (n <=? 70))%nat || ((97 <=? n) && (n <=? 102))%nat.

Definition is_oct (c : ascii) : bool :=
  let n := nat_of_ascii c in ((48 <=? n) && (n <=? 55))%nat.

Definition is_bin (c : ascii) : bool := one_of "01" c.

(** Digits of one base with underscores between them: at least one digit,
    no other character, and the last character is not an underscore. *)
Definition digits_with_underscores (digit : ascii -> bool) (s : string) : bool :=
  all_chars (fun c => digit c || Ascii.eqb c "_") s &&
  negb (all_chars (Ascii.eqb "_") s) &&
  negb (Ascii.eqb (last_char s "0") "_").

Definition resolveYamlInteger (s : string) : bool :=
  match drop_sign s with
  | EmptyString => false
  | String "0" EmptyString => nonempty s
  | String "0" (String "b" r) => digits_with_underscores is_bin r
  | String "0" (String "x" r) => digits_with_underscores is_hex r
  | String "0" (String "o" r) => digits_with_underscores is_oct r
  | String "0" (String "_" r) => false
  | String "0" r => digits_with_underscores is_digit r
  | String "_" r => false
  | r => digits_with_underscores is_digit r
  end.

(** [[eE][-+]?[0-9]+] or nothing, up to the end. *)
Definition exponent_or_end (s : string) : bool :=
  match s with
  | EmptyString => true
  | String c r =>
      one_of "eE" c && nonempty (drop_sign r) && all_chars is_digit (drop_sign r)
  end.

Definition resolveYamlFloat (s : string) : bool :=
  negb (Ascii.eqb (last_char s "0") "_") &&
  (match drop_sign s with
   | String c r =>
       (* sign, digit, digits or underscores, optional fraction, optional exponent *)
       is_digit c &&
       let (_, rest) := span digit_or_underscore r in
       match rest with
       | String "." r' => exponent_or_end (snd (span digit_or_underscore r'))
       | _ => exponent_or_end rest
       end
   | EmptyString => false
   end
   ||
   match s with
   | String "." r =>
       (* a dot, digits or underscores, optional exponent *)
       let (digits, rest) := span digit_or_underscore r in
       nonempty digits && exponent_or_end rest
   | _ => false
   end
   || mem (drop_sign s) [".inf"; ".Inf"; ".INF"]
   || mem s [".nan"; ".NaN"; ".NAN"]).

(** At least [least] and at most [most] digits, then the rest. *)
Definition some_digits (least most : nat) (s : string) : option string :=
  let (digits, rest) := span is_digit s in
  let n := String.length digits in
  if ((least <=? n) && (n <=? most))%nat then Some rest
  else if (most <? n)%nat
       then Some (substring most (n - most) digits ++ rest)
       else None.

Definition expect (c : ascii) (s : string) : option string :=
  match s with
  | String c' r => if Ascii.eqb c c' then Some r else None
  | EmptyString => None
  end.

Definition and_then (o : option string) (f : string -> option string) : option string :=
  match o with
  | Some s => f s
  | None => None
  end.

Definition matched (o : option string) : bool :=
  match o with
  | Some EmptyString => true
  | _ => false
  end.

Definition is_blank (c : ascii) : bool := isWhitespace c.

(** [Z], or a sign, one or two digits and optionally a colon and two
    digits; up to the end. *)
Definition time_zone (s : string) : bool :=
  match s with
  | String "Z" EmptyString => true
  | String c r =>
      one_of "-+" c &&
      match some_digits 1 2 r with
      | Some EmptyString => true
      | Some rest => matched (and_then (expect ":" rest) (some_digits 2 2))
      | None => false
      end
  | EmptyString => false
  end.

Definition resolveYamlTimestamp (s : string) : bool :=
  (* [0-9]{4}-[0-9]{2}-[0-9]{2} *)
  matched (and_then (and_then (and_then (and_then (some_digits 4 4 s) (expect "-"))
                                 (some_digits 2 2)) (expect "-")) (some_digits 2 2))
  ||
  match and_then (and_then (and_then (and_then (some_digits 4 4 s) (expect "-"))
                              (some_digits 1 2)) (expect "-")) (some_digits 1 2) with
  | Some (String c r) =>
      let after_separator :=
        if one_of "Tt" c then Some r
        else if is_blank c then Some (snd (span is_blank r))
        else None in
      match and_then (and_then (and_then (and_then (and_then after_separator
                        (some_digits 1 2)) (expect ":")) (some_digits 2 2))
                        (expect ":")) (some_digits 2 2) with
      | Some rest =>
          let rest :=
            match rest with
            | String "." r' => snd (span is_digit r')
            | _ => rest
            end in
          match rest with
          | EmptyString => true
          | _ => time_zone (snd (span is_blank rest))
          end
      | None => false
      end
  | _ => false
  end.

Definition resolveYamlMerge (s : string) : bool := String.eqb s "<<".

(** The string read back as a plain scalar would be of another type. *)
Definition testImplicitResolving (s : string) : bool :=
  resolveYamlNull s || resolveYamlBoolean s || resolveYamlInteger s ||
  resolveYamlFloat s || resolveYamlTimestamp s || resolveYamlMerge s.

Inductive ScalarStyle : Type :=
| STYLE_PLAIN | STYLE_SINGLE | STYLE_LITERAL | STYLE_DOUBLE.

Definition is_line_feed (c : ascii) : bool := Ascii.eqb c (ascii_of_nat 10).

Definition chooseScalarStyle (s : string) (singleLineOnly : bool) : ScalarStyle :=
  let plain :=
    match s with
    | String c _ => isPlainSafeFirst c && isPlainSafeLast (last_char s c)
    | EmptyString => false
    end && all_plain_safe None s in
  let hasLineBreak := negb (all_chars (fun c => negb (is_line_feed c)) s) in
  if negb (all_chars (fun c => isPrintable c ||
                               (negb singleLineOnly && is_line_feed c)) s)
  then STYLE_DOUBLE
  else if negb hasLineBreak then
    if plain && negb (testImplicitResolving s) then STYLE_PLAIN else STYLE_SINGLE
  else STYLE_LITERAL.

(** Single quotes, with every single quote of the text doubled. *)
Fixpoint escape_single (s : string) : string :=
  match s with
  | EmptyString => EmptyString
  | String c r =>
      if Ascii.eqb c "'" then String c (String c (escape_single r))
      else String c (escape_single r)
  end.

Definition hex_digit (n : nat) : ascii :=
  ascii_of_nat (if (n <? 10)%nat then 48 + n else 55 + n).

(** The escape sequence of a character inside double quotes, if it has one
    of its own. *)
Definition ESCAPE_SEQUENCES (c : ascii) : option string :=
  let n := nat_of_ascii c in
  if (n =? 0)%nat then Some "\0"
  else if (n =? 7)%nat then Some "\a"
  else if (n =? 8)%nat then Some "\b"
  else if (n =? 9)%nat then Some "\t"
  else if (n =? 10)%nat then Some "\n"
  else if (n =? 11)%nat then Some "\v"
  else if (n =? 12)%nat then Some "\f"
  else if (n =? 13)%nat then Some "\r"
  else if (n =? 27)%nat then Some "\e"
  else if (n =? 34)%nat then Some (String "\" (String dquote EmptyString))
  else if (n =? 92)%nat then Some "\\"
  else if (n =? 133)%nat then Some "\N"
  else if (n =? 160)%nat then Some "\_"
  else None.

Fixpoint escapeString (s : string) : string :=
  match s with
  | EmptyString => EmptyString
  | String c r =>
      match ESCAPE_SEQUENCES c with
      | Some seq => seq ++ escapeString r
      | None =>
          if isPrintable c then String c (escapeString r)
          else let n := nat_of_ascii c in
               "\x" ++ String (hex_digit (n / 16)) (String (hex_digit (n mod 16))
                                                      (escapeString r))
      end
  end.

(** The lines of a text, split at its line feeds. *)
Fixpoint lines_of (s : string) (line : string) : list string :=
  match s with
  | EmptyString => [reverse line]
  | String c r =>
      if is_line_feed c then reverse line :: lines_of r EmptyString
      else lines_of r (String c line)
  end.

Definition ends_with_line_feed (s : string) : bool :=
  match s with
  | EmptyString => false
  | String c _ => is_line_feed (last_char s c)
  end.

Definition dropEndingNewline (s : string) : string :=
  if ends_with_line_feed s then substring 0 (String.length s - 1) s else s.

(** The text starts with a space, after line feeds. *)
Definition needIndentIndicator (s : string) : bool :=
  match snd (span is_line_feed s) with
  | String " " _ => true
  | _ => false
  end.

(** The header of a literal block, without its line feed. *)
Definition blockHeader (s : string) : string :=
  let clip := ends_with_line_feed s in
  let keep := clip && (ends_with_line_feed (dropEndingNewline s) || String.eqb s nl) in
  (if needIndentIndicator s then "2" else "") ++
  (if keep then "+" else if clip then "" else "-").

(** The lines of a string scalar; the lines after the first are those of a
    literal block, which the enclosing node indents. *)
Definition writeScalar (s : string) (iskey : bool) : list string :=
  if (String.length s =? 0)%nat then ["''"]
  else if mem s DEPRECATED_BOOLEANS_SYNTAX || DEPRECATED_BASE60_SYNTAX s
  then ["'" ++ s ++ "'"]
  else
    match chooseScalarStyle s iskey with
    | STYLE_PLAIN => [s]
    | STYLE_SINGLE => ["'" ++ escape_single s ++ "'"]
    | STYLE_LITERAL => ("|" ++ blockHeader s) :: lines_of (dropEndingNewline s) EmptyString
    | STYLE_DOUBLE => [String dquote (escapeString s ++ String dquote EmptyString)]
    end.

Definition yaml_string (s : string) : string := String.concat nl (writeScalar s true).

Definition is_undefined (v : jsval) : bool :=
  match v with VUndefined => true | _ => false end.

(** The node is written as a block collection: a non-empty sequence, or a
    mapping with at least one written pair. *)
Definition is_block (v : jsval) : bool :=
  match v with
  | VArr items => (0 <? List.length items)%nat
  | VObj _ own => existsb (fun kv => negb (is_undefined (snd kv))) own
  | _ => false
  end.

(** The lines of a literal block are indented, its empty lines are not. *)
Definition indent (line : string) : string :=
  if (String.length line =? 0)%nat then line else "  " ++ line.

(** The node after a mark on the same line, its further lines indented. *)
Definition after (mark : string) (ls : list string) : list string :=
  match ls with
  | [] => [mark]
  | l :: r => (mark ++ " " ++ l) :: map indent r
  end.

Definition dash (ls : list string) : list string := after "-" ls.

(** A pair of a mapping: a block collection starts on the next line, a key
    of more than 1024 characters is written as an explicit key. *)
Definition pair_lines (k : string) (v : jsval) (ls : list string) : list string :=
  let key := yaml_string k in
  if (1024 <? String.length key)%nat then ("? " ++ key) :: after ":" ls
  else if is_block v then (key ++ ":") :: map indent ls
  else after (key ++ ":") ls.

(** The lines of a node; inside a sequence [undefined] is written as [null],
    inside a mapping a pair with an [undefined] value is skipped. *)
Fixpoint node_lines (v : jsval) : list string :=
  match v with
  | VUndefined | VNull => ["null"]
  | VBool true => ["true"]
  | VBool false => ["false"]
  | VNum n => [yaml_number n]
  | VFloat x => [yaml_float x]
  | VStr s => writeScalar s false
  | VArr items =>
      if (0 <? List.length items)%nat
      then flat_map (fun item => dash (node_lines item)) items
      else ["[]"]
  | VObj _ own =>
      if existsb (fun kv => negb (is_undefined (snd kv))) own
      then flat_map
             (fun kv =>
                if is_undefined (snd kv) then []
                else pair_lines (fst kv) (snd kv) (node_lines (snd kv)))
             own
      else ["{}"]
  | VFun => []
  end.

Definition yaml_text (v : jsval) : string :=
  match v with
  | VUndefined => ""
  | VStr _ =>
      match node_lines v with
      | [] => nl
      | l :: r => String.concat nl (l :: map indent r) ++ nl
      end
  | _ => String.concat nl (node_lines v) ++ nl
  end.

(** The tree holds a function, as an element or as the value of a
    property at some depth. *)
Fixpoint has_function (v : jsval) : bool :=
  match v with
  | VFun => true
  | VArr items => existsb has_function items
  | VObj _ own => existsb (fun kv => has_function (snd kv)) own
  | _ => false
  end.

(** The printer, as the serializer calls it. *)
Definition yaml_dump (v : jsval) : result string :=
  if has_function v
  then Err (YAMLException "unacceptable kind of an object to dump [object Function]")
  else Ok (yaml_text v).

(** ** Predicates used to state the properties *)

(** A tree left by pruning: no [null] or [undefined] and no empty array or
    object at any depth below the root. *)
Fixpoint clean (v : jsval) : bool :=
  match v with
  | VUndefined | VNull => false
  | VArr items => (0 <? List.length items)%nat && forallb clean items
  | VObj _ own => (0 <? List.length own)%nat && forallb (fun kv => clean (snd kv)) own
  | _ => true
  end.





(** The tree contains a deferred value at some depth. *)
Fixpoint has_deferred (v : jsval) : bool :=
  isPulumiOutput v ||
  match v with
  | VArr items => existsb has_deferred items
  | VObj _ own => existsb (fun kv => has_deferred (snd kv)) own
  | _ => false
  end.

Definition is_ValidationError (e : exn) : bool :=
  match e with
  | ValidationError _ _ _ => true
  | _ => false
  end.

(** The loop of [removeEmpty] over the own properties, from an accumulator. *)
Definition prune_step (result : list (string * jsval)) (kv : string * jsval) :=
  let filteredValue := removeEmpty (snd kv) in
  if defined filteredValue then obj_set (fst kv) filteredValue result else result.

(** The loop of [transformKeys] over the own properties. *)
Definition rename_step (result : list (string * jsval)) (kv : string * jsval) :=
  obj_set (camelToSnake (fst kv)) (transformKeys (snd kv)) result.

(** The env list holds an entry with the key. *)
Definition has_key (key : string) (l : list EnvironmentVariable.t) : bool :=
  existsb (fun e => String.eqb (EnvironmentVariable.key e) key) l.

Definition unlines (ls : list string) : string :=
  String.concat "" (map (fun l => l ++ nl) ls).

(** [new Service({ name: 'rest', instanceSizeSlug: 'professional-xs',
    instanceCount: 1 })] *)
Definition minimal_config : Service.Config.t :=
  Service.Config.mk (VStr "rest") (VStr "professional-xs") (VNum 1)
    VUndefined VUndefined None VUndefined None None None.

(** The configuration entities behind their common [Serializable]
    interface. *)
Inductive EntityKind : Type :=
| KEnvironmentVariable | KHealthCheck | KDockerImage | KGitHubSource | KVolumeMount.

Inductive Entity : Type :=
| AnEnvironmentVariable (e : EnvironmentVariable.t)
| AHealthCheck (h : HealthCheck.t)
| ADockerImage (d : DockerImage.t)
| AGitHubSource (g : GitHubSource.t)
| AVolumeMount (m : VolumeMount.t).

Definition construct (k : EntityKind) (config : jsval) : result Entity :=
  match k with
  | KEnvironmentVariable => e <- EnvironmentVariable.new config ;; Ok (AnEnvironmentVariable e)
  | KHealthCheck => h <- HealthCheck.new config ;; Ok (AHealthCheck h)
  | KDockerImage => d <- DockerImage.new config ;; Ok (ADockerImage d)
  | KGitHubSource => g <- GitHubSource.new config ;; Ok (AGitHubSource g)
  | KVolumeMount => m <- VolumeMount.new config ;; Ok (AVolumeMount m)
  end.

Definition Entity_toJSON (e : Entity) : jsval :=
  match e with
  | AnEnvironmentVariable e => EnvironmentVariable.toJSON e
  | AHealthCheck h => HealthCheck.toJSON h
  | ADockerImage d => DockerImage.toJSON d
  | AGitHubSource g => GitHubSource.toJSON g
  | AVolumeMount m => VolumeMount.toJSON m
  end.

(** [undefined], the empty string or a string of white space only. *)
Definition absent_or_blank (v : jsval) : bool :=
  match v with
  | VUndefined => true
  | VStr s => negb (nonblank s)
  | _ => false
  end.

(** A deferred value: a handle whose [isSecret] and [then] are reached
    through the prototype chain, holding its own [value]. *)
Definition deferred_handle (inner : jsval) : jsval :=
  VObj ["isSecret"; "then"] [("value", inner)].

(** What the schemas guarantee of a constructed entity. *)
Definition EnvironmentVariable_valid (e : EnvironmentVariable.t) : bool :=
  nonblank (EnvironmentVariable.key e) && defined (EnvironmentVariable.value e) &&
  mem (EnvironmentVariable.type e) ["GENERAL"; "SECRET"] &&
  mem (EnvironmentVariable.scope e) ["RUN_TIME"; "BUILD_TIME"; "DEPLOY_TIME"].

Definition HealthCheck_valid (h : HealthCheck.t) : bool :=
  nonblank (HealthCheck.httpPath h) &&
  (1 <=? HealthCheck.port h) && (HealthCheck.port h <=? 65535) &&
  (0 <=? HealthCheck.initialDelaySeconds h) &&
  (1 <=? HealthCheck.periodSeconds h) &&
  (1 <=? HealthCheck.timeoutSeconds h) &&
  (1 <=? HealthCheck.successThreshold h) &&
  (1 <=? HealthCheck.failureThreshold h).

Definition DockerImage_valid (d : DockerImage.t) : bool :=
  mem (DockerImage.registryType d) ["DOCKER_HUB"; "DOCR"; "GHCR"] &&
  match DockerImage.registry d with Some r => nonblank r | None => true end &&
  nonblank (DockerImage.repository d) && nonblank (DockerImage.tag d) &&
  DockerImage.docr_rule d.

Definition GitHubSource_valid (g : GitHubSource.t) : bool :=
  GITHUB_REPO_PATTERN (GitHubSource.repo g) && nonblank (GitHubSource.branch g) &&
  nonblank (GitHubSource.dockerfilePath g).

Definition VolumeMount_valid (m : VolumeMount.t) : bool :=
  nonblank (VolumeMount.name m) && startsWith "/" (VolumeMount.mountPath m) &&
  (1 <=? String.length (VolumeMount.size m))%nat.

(** The issue a non-blank check leaves at field [k]. *)
Definition blank_issue (k msg : string) (s : string) : list ZodIssue :=
  if nonblank s then [] else [mkIssue "custom" [k] msg None].

(** The issues of [DockerImageSchema] on an input whose fields have the
    types the constructor declares. *)
Definition DockerImage_issues (d : DockerImage.t) : list ZodIssue :=
  (match DockerImage.registry d with
   | Some r => blank_issue "registry" "Registry must be non-empty when specified" r
   | None => []
   end ++
   blank_issue "repository" "Repository must be non-empty" (DockerImage.repository d) ++
   blank_issue "tag" "Tag must be non-empty" (DockerImage.tag d) ++
   (if DockerImage.docr_rule d then []
    else [mkIssue "custom" ["registry"]
            "DOCR registry type requires non-empty registry field" None]))%list.

(** The issue that a number which is not an integer leaves at path [k]:
    NaN is no number for [z.number()], any other is no integer for
    [.int()]. *)
Definition not_integer_issue (k : list string) (x : nonInteger) : ZodIssue :=
  match x with
  | NaN => mkIssue "invalid_type" k "Expected number, received nan" (Some (VStr "nan"))
  | _ => mkIssue "invalid_type" k "Expected integer, received float"
           (Some (VStr "float"))
  end.

(** The [registry] property of a well-typed input. *)
Definition registry_input (r : option string) : jsval :=
  match r with
  | Some s => VStr s
  | None => VUndefined
  end.

(** ** Sample inputs *)

Definition sample_env_port : EnvironmentVariable.t :=
  EnvironmentVariable.mk "PORT" (VStr "3000") "GENERAL" "RUN_TIME".

Definition sample_env_port_again : EnvironmentVariable.t :=
  EnvironmentVariable.mk "PORT" (VStr "8080") "GENERAL" "RUN_TIME".

Definition sample_env_host : EnvironmentVariable.t :=
  EnvironmentVariable.mk "HOST" (VStr "localhost") "GENERAL" "RUN_TIME".

Definition sample_service : Service.t :=
  Service.mk (AppPlatformResource.mk "rest" [sample_env_port])
    "professional-xs" 1 None None None None None None.

Definition sample_deferred_tree : jsval :=
  literal [("name", VStr "rest");
           ("envs", VArr [literal [("key", VStr "DATABASE_URL");
                                   ("value", deferred_handle (VStr "postgres"))]])].

(** A deferred value that owns nothing: [isSecret] and [then] are both
    inherited. *)
Definition sample_bare_tree : jsval :=
  literal [("name", VStr "rest"); ("value", VObj ["isSecret"; "then"] [])].

(** A deferred value whose [then] is a function of its own. *)
Definition sample_thenable_tree : jsval :=
  literal [("name", VStr "rest");
           ("envs", VArr [literal [("key", VStr "DATABASE_URL");
                                   ("value", literal [("isSecret", VBool false);
                                                      ("then", VFun)])]])].

Definition sample_plain_tree : jsval :=
  literal [("name", VStr "rest"); ("instanceCount", VNum 1);
           ("httpPort", VUndefined); ("envs", VArr [])].

Definition sample_docr_config : jsval :=
  literal [("registryType", VStr "DOCR"); ("registry", VStr "   ");
           ("repository", VStr "postgrest"); ("tag", VStr "v14.2")].

Definition sample_hub_config : jsval :=
  literal [("registryType", VStr "DOCKER_HUB");
           ("repository", VStr "postgrest"); ("tag", VStr "v14.2")].

Definition sample_null_value_config : jsval :=
  literal [("key", VStr "TEST_VAR"); ("value", VNull)].

Definition sample_zero_value_config : jsval :=
  literal [("key", VStr "TEST_VAR"); ("value", VNum 0)].

Definition sample_health_config : jsval :=
  literal [("httpPath", VStr "/"); ("port", VNum 3000)].

(** [{ httpPath: '/', port: 80.5 }] *)
Definition sample_fraction_config : jsval :=
  literal [("httpPath", VStr "/"); ("port", VFloat (Fraction 80 1))].

(** ** Further predicates *)

(** The keys of an env list, in order. *)
Definition env_keys (l : list EnvironmentVariable.t) : list string :=
  map EnvironmentVariable.key l.

(** Every key of every object of the tree is free of uppercase letters. *)
Fixpoint lower_keys (v : jsval) : bool :=
  match v with
  | VArr items => forallb lower_keys items
  | VObj _ own =>
      forallb (fun kv => all_chars (fun c => negb (is_upper c)) (fst kv) &&
                         lower_keys (snd kv)) own
  | _ => true
  end.

(** The value a schema with a default parses: the default when the property
    is [undefined] or missing, the property's value otherwise. *)
Definition given_or (d v : jsval) : jsval :=
  match v with
  | VUndefined => d
  | _ => v
  end.

(** An optional property of a well-typed input: [undefined] when unset. *)
Definition optional_input {A} (f : A -> jsval) (field : option A) : jsval :=
  match field with
  | Some a => f a
  | None => VUndefined
  end.

(** A port number. *)
Definition in_port_range (p : Z) : bool := (1 <=? p) && (p <=? 65535).

(** The own properties of an object, and one of them by name. *)
Definition own_props (v : jsval) : list (string * jsval) :=
  match v with
  | VObj _ own => own
  | _ => []
  end.

Definition own_prop (k : string) (v : jsval) : option jsval := lookup k (own_props v).

(** The key of an optional field, when the field is set. *)
Definition present {A} (k : string) (field : option A) : list string :=
  match field with
  | Some _ => [k]
  | None => []
  end.

Definition sample_resource : AppPlatformResource.t :=
  AppPlatformResource.mk "rest" [sample_env_port; sample_env_host].

Definition sample_resolved : list (jsval * jsval) :=
  [(deferred_handle (VStr "postgres"), VStr "postgres")].

Definition sample_github_config : jsval :=
  literal [("repo", VStr "owner/repo"); ("branch", VStr "main")].

Definition sample_volume_config : jsval :=
  literal [("name", VStr "data"); ("mountPath", VStr "/data")].

(** [instanceCount: 1.5] *)
Definition sample_fraction_service_config : Service.Config.t :=
  Service.Config.mk (VStr "rest") (VStr "professional-xs") (VFloat (Fraction 1 1))
    VUndefined VUndefined None VUndefined None None None.

Definition sample_fraction_job_config : Job.Config.t :=
  Job.Config.mk (VStr "migrate") (VStr "PRE_DEPLOY") (VStr "npm run migrate")
    VUndefined (VFloat (Fraction 1 1)) None None.

(** [internalPorts: [9090, 80.5]] *)
Definition sample_fraction_worker_config : Worker.Config.t :=
  Worker.Config.mk (VStr "queue") (VStr "basic-xxs") (VNum 2)
    (VArr [VNum 9090; VFloat (Fraction 80 1)]) VUndefined None None None.

Definition sample_job_config : Job.Config.t :=
  Job.Config.mk (VStr "migrate") (VStr "PRE_DEPLOY") (VStr "npm run migrate")
    VUndefined VUndefined None None.

Definition sample_worker_config : Worker.Config.t :=
  Worker.Config.mk (VStr "queue") (VStr "basic-xxs") (VNum 2)
    (ports [9090]) VUndefined None None (Some [sample_env_port]).

(** * Properties *)

(** ** Objects *)

Lemma keys_obj_set k v o k' :
  In k' (keys (obj_set k v o)) <-> k' = k \/ In k' (keys o).
Proof.
  induction o as [|[k0 v0] r IH]; simpl.
  - intuition.
  - destruct (String.eqb_spec k k0) as [->|Hne]; simpl.
    + intuition.
    + rewrite IH. intuition.
Qed.

Lemma Forall_obj_set (P : jsval -> Prop) k v o :
  P v -> Forall (fun kv => P (snd kv)) o ->
  Forall (fun kv => P (snd kv)) (obj_set k v o).
Proof.
  intros Hv Ho. induction Ho as [|[k0 v0] r H0 Hr IH]; simpl.
  - constructor; [exact Hv | constructor].
  - destruct (String.eqb k k0); constructor; simpl; auto.
Qed.


Lemma length_positive {A} (l : list A) : (0 <? List.length l)%nat = true <-> l <> [].
Proof.
  destruct l; simpl; split; intros; try discriminate; try congruence; reflexivity.
Qed.

(** ** Emptiness pruning *)

Lemma removeEmpty_obj proto own :
  removeEmpty (VObj proto own) =
  let result := fold_left prune_step own [] in
  if (0 <? List.length (keys result))%nat then VObj [] result else VUndefined.
Proof. reflexivity. Qed.

Lemma prune_keys own : forall acc k,
  In k (keys (fold_left prune_step own acc)) <->
  In k (keys acc) \/ exists v, In (k, v) own /\ defined (removeEmpty v) = true.
Proof.
  induction own as [|[k0 v0] r IH]; intros acc k; simpl.
  - split; [auto | intros [H|[v [[] _]]]; exact H].
  - rewrite IH. unfold prune_step; simpl.
    destruct (defined (removeEmpty v0)) eqn:Hd.
    + rewrite keys_obj_set. split.
      * intros [[->|H]|[v [Hin Hv]]]; eauto 6.
      * intros [H|[v [[Heq|Hin] Hv]]]; eauto.
        inversion Heq; subst; auto.
    + split.
      * intros [H|[v [Hin Hv]]]; eauto 6.
      * intros [H|[v [[Heq|Hin] Hv]]]; eauto.
        inversion Heq; subst; congruence.
Qed.

Lemma prune_clean own :
  Forall (fun kv => removeEmpty (snd kv) = VUndefined \/ clean (removeEmpty (snd kv)) = true) own ->
  forall acc, Forall (fun kv => clean (snd kv) = true) acc ->
  Forall (fun kv => clean (snd kv) = true) (fold_left prune_step own acc).
Proof.
  induction 1 as [|[k0 v0] r H0 Hr IH]; intros acc Hacc; simpl.
  - exact Hacc.
  - apply IH. unfold prune_step; simpl. simpl in H0.
    destruct H0 as [-> | Hc]; simpl.
    + exact Hacc.
    + destruct (defined (removeEmpty v0)); [|exact Hacc].
      apply (Forall_obj_set (fun v => clean v = true)); assumption.
Qed.

Lemma removeEmpty_clean v : removeEmpty v = VUndefined \/ clean (removeEmpty v) = true.
Proof.
  induction v as [| |b|n|x|s|items IH|proto own IH|] using jsval_ind; simpl; auto.
  - destruct (0 <? List.length (filter defined (map removeEmpty items)))%nat eqn:Hlen; auto.
    right. simpl. rewrite Hlen. simpl.
    apply forallb_forall. intros x Hx.
    apply filter_In in Hx. destruct Hx as [Hx Hdef].
    apply in_map_iff in Hx. destruct Hx as [y [<- Hy]].
    rewrite Forall_forall in IH. destruct (IH y Hy) as [Hu|Hc]; [|exact Hc].
    rewrite Hu in Hdef. discriminate.
  - change (removeEmpty (VObj proto own) = VUndefined \/
            clean (removeEmpty (VObj proto own)) = true).
    rewrite removeEmpty_obj. cbv zeta.
    assert (Hc : Forall (fun kv => clean (snd kv) = true) (fold_left prune_step own []))
      by (apply prune_clean; [exact IH | constructor]).
    unfold keys. rewrite length_map.
    destruct (fold_left prune_step own []) as [|kv kept] eqn:Hkept; simpl; auto.
    right. apply andb_true_intro. inversion Hc; subst. split; [assumption|].
    apply forallb_forall. apply Forall_forall. assumption.
Qed.


(** ** Key renaming *)



Lemma toLowerCase_not_upper c : is_upper (toLowerCase c) = false.
Proof.
  destruct c as [[] [] [] [] [] [] [] []]; vm_compute; reflexivity.
Qed.

Lemma camelToSnake_no_upper s :
  all_chars (fun c => negb (is_upper c)) (camelToSnake s) = true.
Proof.
  induction s as [|c r IH]; simpl.
  - reflexivity.
  - destruct (is_upper c) eqn:Hc; simpl.
    + rewrite toLowerCase_not_upper. simpl. exact IH.
    + rewrite Hc. simpl. exact IH.
Qed.


Lemma transformKeys_obj proto own :
  transformKeys (VObj proto own) = VObj [] (fold_left rename_step own []).
Proof. reflexivity. Qed.

Lemma rename_keys own : forall acc k',
  In k' (keys (fold_left rename_step own acc)) <->
  In k' (keys acc) \/ exists k, In k (keys own) /\ k' = camelToSnake k.
Proof.
  induction own as [|[k0 v0] r IH]; intros acc k'; simpl.
  - split; [auto | intros [H|[k [[] _]]]; exact H].
  - rewrite IH. unfold rename_step; simpl. rewrite keys_obj_set. split.
    + intros [[->|H]|[k [Hin ->]]]; eauto 6.
    + intros [H|[k [[<-|Hin] ->]]]; eauto.
Qed.



(** ** Deferred values and the two serializers *)

Lemma extract_fold_app (f : jsval -> list OutputRef -> list OutputRef) items :
  Forall (fun x => forall acc, f x acc = (acc ++ f x [])%list) items ->
  forall acc,
    fold_left (fun outputs item => f item outputs) items acc =
    (acc ++ fold_left (fun outputs item => f item outputs) items [])%list.
Proof.
  induction 1 as [|x r Hx Hr IH]; intros acc; simpl.
  - symmetry. apply app_nil_r.
  - rewrite IH. rewrite (IH (f x [])). rewrite Hx. symmetry. apply app_assoc.
Qed.

Lemma extract_own_as_items own acc :
  fold_left (fun outputs (kv : string * jsval) => extractPulumiOutputs (snd kv) outputs)
    own acc =
  fold_left (fun outputs item => extractPulumiOutputs item outputs) (map snd own) acc.
Proof.
  revert acc. induction own as [|kv r IH]; intros acc; simpl; [reflexivity | apply IH].
Qed.

Lemma extract_app v : forall acc,
  extractPulumiOutputs v acc = (acc ++ extractPulumiOutputs v [])%list.
Proof.
  induction v as [| |b|n|x|s|items IH|proto own IH|] using jsval_ind; intros acc;
    try (simpl; symmetry; apply app_nil_r).
  - simpl. apply (extract_fold_app extractPulumiOutputs). exact IH.
  - cbn [extractPulumiOutputs].
    destruct (isPulumiOutput (VObj proto own)); [reflexivity|].
    rewrite !extract_own_as_items.
    apply (extract_fold_app extractPulumiOutputs).
    apply Forall_map. exact IH.
Qed.

Lemma extract_items items :
  Forall (fun x => extractPulumiOutputs x [] = [] <-> has_deferred x = false) items ->
  fold_left (fun outputs item => extractPulumiOutputs item outputs) items [] = [] <->
  existsb has_deferred items = false.
Proof.
  induction 1 as [|x r Hx Hr IH]; simpl.
  - tauto.
  - rewrite (extract_fold_app extractPulumiOutputs)
      by (apply Forall_forall; intros; apply extract_app).
    rewrite orb_false_iff, <- Hx, <- IH. split.
    + intros Happ. apply app_eq_nil in Happ. exact Happ.
    + intros [-> ->]. reflexivity.
Qed.

Lemma extract_nil_iff v :
  extractPulumiOutputs v [] = [] <-> has_deferred v = false.
Proof.
  induction v as [| |b|n|x|s|items IH|proto own IH|] using jsval_ind;
    try (simpl; tauto).
  - simpl. apply extract_items. exact IH.
  - cbn [extractPulumiOutputs has_deferred].
    destruct (isPulumiOutput (VObj proto own)); simpl.
    + split; discriminate.
    + rewrite extract_own_as_items.
      rewrite extract_items by (apply Forall_map; exact IH).
      assert (Hmap : existsb has_deferred (map snd own) =
                     existsb (fun kv : string * jsval => has_deferred (snd kv)) own)
        by (clear; induction own as [|kv r IHr]; simpl; [|rewrite IHr]; reflexivity).
      rewrite Hmap. tauto.
Qed.

Lemma no_outputs_iff v :
  (0 <? List.length (extractPulumiOutputs v []))%nat = has_deferred v.
Proof.
  destruct (has_deferred v) eqn:Hd.
  - apply length_positive. intros Hnil. apply extract_nil_iff in Hnil. congruence.
  - apply extract_nil_iff in Hd. rewrite Hd. reflexivity.
Qed.

(** C9. On a tree without a deferred value at any depth the asynchronous
    serializer settles to exactly what the synchronous one returns, whatever
    the printer and whether or not a resolution backend is installed. *)
Theorem C9_toYAML_equals_toYAMLSync
  (dump : jsval -> result string)
  (pulumi : option (list jsval -> result (list jsval)))
  (same : nat -> nat -> bool)
  (obj : jsval) :
  has_deferred obj = false ->
  toYAML dump pulumi same obj = toYAMLSync dump obj.
Proof.
  intros Hfree. unfold toYAML, toYAMLSync.
  rewrite no_outputs_iff, Hfree. reflexivity.
Qed.

(** C7. On a tree with a deferred value and without a resolution backend the
    asynchronous serializer swallows the failed import and settles to what
    the printer makes of the pruned and renamed, unresolved tree, while the
    synchronous serializer raises an error.  With the YAML printer the
    outcome is a text unless a function is left in the tree, in which case
    it is the printer's exception.  In the text a deferred value is written
    like the plain object with the same own properties: the handle of the
    sample tree as the mapping of its [value], a handle that owns nothing
    not at all. *)
Theorem C7_soft_fail_versus_error :
  (forall dump same obj,
     has_deferred obj = true ->
     toYAML dump None same obj = dump (transformKeys (removeEmpty obj))
     /\ toYAMLSync dump obj =
          Err (Error "Pulumi Outputs found. Use async toYAML() instead to resolve them."))
  /\ (forall same obj,
        has_deferred obj = true ->
        toYAML yaml_dump None same obj =
        if has_function (transformKeys (removeEmpty obj))
        then Err (YAMLException
                    "unacceptable kind of an object to dump [object Function]")
        else Ok (yaml_text (transformKeys (removeEmpty obj))))
  /\ (forall proto own,
        transformKeys (removeEmpty (VObj proto own)) =
        transformKeys (removeEmpty (literal own)))
  /\ (forall same,
        toYAML yaml_dump None same sample_deferred_tree =
        Ok (unlines ["name: rest"; "envs:"; "  - key: DATABASE_URL";
                     "    value:"; "      value: postgres"]))
  /\ (forall same,
        has_deferred sample_bare_tree = true
        /\ toYAML yaml_dump None same sample_bare_tree = Ok (unlines ["name: rest"])).
Proof.
  split; [|split; [|split; [|split]]].
  - intros dump same obj Hdef. unfold toYAML, toYAMLSync.
    rewrite no_outputs_iff, Hdef. split; reflexivity.
  - intros same obj Hdef. unfold toYAML.
    rewrite no_outputs_iff, Hdef. reflexivity.
  - reflexivity.
  - intros same. reflexivity.
  - intros same. split; reflexivity.
Qed.

(** The claim that the asynchronous serializer always completes with a
    text: a deferred value whose [then] is a function of its own is left in
    the tree, and the printer throws on it. *)
Lemma C7_counterexample :
  ~ (forall obj,
       has_deferred obj = true ->
       exists text, toYAML yaml_dump None Nat.eqb obj = Ok text).
Proof.
  intros Hclaim. destruct (Hclaim sample_thenable_tree eq_refl) as [text Htext].
  vm_compute in Htext. discriminate.
Qed.

(** ** The minimal service *)

(** C1. The minimal service [{name: rest, instanceSizeSlug:
    professional-xs, instanceCount: 1}] is constructed, its JSON projection
    carries [envs: []], pruning drops that empty list, and the YAML text is
    the three lines [name], [instance_size_slug], [instance_count] with no
    [envs] line, with or without a resolution backend. *)
Theorem C1_minimal_service_yaml :
  exists svc,
    Service.new minimal_config = Ok svc
    /\ toJSON svc =
         literal [("name", VStr "rest"); ("instanceSizeSlug", VStr "professional-xs");
                  ("instanceCount", VNum 1); ("envs", VArr [])]
    /\ removeEmpty (toJSON svc) =
         literal [("name", VStr "rest"); ("instanceSizeSlug", VStr "professional-xs");
                  ("instanceCount", VNum 1)]
    /\ (forall pulumi same,
          resource_toYAML yaml_dump pulumi same svc =
          Ok (unlines ["name: rest"; "instance_size_slug: professional-xs";
                       "instance_count: 1"]))
    /\ yaml_dump (transformKeys (toJSON svc)) =
         Ok (unlines ["name: rest"; "instance_size_slug: professional-xs";
                      "instance_count: 1"; "envs: []"]).
Proof.
  eexists. split; [reflexivity|]. repeat split.
Qed.

(** The text the specification gives for the minimal service, with an
    [envs: []] line, is not what [toYAML] returns. *)
Lemma C1_counterexample :
  ~ (forall svc,
       Service.new minimal_config = Ok svc ->
       resource_toYAML yaml_dump None Nat.eqb svc =
       Ok (unlines ["name: rest"; "instance_size_slug: professional-xs";
                    "instance_count: 1"; "envs: []"])).
Proof.
  intros Hclaim. specialize (Hclaim _ eq_refl). vm_compute in Hclaim. discriminate.
Qed.

(** ** Environment variables of an aggregate *)

Lemma findIndex_has_key key l :
  AppPlatformResource.findIndex key l = None <-> has_key key l = false.
Proof.
  induction l as [|e r IH]; simpl.
  - tauto.
  - destruct (String.eqb (EnvironmentVariable.key e) key); simpl.
    + split; discriminate.
    + rewrite <- IH. destruct (AppPlatformResource.findIndex key r); simpl;
        split; congruence.
Qed.

Lemma has_key_In key l :
  has_key key l = true <-> exists e, In e l /\ EnvironmentVariable.key e = key.
Proof.
  unfold has_key. rewrite existsb_exists.
  split; intros [e [Hin He]]; exists e; split; auto; apply String.eqb_eq; exact He.
Qed.

Lemma addEnv_collision {A} `{Extends A} (env : EnvironmentVariable.t) (this : A) :
  has_key (EnvironmentVariable.key env) (listEnvs this) = true ->
  addEnv env this =
  (Err (ZodError
          [mkIssue "custom" ["key"]
             ("Environment variable with key " ++
              quoted (EnvironmentVariable.key env) ++ " already exists") None]),
   this).
Proof.
  intros Hk. unfold addEnv, AppPlatformResource.addEnv, listEnvs,
    AppPlatformResource.listEnvs in *.
  destruct (AppPlatformResource.findIndex (EnvironmentVariable.key env)
              (AppPlatformResource.envs (super this))) eqn:Hf.
  - rewrite with_super_super. reflexivity.
  - apply findIndex_has_key in Hf. congruence.
Qed.

Lemma addEnv_fresh {A} `{Extends A} (env : EnvironmentVariable.t) (this : A) :
  has_key (EnvironmentVariable.key env) (listEnvs this) = false ->
  fst (addEnv env this) = Ok tt
  /\ listEnvs (snd (addEnv env this)) = (listEnvs this ++ [env])%list.
Proof.
  intros Hk. apply findIndex_has_key in Hk.
  unfold addEnv, AppPlatformResource.addEnv, listEnvs,
    AppPlatformResource.listEnvs in *.
  rewrite Hk. simpl. rewrite super_with_super. split; reflexivity.
Qed.

(** C2. For a Service, a Job or a Worker (any class that extends the
    base): when the env list already holds an entry with the key of the new
    variable, [addEnv] throws an error whose single issue has the path
    [key] and the aggregate, hence its env list, is what it was before the
    call; when no entry has that key, [addEnv] succeeds and the env list is
    the old one with the new entry appended. *)
Theorem C2_addEnv_unique_keys {A : Type} `{Extends A}
  (env : EnvironmentVariable.t) (this : A) :
  ((exists e, In e (listEnvs this)
              /\ EnvironmentVariable.key e = EnvironmentVariable.key env) ->
   exists issue,
     addEnv env this = (Err (ZodError [issue]), this)
     /\ path issue = ["key"]
     /\ listEnvs (snd (addEnv env this)) = listEnvs this)
  /\
  ((forall e, In e (listEnvs this) ->
              EnvironmentVariable.key e <> EnvironmentVariable.key env) ->
   fst (addEnv env this) = Ok tt
   /\ listEnvs (snd (addEnv env this)) = (listEnvs this ++ [env])%list).
Proof.
  split.
  - intros Hex. apply has_key_In in Hex.
    eexists. rewrite (addEnv_collision _ _ Hex). repeat split.
  - intros Hfresh. apply addEnv_fresh.
    destruct (has_key (EnvironmentVariable.key env) (listEnvs this)) eqn:Hk;
      [|reflexivity].
    apply has_key_In in Hk. destruct Hk as [e [Hin He]].
    exfalso. exact (Hfresh e Hin He).
Qed.

(** ** The validation library: when parsing succeeds *)

Arguments nonblank : simpl never.
Arguments GITHUB_REPO_PATTERN : simpl never.
Arguments startsWith : simpl never.
Arguments mem : simpl never.

Lemma parse_Ok {A} (t : ZodType A) v a : parse t v = Ok a <-> t v = OK a.
Proof.
  unfold parse, OK. destruct (t v) as [[|i errs] [x|]]; split; intros Heq;
    try discriminate; congruence.
Qed.

Lemma parse_Err {A} (t : ZodType A) v e :
  parse t v = Err e -> e = ZodError (issues_of (t v)).
Proof.
  unfold parse. destruct (t v) as [[|i errs] [x|]]; simpl; intros Heq;
    try discriminate; congruence.
Qed.

Lemma ap_OK {A B} (f : ParseReturn (A -> B)) (x : ParseReturn A) b :
  f <*> x = OK b -> exists g a, f = OK g /\ x = OK a /\ b = g a.
Proof.
  destruct f as [fi fo], x as [xi xo]. unfold ap, OK; simpl. intros Heq.
  injection Heq as Hi Ho. apply app_eq_nil in Hi. destruct Hi as [-> ->].
  destruct fo as [g|]; [|discriminate]. destruct xo as [a|]; [|discriminate].
  exists g, a. repeat split. congruence.
Qed.

Lemma at_key_OK {A} k (r : ParseReturn A) a : at_key k r = OK a -> r = OK a.
Proof.
  destruct r as [errs o]. unfold at_key, OK; simpl. intros Heq.
  injection Heq as Hi Ho. destruct errs; [|discriminate]. congruence.
Qed.

Lemma prop_OK {A} k (t : ZodType A) data a :
  prop k t data = OK a -> t (get_prop k data) = OK a.
Proof. apply at_key_OK. Qed.

Lemma check_OK {A} c (p : A -> bool) msg (t : ZodType A) v a :
  check c p msg t v = OK a -> t v = OK a /\ p a = true.
Proof.
  unfold check, OK. destruct (t v) as [errs [x|]]; [|discriminate].
  destruct (p x) eqn:Hp; intros Heq; injection Heq as Hi Ho.
  - subst. split; [reflexivity | exact Hp].
  - destruct errs; discriminate.
Qed.

Lemma refine_at_OK {A} (p : A -> bool) msg pth (t : ZodType A) v a :
  refine_at p msg pth t v = OK a -> t v = OK a /\ p a = true.
Proof.
  unfold refine_at, OK. destruct (t v) as [errs [x|]]; [|discriminate].
  destruct (p x) eqn:Hp; intros Heq; injection Heq as Hi Ho.
  - subst. split; [reflexivity | exact Hp].
  - destruct errs; discriminate.
Qed.

Lemma z_object_OK {A} (shape : jsval -> ParseReturn A) v a :
  z_object shape v = OK a -> shape v = OK a.
Proof. destruct v; simpl; intros Heq; try discriminate. exact Heq. Qed.

Lemma z_string_OK v s : z_string v = OK s -> v = VStr s.
Proof. destruct v; simpl; intros Heq; try discriminate. injection Heq as ->. reflexivity. Qed.

Lemma z_number_OK v n : z_number v = OK (Integer n) -> v = VNum n.
Proof.
  destruct v as [| | | |[| |]| | | |]; simpl; intros Heq; try discriminate.
  injection Heq as ->. reflexivity.
Qed.

Lemma z_int_OK (t : ZodType number) v x :
  z_int t v = OK x -> t v = OK x /\ isInteger x = true.
Proof.
  unfold z_int, OK. destruct (t v) as [errs [y|]]; [|discriminate].
  destruct (isInteger y) eqn:Hy; intros Heq; injection Heq as Hi Ho.
  - subst. split; [reflexivity | exact Hy].
  - destruct errs; discriminate.
Qed.

Lemma integer_OK (t : ZodType number) v n :
  integer t v = OK n -> t v = OK (Integer n).
Proof.
  unfold integer, OK. destruct (t v) as [errs [[m|x]|]]; simpl; intros Heq;
    try discriminate.
  injection Heq as -> ->. reflexivity.
Qed.

Lemma z_boolean_OK v b : z_boolean v = OK b -> v = VBool b.
Proof. destruct v; simpl; intros Heq; try discriminate. injection Heq as ->. reflexivity. Qed.

Lemma z_enum_OK options v s :
  z_enum options v = OK s -> v = VStr s /\ mem s options = true.
Proof.
  destruct v; simpl; intros Heq; try discriminate.
  destruct (mem s0 options) eqn:Hm; [|discriminate].
  injection Heq as ->. split; [reflexivity | exact Hm].
Qed.

Lemma z_optional_OK {A} (t : ZodType A) v o :
  z_optional t v = OK o ->
  (v = VUndefined /\ o = None) \/ (exists a, t v = OK a /\ o = Some a).
Proof.
  unfold z_optional.
  destruct v; try (intros Heq; injection Heq as <-; left; split; reflexivity);
    intros Heq; right;
    match type of Heq with
    | context [t ?x] => destruct (t x) as [errs [a|]]
    end; unfold OK in *; simpl in Heq; try discriminate;
    injection Heq as -> <-; exists a; split; reflexivity.
Qed.

(** When the input already satisfies the schema. *)

Lemma checked_string c (p : string -> bool) msg s :
  p s = true -> check c p msg z_string (VStr s) = OK s.
Proof. intros Hp. unfold check. simpl. rewrite Hp. reflexivity. Qed.

Lemma enum_member options s : mem s options = true -> z_enum options (VStr s) = OK s.
Proof. intros Hm. simpl. rewrite Hm. reflexivity. Qed.

Lemma bind_Ok {A B} (r : result A) (k : A -> result B) b :
  bind r k = Ok b -> exists a, r = Ok a /\ k a = Ok b.
Proof. destruct r as [a|e]; simpl; intros Heq; [eauto | discriminate]. Qed.

Lemma bind_Err {A B} (r : result A) (k : A -> result B) e :
  bind r k = Err e -> r = Err e \/ exists a, r = Ok a /\ k a = Err e.
Proof. destruct r as [a|e']; simpl; intros Heq; [eauto | left; congruence]. Qed.

(** Inversion of a successful parse down to its fields. *)
Ltac parsed :=
  repeat match goal with
    | H : parse _ _ = Ok _ |- _ => apply parse_Ok in H
    | H : z_object _ _ = OK _ |- _ => apply z_object_OK in H
    | H : refine_at _ _ _ _ _ = OK _ |- _ =>
        apply refine_at_OK in H; destruct H as [H ?]
    | H : ap _ _ = OK _ |- _ =>
        let g := fresh "g" in let a := fresh "a" in
        apply ap_OK in H; destruct H as (g & a & H & ? & ?)
    | H : prop _ _ _ = OK _ |- _ => apply prop_OK in H
    | H : OK _ = OK _ |- _ => injection H as H
    end; subst.

Lemma z_default_OK {A} d (t : ZodType A) v a :
  z_default d t v = OK a -> exists x, t x = OK a.
Proof. unfold z_default. destruct v; eauto. Qed.

Lemma check_passes {A} c (p : A -> bool) msg (t : ZodType A) v a :
  t v = OK a -> p a = true -> check c p msg t v = OK a.
Proof. intros Ht Hp. unfold check. rewrite Ht. simpl. rewrite Hp. reflexivity. Qed.

Lemma nonblank_nonempty s : nonblank s = true -> (0 <? String.length s)%nat = true.
Proof. destruct s; [discriminate | reflexivity]. Qed.

(** Inversion of the parsed fields down to the checks they passed. *)
Ltac checks :=
  unfold refine, port_range, HealthCheck.at_least, z_min, z_max, z_minLength,
    EnvVarType, EnvVarScope, DockerRegistryType in *;
  repeat match goal with
    | H : check _ _ _ _ _ = OK _ |- _ => apply check_OK in H; destruct H as [H ?]
    | H : integer _ _ = OK _ |- _ => apply integer_OK in H
    | H : z_int _ _ = OK _ |- _ => apply z_int_OK in H; destruct H as [H _]
    | H : z_default _ _ _ = OK _ |- _ => apply z_default_OK in H; destruct H as [? H]
    | H : z_enum _ _ = OK _ |- _ => apply z_enum_OK in H; destruct H as [? H]
    | H : z_string _ = OK _ |- _ => apply z_string_OK in H
    | H : z_number _ = OK _ |- _ => apply z_number_OK in H
    | H : z_boolean _ = OK _ |- _ => apply z_boolean_OK in H
    end;
  cbv beta in *; cbn [number_geb number_leb] in *.

Ltac conjuncts :=
  simpl; repeat (apply andb_true_intro; split); try assumption.

Ltac split_valid H :=
  repeat match type of H with
    | (_ && _) = true =>
        let H' := fresh "Hv" in
        apply andb_prop in H; destruct H as [H H']
    end.

(** ** Construction followed by projection, entity by entity *)

Lemma EnvironmentVariable_new_valid cfg e :
  EnvironmentVariable.new cfg = Ok e -> EnvironmentVariable_valid e = true.
Proof.
  unfold EnvironmentVariable.new. intros H.
  apply bind_Ok in H. destruct H as (data & Hp & Heq). injection Heq as <-.
  unfold EnvironmentVariable.Schema in Hp. parsed. checks.
  unfold EnvironmentVariable_valid. conjuncts.
Qed.

Lemma EnvironmentVariable_reconstruct e :
  EnvironmentVariable_valid e = true ->
  EnvironmentVariable.new (EnvironmentVariable.toJSON e) = Ok e.
Proof.
  destruct e as [k v ty sc]. unfold EnvironmentVariable_valid. simpl.
  intros H. split_valid H.
  assert (Hs : EnvironmentVariable.Schema
                 (EnvironmentVariable.toJSON (EnvironmentVariable.mk k v ty sc))
               = OK (EnvironmentVariable.mk k v ty sc)).
  { unfold EnvironmentVariable.Schema, EnvironmentVariable.toJSON, literal, z_object,
      prop, refine, EnvVarType, EnvVarScope.
    simpl get_prop. unfold z_default.
    rewrite (checked_string _ _ _ _ H).
    rewrite (@check_passes _ _ _ _ z_any v v eq_refl Hv1).
    rewrite (enum_member _ _ Hv0), (enum_member _ _ Hv). reflexivity. }
  unfold EnvironmentVariable.new. apply parse_Ok in Hs. rewrite Hs. reflexivity.
Qed.

(** Evaluation of a schema on a projection whose fields pass every check. *)
Ltac passes :=
  unfold EnvVarType, EnvVarScope, DockerRegistryType;
  unfold literal, z_object, prop, refine, port_range, HealthCheck.at_least,
    z_min, z_max, z_minLength, z_default, z_optional, integer, check, z_int,
    z_string, z_number, z_boolean, z_any, z_enum, isInteger, number_geb,
    number_leb, OK;
  simpl get_prop; cbv iota beta;
  repeat (match goal with
          | H : ?b = true |- context [?b] => rewrite H
          end; cbv iota beta);
  try reflexivity.

Lemma HealthCheck_new_valid cfg h :
  HealthCheck.new cfg = Ok h -> HealthCheck_valid h = true.
Proof.
  unfold HealthCheck.new. intros H.
  apply bind_Ok in H. destruct H as (data & Hp & Heq). injection Heq as <-.
  unfold HealthCheck.Schema in Hp. parsed. checks.
  unfold HealthCheck_valid. conjuncts.
Qed.

Lemma HealthCheck_reconstruct h :
  HealthCheck_valid h = true -> HealthCheck.new (HealthCheck.toJSON h) = Ok h.
Proof.
  destruct h as [hp p d per t st ft]. unfold HealthCheck_valid. simpl.
  intros H. split_valid H.
  assert (Hs : HealthCheck.Schema (HealthCheck.toJSON (HealthCheck.mk hp p d per t st ft))
               = OK (HealthCheck.mk hp p d per t st ft)).
  { unfold HealthCheck.Schema, HealthCheck.toJSON. passes. }
  unfold HealthCheck.new. apply parse_Ok in Hs. rewrite Hs. reflexivity.
Qed.

Lemma GitHubSource_new_valid cfg g :
  GitHubSource.new cfg = Ok g -> GitHubSource_valid g = true.
Proof.
  unfold GitHubSource.new. intros H.
  apply bind_Ok in H. destruct H as (data & Hp & Heq). injection Heq as <-.
  unfold GitHubSource.Schema in Hp. parsed. checks.
  unfold GitHubSource_valid. conjuncts.
Qed.

Lemma GitHubSource_reconstruct g :
  GitHubSource_valid g = true -> GitHubSource.new (GitHubSource.toJSON g) = Ok g.
Proof.
  destruct g as [r b sd dp dop]. unfold GitHubSource_valid. simpl.
  intros H. split_valid H.
  assert (Hs : GitHubSource.Schema (GitHubSource.toJSON (GitHubSource.mk r b sd dp dop))
               = OK (GitHubSource.mk r b sd dp dop)).
  { unfold GitHubSource.Schema, GitHubSource.toJSON. passes. }
  unfold GitHubSource.new. apply parse_Ok in Hs. rewrite Hs. reflexivity.
Qed.

Lemma VolumeMount_new_valid cfg m :
  VolumeMount.new cfg = Ok m -> VolumeMount_valid m = true.
Proof.
  unfold VolumeMount.new. intros H.
  apply bind_Ok in H. destruct H as (data & Hp & Heq). injection Heq as <-.
  unfold VolumeMount.Schema in Hp. parsed. checks.
  unfold VolumeMount_valid. conjuncts.
Qed.

Lemma VolumeMount_reconstruct m :
  VolumeMount_valid m = true -> VolumeMount.new (VolumeMount.toJSON m) = Ok m.
Proof.
  destruct m as [n mp sz]. unfold VolumeMount_valid.
  cbn [VolumeMount.name VolumeMount.mountPath VolumeMount.size].
  intros H. split_valid H.
  assert (Hs : VolumeMount.Schema (VolumeMount.toJSON (VolumeMount.mk n mp sz))
               = OK (VolumeMount.mk n mp sz)).
  { unfold VolumeMount.Schema, VolumeMount.toJSON. passes. }
  apply parse_Ok in Hs.
  unfold VolumeMount.new, VolumeMount.toJSON, VolumeMount.nullish_or in *.
  cbn [VolumeMount.name VolumeMount.mountPath VolumeMount.size] in *.
  simpl get_prop. simpl defined. cbv iota.
  rewrite Hs. reflexivity.
Qed.

Lemma DockerImage_new_valid cfg d :
  DockerImage.new cfg = Ok d -> DockerImage_valid d = true.
Proof.
  unfold DockerImage.new. intros H.
  apply bind_Ok in H. destruct H as (data & Hp & Heq). injection Heq as <-.
  unfold DockerImage.Schema in Hp. parsed.
  match goal with
  | H : z_optional _ _ = OK _ |- _ =>
      apply z_optional_OK in H; destruct H as [[_ ->] | (r & H & ->)]
  end; checks; unfold DockerImage_valid; conjuncts; reflexivity.
Qed.

Lemma DockerImage_reconstruct d :
  DockerImage_valid d = true -> DockerImage.new (DockerImage.toJSON d) = Ok d.
Proof.
  destruct d as [ty rg rp tg]. unfold DockerImage_valid.
  cbn [DockerImage.registryType DockerImage.registry DockerImage.repository
       DockerImage.tag].
  intros H. split_valid H.
  assert (Hs : DockerImage.Schema (DockerImage.toJSON (DockerImage.mk ty rg rp tg))
               = OK (DockerImage.mk ty rg rp tg)).
  { unfold DockerImage.Schema, DockerImage.toJSON, refine_at.
    cbn [DockerImage.registryType DockerImage.registry DockerImage.repository
         DockerImage.tag].
    destruct rg as [r|].
    - rewrite (nonblank_nonempty _ Hv2). simpl obj_set.
      passes. cbn -[DockerImage.docr_rule]. rewrite Hv. reflexivity.
    - passes. cbn -[DockerImage.docr_rule]. rewrite Hv. reflexivity. }
  unfold DockerImage.new. apply parse_Ok in Hs. rewrite Hs. reflexivity.
Qed.

(** C8. For each of the five configuration entities: when the constructor
    accepts an input, it also accepts the JSON projection of the entity it
    built, and it rebuilds the same entity, so the projection of the rebuilt
    entity is the original projection. *)
Theorem C8_projection_reconstructs (k : EntityKind) (config : jsval) (e : Entity) :
  construct k config = Ok e ->
  construct k (Entity_toJSON e) = Ok e
  /\ forall e', construct k (Entity_toJSON e) = Ok e' ->
                Entity_toJSON e' = Entity_toJSON e.
Proof.
  intros Hnew.
  assert (Hre : construct k (Entity_toJSON e) = Ok e).
  { destruct k; simpl in Hnew; apply bind_Ok in Hnew;
      destruct Hnew as (x & Hx & Heq); injection Heq as <-; simpl.
    - apply EnvironmentVariable_new_valid in Hx.
      rewrite (EnvironmentVariable_reconstruct _ Hx). reflexivity.
    - apply HealthCheck_new_valid in Hx.
      rewrite (HealthCheck_reconstruct _ Hx). reflexivity.
    - apply DockerImage_new_valid in Hx.
      rewrite (DockerImage_reconstruct _ Hx). reflexivity.
    - apply GitHubSource_new_valid in Hx.
      rewrite (GitHubSource_reconstruct _ Hx). reflexivity.
    - apply VolumeMount_new_valid in Hx.
      rewrite (VolumeMount_reconstruct _ Hx). reflexivity. }
  split; [exact Hre|].
  intros e' He'. rewrite Hre in He'. injection He' as <-. reflexivity.
Qed.

(** ** The validation library: when parsing fails *)

Lemma parse_issues {A} (t : ZodType A) v :
  issues_of (t v) <> [] -> parse t v = Err (ZodError (issues_of (t v))).
Proof.
  unfold parse. destruct (t v) as [[|i errs] o]; simpl; intros Hne.
  - congruence.
  - destruct o; reflexivity.
Qed.

Lemma prop_paths {A} k (t : ZodType A) data i :
  In i (issues_of (prop k t data)) -> exists rest, path i = k :: rest.
Proof.
  unfold prop, at_key. simpl. intros Hin. apply in_map_iff in Hin.
  destruct Hin as (j & <- & _). simpl. eauto.
Qed.

Lemma EnvironmentVariable_issues proto own :
  let data := VObj proto own in
  issues_of (EnvironmentVariable.Schema data) =
  (issues_of (prop "key" (refine nonblank "Key must be non-empty" z_string) data) ++
   issues_of (prop "value" (refine defined "Value is required" z_any) data) ++
   issues_of (prop "type" (z_default (VStr "GENERAL") EnvVarType) data) ++
   issues_of (prop "scope" (z_default (VStr "RUN_TIME") EnvVarScope) data))%list.
Proof. simpl. rewrite <- !app_assoc. reflexivity. Qed.

Lemma value_issues data :
  issues_of (prop "value" (refine defined "Value is required" z_any) data) =
  if defined (get_prop "value" data) then []
  else [mkIssue "custom" ["value"] "Value is required" None].
Proof.
  unfold prop, refine, check, z_any, OK.
  destruct (defined (get_prop "value" data)); reflexivity.
Qed.

Lemma EnvironmentVariable_new_Err config e :
  EnvironmentVariable.new config = Err e ->
  e = ZodError (issues_of (EnvironmentVariable.Schema config)).
Proof.
  unfold EnvironmentVariable.new. intros H. apply bind_Err in H.
  destruct H as [H | (a & _ & H)]; [|discriminate].
  apply parse_Err in H. exact H.
Qed.

(** C10. For a configuration object: a [value] that is [null] or
    [undefined] (absent) makes the constructor throw with the issue
    [Value is required] at path [value], and [null] behaves exactly as
    [undefined]; any other value raises no issue at path [value], and with a
    valid key and no type or scope given the variable is built with that
    value, be it [0], [false], the empty string or a deferred handle. *)
Theorem C10_value_required (proto : list string) (own : list (string * jsval)) :
  let config := VObj proto own in
  (defined (get_prop "value" config) = false ->
   exists issues,
     EnvironmentVariable.new config = Err (ZodError issues)
     /\ In (mkIssue "custom" ["value"] "Value is required" None) issues)
  /\
  (defined (get_prop "value" config) = true ->
   forall e, EnvironmentVariable.new config = Err e ->
     exists issues,
       e = ZodError issues /\ forall i, In i issues -> path i <> ["value"])
  /\
  (forall k,
     defined (get_prop "value" config) = true ->
     get_prop "key" config = VStr k -> nonblank k = true ->
     get_prop "type" config = VUndefined -> get_prop "scope" config = VUndefined ->
     EnvironmentVariable.new config =
     Ok (EnvironmentVariable.mk k (get_prop "value" config) "GENERAL" "RUN_TIME"))
  /\
  (forall k ty sc,
     EnvironmentVariable.new
       (literal [("key", k); ("value", VNull); ("type", ty); ("scope", sc)]) =
     EnvironmentVariable.new
       (literal [("key", k); ("value", VUndefined); ("type", ty); ("scope", sc)])
     /\
     EnvironmentVariable.new
       (literal [("key", k); ("value", VNull); ("type", ty); ("scope", sc)]) =
     EnvironmentVariable.new (literal [("key", k); ("type", ty); ("scope", sc)])).
Proof.
  intros config. split; [|split; [|split]].
  - intros Hv.
    assert (Hin : In (mkIssue "custom" ["value"] "Value is required" None)
                    (issues_of (EnvironmentVariable.Schema config))).
    { unfold config. rewrite EnvironmentVariable_issues. cbv zeta.
      rewrite value_issues. fold config. rewrite Hv.
      apply in_or_app. right. left. reflexivity. }
    exists (issues_of (EnvironmentVariable.Schema config)). split; [|exact Hin].
    unfold EnvironmentVariable.new. rewrite parse_issues; [reflexivity|].
    intros Hnil. rewrite Hnil in Hin. exact Hin.
  - intros Hv e He. apply EnvironmentVariable_new_Err in He.
    exists (issues_of (EnvironmentVariable.Schema config)). split; [exact He|].
    unfold config. rewrite EnvironmentVariable_issues. cbv zeta.
    rewrite value_issues. fold config. rewrite Hv.
    intros i Hin Hpath.
    apply in_app_or in Hin. destruct Hin as [Hin|Hin];
      [|apply in_app_or in Hin; destruct Hin as [[]|Hin];
        apply in_app_or in Hin; destruct Hin as [Hin|Hin]];
      apply prop_paths in Hin; destruct Hin as [rest Hrest]; congruence.
  - intros k Hv Hk Hnb Hty Hsc.
    unfold EnvironmentVariable.new, parse, EnvironmentVariable.Schema, config,
      z_object, prop.
    fold config. rewrite Hk, Hty, Hsc.
    generalize dependent (get_prop "value" config). intros v Hv. passes.
  - intros k ty sc.
    assert (Hnull : forall data,
              defined (get_prop "value" data) = false ->
              issues_of (prop "value" (refine defined "Value is required" z_any) data)
              <> []).
    { intros data Hd. rewrite value_issues, Hd. discriminate. }
    assert (Hfail : forall own',
              defined (get_prop "value" (literal own')) = false ->
              EnvironmentVariable.new (literal own') =
              Err (ZodError (issues_of (EnvironmentVariable.Schema (literal own'))))).
    { intros own' Hd. unfold EnvironmentVariable.new. rewrite parse_issues; [reflexivity|].
      unfold literal. rewrite EnvironmentVariable_issues. cbv zeta.
      intros Hnil. apply app_eq_nil in Hnil. destruct Hnil as [_ Hnil].
      apply app_eq_nil in Hnil. destruct Hnil as [Hnil _].
      exact (Hnull _ Hd Hnil). }
    rewrite !Hfail by reflexivity.
    split; reflexivity.
Qed.

(** ** DockerImage and its cross-field rule *)

Lemma DockerImage_Schema_typed proto own d (config := VObj proto own) :
  get_prop "registryType" config = VStr (DockerImage.registryType d) ->
  mem (DockerImage.registryType d) ["DOCKER_HUB"; "DOCR"; "GHCR"] = true ->
  get_prop "registry" config = registry_input (DockerImage.registry d) ->
  get_prop "repository" config = VStr (DockerImage.repository d) ->
  get_prop "tag" config = VStr (DockerImage.tag d) ->
  DockerImage.Schema config = mkParse (DockerImage_issues d) (Some d).
Proof.
  destruct d as [ty rg rp tg].
  cbn [DockerImage.registryType DockerImage.registry DockerImage.repository
       DockerImage.tag].
  intros Hty Hmem Hrg Hrp Htg.
  unfold DockerImage.Schema, refine_at, z_object, config, prop. fold config.
  rewrite Hty, Hrg, Hrp, Htg. unfold DockerImage_issues, blank_issue.
  cbn [DockerImage.registryType DockerImage.registry DockerImage.repository
       DockerImage.tag].
  unfold DockerRegistryType, z_enum, refine, check, z_optional, z_string, OK.
  rewrite Hmem.
  destruct rg as [r|]; cbn [registry_input];
    [destruct (nonblank r) eqn:Hr|];
    destruct (nonblank rp) eqn:Hp; destruct (nonblank tg) eqn:Ht;
    cbn -[DockerImage.docr_rule];
    destruct (DockerImage.docr_rule _); reflexivity.
Qed.

Lemma absent_or_blank_cases v :
  absent_or_blank v = true ->
  exists rg, v = registry_input rg
             /\ match rg with Some s => nonblank s = false | None => True end.
Proof.
  destruct v; simpl; intros H; try discriminate.
  - exists None. split; [reflexivity | exact I].
  - exists (Some s). split; [reflexivity|]. destruct (nonblank s); [discriminate | reflexivity].
Qed.

Lemma DockerImage_new_issues proto own d (config := VObj proto own) :
  DockerImage.Schema config = mkParse (DockerImage_issues d) (Some d) ->
  DockerImage.new config =
  match DockerImage_issues d with
  | [] => Ok d
  | issues => Err (ZodError issues)
  end.
Proof.
  intros Hs. unfold DockerImage.new, parse. rewrite Hs.
  destruct (DockerImage_issues d); [destruct d|]; reflexivity.
Qed.

Lemma DockerImage_new_fields cfg d :
  DockerImage.new cfg = Ok d ->
  get_prop "registryType" cfg = VStr (DockerImage.registryType d)
  /\ get_prop "registry" cfg = registry_input (DockerImage.registry d)
  /\ DockerImage_valid d = true.
Proof.
  intros Hnew. pose proof (DockerImage_new_valid _ Hnew) as Hvalid.
  unfold DockerImage.new in Hnew.
  apply bind_Ok in Hnew. destruct Hnew as (data & Hp & Heq). injection Heq as <-.
  unfold DockerImage.Schema in Hp. parsed.
  match goal with
  | H : z_optional _ _ = OK _ |- _ =>
      apply z_optional_OK in H; destruct H as [[Hu ->] | (r & H & ->)]
  end; checks; simpl; repeat split; assumption.
Qed.

Lemma DockerImage_docr_never_built cfg d :
  get_prop "registryType" cfg = VStr "DOCR" ->
  absent_or_blank (get_prop "registry" cfg) = true ->
  DockerImage.new cfg <> Ok d.
Proof.
  intros Hty Hrg Hnew. apply DockerImage_new_fields in Hnew.
  destruct Hnew as (Hty' & Hrg' & Hvalid).
  rewrite Hty in Hty'. injection Hty' as Hty'.
  rewrite Hrg' in Hrg.
  unfold DockerImage_valid in Hvalid. apply andb_prop in Hvalid.
  destruct Hvalid as [_ Hrule]. unfold DockerImage.docr_rule in Hrule.
  rewrite <- Hty' in Hrule. simpl in Hrule.
  destruct (DockerImage.registry d) as [r|]; simpl in Hrg; [|discriminate].
  rewrite Hrule in Hrg. discriminate.
Qed.

(** C6. On a configuration object with [registryType] DOCR and a
    [registry] that is absent, empty or white space only, the constructor
    always throws; when [repository] and [tag] are strings, as the
    constructor declares them, an issue of the error has the path
    [registry], and when they are valid every issue has it and the reported
    field is [registry].  With [registryType] DOCKER_HUB or GHCR, no
    registry and valid repository and tag, the image is constructed.  The
    projection of an image without registry has the three keys
    [registryType], [repository], [tag] and no [registry] key. *)
Theorem C6_docker_registry (proto : list string) (own : list (string * jsval))
  (config := VObj proto own) :
  (get_prop "registryType" config = VStr "DOCR" ->
   absent_or_blank (get_prop "registry" config) = true ->
   exists issues, DockerImage.new config = Err (ZodError issues))
  /\
  (forall rp tg,
     get_prop "registryType" config = VStr "DOCR" ->
     absent_or_blank (get_prop "registry" config) = true ->
     get_prop "repository" config = VStr rp ->
     get_prop "tag" config = VStr tg ->
     exists issues,
       DockerImage.new config = Err (ZodError issues)
       /\ Exists (fun i => path i = ["registry"]) issues
       /\ (nonblank rp = true -> nonblank tg = true ->
           Forall (fun i => path i = ["registry"]) issues
           /\ exists rejected constraint,
                fromZodError issues = ValidationError "registry" rejected constraint))
  /\
  (forall ty rp tg,
     ty = "DOCKER_HUB" \/ ty = "GHCR" ->
     get_prop "registryType" config = VStr ty ->
     get_prop "registry" config = VUndefined ->
     get_prop "repository" config = VStr rp -> nonblank rp = true ->
     get_prop "tag" config = VStr tg -> nonblank tg = true ->
     DockerImage.new config = Ok (DockerImage.mk ty None rp tg))
  /\
  (forall d,
     DockerImage.registry d = None ->
     DockerImage.toJSON d =
       literal [("registryType", VStr (DockerImage.registryType d));
                ("repository", VStr (DockerImage.repository d));
                ("tag", VStr (DockerImage.tag d))]
     /\ has_in "registry" (DockerImage.toJSON d) = false).
Proof.
  split; [|split; [|split]].
  - intros Hty Hrg.
    destruct (DockerImage.new config) as [d|e] eqn:Hnew.
    + exfalso. exact (DockerImage_docr_never_built _ Hty Hrg Hnew).
    + unfold DockerImage.new in Hnew. apply bind_Err in Hnew.
      destruct Hnew as [Hnew | (a & _ & Hnew)]; [|discriminate].
      apply parse_Err in Hnew. subst e. eexists. reflexivity.
  - intros rp tg Hty Hrg Hrp Htg.
    apply absent_or_blank_cases in Hrg. destruct Hrg as (rg & Hrg & Hblank).
    pose (d := DockerImage.mk "DOCR" rg rp tg).
    assert (Hs : DockerImage.Schema config = mkParse (DockerImage_issues d) (Some d))
      by (apply DockerImage_Schema_typed; [exact Hty | reflexivity | exact Hrg
                                          | exact Hrp | exact Htg]).
    assert (Hrule : DockerImage.docr_rule d = false)
      by (unfold DockerImage.docr_rule; simpl; destruct rg; [exact Hblank | reflexivity]).
    assert (Hin : In (mkIssue "custom" ["registry"]
                        "DOCR registry type requires non-empty registry field" None)
                    (DockerImage_issues d)).
    { unfold DockerImage_issues. rewrite Hrule.
      apply in_or_app; right. apply in_or_app; right. apply in_or_app; right.
      left. reflexivity. }
    exists (DockerImage_issues d). split; [|split].
    + unfold config. rewrite (@DockerImage_new_issues proto own d Hs).
      destruct (DockerImage_issues d); [destruct Hin | reflexivity].
    + apply Exists_exists. eexists. split; [exact Hin | reflexivity].
    + intros Hp Ht. clear Hin. unfold DockerImage_issues, blank_issue.
      rewrite Hrule. simpl. rewrite Hp, Ht.
      destruct rg as [s|]; [rewrite Hblank|]; simpl;
        (split; [repeat constructor | eexists; eexists; reflexivity]).
  - intros ty rp tg Hkind Hty Hrg Hrp Hp Htg Ht.
    pose (d := DockerImage.mk ty None rp tg).
    assert (Hs : DockerImage.Schema config = mkParse (DockerImage_issues d) (Some d))
      by (apply DockerImage_Schema_typed;
          [exact Hty | destruct Hkind; subst; reflexivity | exact Hrg
          | exact Hrp | exact Htg]).
    unfold config. rewrite (@DockerImage_new_issues proto own d Hs).
    unfold DockerImage_issues, blank_issue, DockerImage.docr_rule. simpl.
    rewrite Hp, Ht. destruct Hkind; subst; reflexivity.
  - intros [ty rg rp tg]. simpl. intros ->. split; reflexivity.
Qed.

(** ** The kinds of error *)

Ltac thrown H :=
  repeat (apply bind_Err in H; destruct H as [H | (? & ? & H)]);
  try discriminate;
  apply parse_Err in H; eexists; exact H.

Lemma construct_Err k config e :
  construct k config = Err e -> exists issues, e = ZodError issues.
Proof.
  destruct k; simpl; intros H;
    unfold EnvironmentVariable.new, HealthCheck.new, DockerImage.new,
      GitHubSource.new, VolumeMount.new in H;
    thrown H.
Qed.

Lemma aggregate_new_Err e :
  (forall cfg, Service.new cfg = Err e -> exists issues, e = ZodError issues)
  /\ (forall cfg, Job.new cfg = Err e -> exists issues, e = ZodError issues)
  /\ (forall cfg, Worker.new cfg = Err e -> exists issues, e = ZodError issues).
Proof.
  repeat split; intros cfg H;
    unfold Service.new, Job.new, Worker.new, AppPlatformResource.new in H;
    thrown H.
Qed.

Lemma addEnv_Err {A} `{Extends A} (env : EnvironmentVariable.t) (this : A) e :
  fst (addEnv env this) = Err e ->
  exists issue, e = ZodError [issue] /\ path issue = ["key"] /\ received issue = None.
Proof.
  unfold addEnv, AppPlatformResource.addEnv.
  destruct (AppPlatformResource.findIndex _ _); simpl; intros Heq.
  - injection Heq as <-. eexists. repeat split.
  - discriminate.
Qed.

Lemma validate_Err {A} (schema : ZodType A) input e :
  validate schema input = Err e -> is_ValidationError e = true.
Proof.
  unfold validate. destruct (schema input) as [[|i errs] [a|]]; intros Heq;
    try discriminate; injection Heq as <-;
    unfold fromZodError; reflexivity.
Qed.

(** C3. Errors come in three kinds, not one.  A constructor of an entity or
    of an aggregate that rejects its input throws the validation library's
    [ZodError], a list of issues with a path and a message each; [addEnv] on
    a key collision throws a [ZodError] with one issue at path [key] and no
    offending value; the synchronous serializer on a tree with a deferred
    value throws a plain [Error] with a message only.  The structured
    [ValidationError] with field, value and constraint is what the
    [validate] helper throws. *)
Theorem C3_error_kinds :
  (forall k config e, construct k config = Err e -> exists issues, e = ZodError issues)
  /\ (forall cfg e, Service.new cfg = Err e -> exists issues, e = ZodError issues)
  /\ (forall cfg e, Job.new cfg = Err e -> exists issues, e = ZodError issues)
  /\ (forall cfg e, Worker.new cfg = Err e -> exists issues, e = ZodError issues)
  /\ (forall (A : Type) (H : Extends A) env (this : A) e,
        fst (addEnv env this) = Err e ->
        exists issue,
          e = ZodError [issue] /\ path issue = ["key"] /\ received issue = None)
  /\ (forall dump obj,
        has_deferred obj = true ->
        toYAMLSync dump obj =
        Err (Error "Pulumi Outputs found. Use async toYAML() instead to resolve them."))
  /\ (forall (A : Type) (schema : ZodType A) input e,
        validate schema input = Err e -> is_ValidationError e = true).
Proof.
  split; [exact construct_Err|].
  split; [intros cfg e; apply (aggregate_new_Err e)|].
  split; [intros cfg e; apply (aggregate_new_Err e)|].
  split; [intros cfg e; apply (aggregate_new_Err e)|].
  split; [intros A H env this e; apply addEnv_Err|].
  split.
  - intros dump obj Hd. unfold toYAMLSync. rewrite no_outputs_iff, Hd. reflexivity.
  - intros A schema input e. apply validate_Err.
Qed.

(** A rejected construction, a key collision and the synchronous serializer
    on a deferred value each raise an error that is not a [ValidationError]. *)
Lemma C3_counterexample :
  (exists e, EnvironmentVariable.new sample_null_value_config = Err e
             /\ is_ValidationError e = false)
  /\ (exists e, fst (addEnv sample_env_port_again sample_service) = Err e
                /\ is_ValidationError e = false)
  /\ (exists e, toYAMLSync yaml_dump sample_deferred_tree = Err e
                /\ is_ValidationError e = false).
Proof.
  repeat split; eexists; split; reflexivity.
Qed.

(** ** The properties at sample inputs *)

Lemma C2_witness :
  (exists issue,
     addEnv sample_env_port_again sample_service
     = (Err (ZodError [issue]), sample_service)
     /\ path issue = ["key"]
     /\ listEnvs (snd (addEnv sample_env_port_again sample_service))
        = listEnvs sample_service)
  /\ (fst (addEnv sample_env_host sample_service) = Ok tt
      /\ listEnvs (snd (addEnv sample_env_host sample_service))
         = (listEnvs sample_service ++ [sample_env_host])%list).
Proof.
  split.
  - apply (proj1 (C2_addEnv_unique_keys sample_env_port_again sample_service)).
    exists sample_env_port. split; [left; reflexivity | reflexivity].
  - apply (proj2 (C2_addEnv_unique_keys sample_env_host sample_service)).
    intros e [<-|[]]. simpl. discriminate.
Defined.

Lemma C3_witness :
  (exists issues,
     ZodError [mkIssue "custom" ["value"] "Value is required" None] = ZodError issues)
  /\ toYAMLSync yaml_dump sample_deferred_tree =
     Err (Error "Pulumi Outputs found. Use async toYAML() instead to resolve them.").
Proof.
  split.
  - apply (proj1 C3_error_kinds KEnvironmentVariable sample_null_value_config).
    reflexivity.
  - apply (proj1 (proj2 (proj2 (proj2 (proj2 (proj2 C3_error_kinds)))))).
    reflexivity.
Defined.

Lemma C6_witness :
  (exists issues,
     DockerImage.new sample_docr_config = Err (ZodError issues)
     /\ Exists (fun i => path i = ["registry"]) issues
     /\ (nonblank "postgrest" = true -> nonblank "v14.2" = true ->
         Forall (fun i => path i = ["registry"]) issues
         /\ exists rejected constraint,
              fromZodError issues = ValidationError "registry" rejected constraint))
  /\ DockerImage.new sample_hub_config
     = Ok (DockerImage.mk "DOCKER_HUB" None "postgrest" "v14.2").
Proof.
  split.
  - apply (proj1 (proj2 (C6_docker_registry [] _)) "postgrest" "v14.2"); reflexivity.
  - apply (proj1 (proj2 (proj2 (C6_docker_registry [] _)))
             "DOCKER_HUB" "postgrest" "v14.2");
      try reflexivity.
    left. reflexivity.
Defined.

Lemma C7_witness :
  has_deferred sample_thenable_tree = true
  /\ toYAML yaml_dump None Nat.eqb sample_thenable_tree
     = yaml_dump (transformKeys (removeEmpty sample_thenable_tree))
  /\ toYAMLSync yaml_dump sample_thenable_tree
     = Err (Error "Pulumi Outputs found. Use async toYAML() instead to resolve them.").
Proof.
  split; [reflexivity|].
  apply (proj1 C7_soft_fail_versus_error yaml_dump Nat.eqb sample_thenable_tree).
  reflexivity.
Defined.

Lemma C8_witness :
  construct KHealthCheck
    (Entity_toJSON (AHealthCheck (HealthCheck.mk "/" 3000 0 10 1 1 3)))
  = Ok (AHealthCheck (HealthCheck.mk "/" 3000 0 10 1 1 3)).
Proof.
  apply (proj1 (@C8_projection_reconstructs KHealthCheck sample_health_config
                  (AHealthCheck (HealthCheck.mk "/" 3000 0 10 1 1 3)) eq_refl)).
Defined.

Lemma C9_witness :
  has_deferred sample_plain_tree = false
  /\ toYAML yaml_dump None Nat.eqb sample_plain_tree
     = toYAMLSync yaml_dump sample_plain_tree.
Proof.
  split; [reflexivity|].
  apply (C9_toYAML_equals_toYAMLSync yaml_dump None Nat.eqb sample_plain_tree).
  reflexivity.
Defined.

Lemma C10_witness :
  (exists issues,
     EnvironmentVariable.new sample_null_value_config = Err (ZodError issues)
     /\ In (mkIssue "custom" ["value"] "Value is required" None) issues)
  /\ EnvironmentVariable.new sample_zero_value_config
     = Ok (EnvironmentVariable.mk "TEST_VAR" (VNum 0) "GENERAL" "RUN_TIME").
Proof.
  split.
  - exact (proj1 (C10_value_required []
                    [("key", VStr "TEST_VAR"); ("value", VNull)]) eq_refl).
  - exact (proj1 (proj2 (proj2 (C10_value_required []
                                  [("key", VStr "TEST_VAR"); ("value", VNum 0)])))
             "TEST_VAR" eq_refl eq_refl eq_refl eq_refl eq_refl).
Defined.

(** * Further properties of the code *)

(** ** The env list of a resource *)

Lemma findIndex_split key l i :
  AppPlatformResource.findIndex key l = Some i ->
  exists before e after,
    l = (before ++ e :: after)%list
    /\ EnvironmentVariable.key e = key
    /\ has_key key before = false
    /\ List.length before = i
    /\ AppPlatformResource.splice1 i l = (before ++ after)%list.
Proof.
  revert i. induction l as [|x r IH]; intros i; simpl.
  - discriminate.
  - destruct (String.eqb_spec (EnvironmentVariable.key x) key) as [Hk|Hk].
    + intros Hi. injection Hi as <-. exists [], x, r. repeat split. exact Hk.
    + destruct (AppPlatformResource.findIndex key r) as [j|]; [|discriminate].
      simpl. intros Hi. injection Hi as <-.
      destruct (IH j eq_refl) as (before & e & after & -> & He & Hb & Hlen & Hs).
      exists (x :: before), e, after. simpl.
      repeat split; try assumption.
      * apply String.eqb_neq in Hk. rewrite Hk. exact Hb.
      * rewrite Hlen. reflexivity.
      * rewrite Hs. reflexivity.
Qed.

(** X1. [removeEnv] returns [false] and leaves the resource as it is when no
    entry has the key; otherwise it returns [true] and removes exactly the
    first entry with that key, keeping all others in order. *)
Theorem X1_removeEnv_first_match (key : string) (this : AppPlatformResource.t) :
  (has_key key (AppPlatformResource.envs this) = false ->
   AppPlatformResource.removeEnv key this = (false, this))
  /\
  (has_key key (AppPlatformResource.envs this) = true ->
   exists before e after,
     AppPlatformResource.envs this = (before ++ e :: after)%list
     /\ EnvironmentVariable.key e = key
     /\ has_key key before = false
     /\ AppPlatformResource.removeEnv key this =
        (true, AppPlatformResource.mk (AppPlatformResource.name this)
                 (before ++ after)%list)).
Proof.
  unfold AppPlatformResource.removeEnv. split; intros Hk.
  - apply findIndex_has_key in Hk. rewrite Hk. reflexivity.
  - destruct (AppPlatformResource.findIndex key (AppPlatformResource.envs this))
      as [i|] eqn:Hf.
    + destruct (findIndex_split _ _ Hf) as (before & e & after & Hl & He & Hb & _ & Hs).
      exists before, e, after. rewrite Hs. repeat split; assumption.
    + apply findIndex_has_key in Hf. congruence.
Qed.

Lemma getEnv_first key l :
  match find (fun e => String.eqb (EnvironmentVariable.key e) key) l with
  | Some e =>
      exists before after,
        l = (before ++ e :: after)%list
        /\ EnvironmentVariable.key e = key /\ has_key key before = false
  | None => has_key key l = false
  end.
Proof.
  induction l as [|x r IH]; simpl.
  - reflexivity.
  - destruct (String.eqb_spec (EnvironmentVariable.key x) key) as [Hk|Hk].
    + exists [], r. repeat split. exact Hk.
    + destruct (find _ r) as [e|].
      * destruct IH as (before & after & -> & He & Hb).
        exists (x :: before), after. simpl. apply String.eqb_neq in Hk.
        rewrite Hk. repeat split; assumption.
      * exact IH.
Qed.

(** X2. [getEnv] returns the first entry of the env list that has the key,
    and returns nothing exactly when no entry has it. *)
Theorem X2_getEnv_first_match (key : string) (this : AppPlatformResource.t) :
  (AppPlatformResource.getEnv key this = None <->
   has_key key (AppPlatformResource.envs this) = false)
  /\
  (forall e,
     AppPlatformResource.getEnv key this = Some e ->
     exists before after,
       AppPlatformResource.envs this = (before ++ e :: after)%list
       /\ EnvironmentVariable.key e = key
       /\ has_key key before = false).
Proof.
  unfold AppPlatformResource.getEnv.
  pose proof (getEnv_first key (AppPlatformResource.envs this)) as H.
  destruct (find _ (AppPlatformResource.envs this)) as [e|].
  - split.
    + split; [discriminate|]. intros Hk.
      destruct H as (before & after & Hl & He & Hb). rewrite Hl in Hk.
      unfold has_key in Hk. rewrite existsb_app in Hk. simpl in Hk.
      apply String.eqb_eq in He. rewrite He in Hk.
      rewrite orb_true_r in Hk. discriminate.
    + intros e' Heq. injection Heq as <-. exact H.
  - split; [tauto | discriminate].
Qed.

Lemma has_key_app key l1 l2 :
  has_key key (l1 ++ l2) = has_key key l1 || has_key key l2.
Proof. unfold has_key. apply existsb_app. Qed.

Lemma findIndex_fresh_last key l e :
  has_key key l = false -> EnvironmentVariable.key e = key ->
  AppPlatformResource.findIndex key (l ++ [e]) = Some (List.length l).
Proof.
  intros Hk He. induction l as [|x r IH]; simpl in *.
  - apply String.eqb_eq in He. rewrite He. reflexivity.
  - apply orb_false_iff in Hk. destruct Hk as [Hx Hr].
    rewrite Hx. rewrite (IH Hr). reflexivity.
Qed.

Lemma splice1_last {A} (l : list A) (x : A) :
  AppPlatformResource.splice1 (List.length l) (l ++ [x]) = l.
Proof. induction l as [|y r IH]; simpl; [reflexivity | rewrite IH; reflexivity]. Qed.

Lemma find_app_fresh key l e :
  has_key key l = false ->
  find (fun x => String.eqb (EnvironmentVariable.key x) key) (l ++ [e]) =
  if String.eqb (EnvironmentVariable.key e) key then Some e else None.
Proof.
  intros Hk. induction l as [|x r IH]; simpl in *.
  - reflexivity.
  - apply orb_false_iff in Hk. destruct Hk as [Hx Hr]. rewrite Hx. exact (IH Hr).
Qed.

Lemma find_app_other key l e :
  EnvironmentVariable.key e <> key ->
  find (fun x => String.eqb (EnvironmentVariable.key x) key) (l ++ [e]) =
  find (fun x => String.eqb (EnvironmentVariable.key x) key) l.
Proof.
  intros Hne. induction l as [|x r IH]; simpl.
  - apply String.eqb_neq in Hne. rewrite Hne. reflexivity.
  - destruct (String.eqb (EnvironmentVariable.key x) key); [reflexivity | exact IH].
Qed.

(** X3. When no entry has the key of [env]: [addEnv] succeeds, [getEnv]
    with that key then returns [env], lookups of every other key are
    unaffected, and [removeEnv] with that key returns [true] and gives back
    the resource as it was before the addition. *)
Theorem X3_addEnv_then_get_and_remove
  (env : EnvironmentVariable.t) (this : AppPlatformResource.t) :
  has_key (EnvironmentVariable.key env) (AppPlatformResource.envs this) = false ->
  let after := snd (AppPlatformResource.addEnv env this) in
  fst (AppPlatformResource.addEnv env this) = Ok tt
  /\ AppPlatformResource.getEnv (EnvironmentVariable.key env) after = Some env
  /\ (forall key, key <> EnvironmentVariable.key env ->
        AppPlatformResource.getEnv key after = AppPlatformResource.getEnv key this)
  /\ AppPlatformResource.removeEnv (EnvironmentVariable.key env) after = (true, this).
Proof.
  intros Hk. pose proof Hk as Hf. apply findIndex_has_key in Hf.
  unfold AppPlatformResource.addEnv. rewrite Hf. cbv zeta. simpl fst. simpl snd.
  split; [reflexivity|]. split; [|split].
  - unfold AppPlatformResource.getEnv. simpl. rewrite find_app_fresh by exact Hk.
    rewrite String.eqb_refl. reflexivity.
  - intros key Hne. unfold AppPlatformResource.getEnv. simpl.
    apply find_app_other. congruence.
  - unfold AppPlatformResource.removeEnv. simpl.
    rewrite (@findIndex_fresh_last _ _ env Hk eq_refl). rewrite splice1_last.
    destruct this; reflexivity.
Qed.

Lemma not_In_keys key l : has_key key l = false <-> ~ In key (env_keys l).
Proof.
  unfold env_keys. split.
  - intros Hk Hin. apply in_map_iff in Hin. destruct Hin as (e & He & Hin).
    assert (has_key key l = true) by (apply has_key_In; eauto). congruence.
  - intros Hn. destruct (has_key key l) eqn:Hk; [|reflexivity].
    apply has_key_In in Hk. destruct Hk as (e & Hin & He).
    exfalso. apply Hn. apply in_map_iff. eauto.
Qed.

(** X4. Uniqueness of keys is an invariant of the two mutators: if no two
    entries share a key, the same holds after [addEnv], whether it succeeds
    or throws, and after [removeEnv]; and after [removeEnv] of a key no entry
    with that key is left. *)
Theorem X4_unique_keys_invariant
  (env : EnvironmentVariable.t) (key : string) (this : AppPlatformResource.t) :
  NoDup (env_keys (AppPlatformResource.envs this)) ->
  NoDup (env_keys (AppPlatformResource.envs (snd (AppPlatformResource.addEnv env this))))
  /\ NoDup (env_keys (AppPlatformResource.envs
                        (snd (AppPlatformResource.removeEnv key this))))
  /\ AppPlatformResource.getEnv key (snd (AppPlatformResource.removeEnv key this)) = None.
Proof.
  intros Hnd. split; [|split].
  - unfold AppPlatformResource.addEnv.
    destruct (AppPlatformResource.findIndex _ _) eqn:Hf; simpl; [exact Hnd|].
    apply findIndex_has_key in Hf. apply not_In_keys in Hf.
    unfold env_keys in *. rewrite map_app. simpl.
    rewrite <- (rev_involutive (map _ _ ++ _)%list). apply NoDup_rev.
    rewrite rev_app_distr. simpl. constructor.
    + rewrite <- in_rev. exact Hf.
    + apply NoDup_rev. exact Hnd.
  - unfold AppPlatformResource.removeEnv.
    destruct (AppPlatformResource.findIndex _ _) as [i|] eqn:Hf; simpl; [|exact Hnd].
    destruct (findIndex_split _ _ Hf) as (before & e & after & Hl & _ & _ & _ & ->).
    rewrite Hl in Hnd. unfold env_keys in *. rewrite map_app in *. simpl in Hnd.
    apply NoDup_remove_1 in Hnd. exact Hnd.
  - unfold AppPlatformResource.removeEnv, AppPlatformResource.getEnv.
    destruct (AppPlatformResource.findIndex _ _) as [i|] eqn:Hf; simpl.
    + destruct (findIndex_split _ _ Hf) as (before & e & after & Hl & He & _ & _ & ->).
      rewrite Hl in Hnd. unfold env_keys in Hnd. rewrite map_app in Hnd.
      simpl in Hnd. apply NoDup_remove_2 in Hnd. rewrite He, <- map_app in Hnd.
      apply not_In_keys in Hnd.
      pose proof (getEnv_first key (before ++ after)) as Hfirst.
      destruct (find _ (before ++ after)) as [x|]; [|reflexivity].
      destruct Hfirst as (b & a & Hba & Hx & _).
      assert (has_key key (before ++ after) = true)
        by (apply has_key_In; exists x; split; [rewrite Hba; apply in_elt | exact Hx]).
      congruence.
    + apply findIndex_has_key in Hf.
      pose proof (getEnv_first key (AppPlatformResource.envs this)) as Hfirst.
      destruct (find _ (AppPlatformResource.envs this)) as [x|]; [|reflexivity].
      destruct Hfirst as (b & a & Hba & Hx & _).
      assert (has_key key (AppPlatformResource.envs this) = true)
        by (apply has_key_In; exists x; split; [rewrite Hba; apply in_elt | exact Hx]).
      congruence.
Qed.

(** ** Construction of a resource *)

Lemma parse_items_any items : forall index, parse_items z_any index items = OK items.
Proof.
  induction items as [|x r IH]; intros index; simpl.
  - reflexivity.
  - rewrite IH. reflexivity.
Qed.

Lemma AppPlatformResource_envs_field (envs : option (list EnvironmentVariable.t)) data :
  get_prop "envs" data =
    AppPlatformResource.array_or_undefined AppPlatformResource.instance envs ->
  exists items, prop "envs" (z_default (VArr []) (z_array z_any)) data = OK items.
Proof.
  intros Hget. unfold prop. rewrite Hget. destruct envs as [l|]; simpl.
  - rewrite parse_items_any. eexists. reflexivity.
  - eexists. reflexivity.
Qed.

Lemma AppPlatformResource_new_spec (config_name : jsval)
  (config_envs : option (list EnvironmentVariable.t)) (this : AppPlatformResource.t) :
  AppPlatformResource.new config_name config_envs = Ok this <->
  exists name,
    config_name = VStr name /\ nonblank name = true
    /\ this = AppPlatformResource.mk name
                (match config_envs with Some l => l | None => [] end).
Proof.
  unfold AppPlatformResource.new. split.
  - intros H. apply bind_Ok in H. destruct H as (data & Hp & Heq).
    injection Heq as <-. unfold AppPlatformResource.Schema in Hp. parsed. checks.
    simpl in *. eexists. repeat split; eassumption.
  - intros (name & -> & Hnb & ->).
    destruct (@AppPlatformResource_envs_field config_envs
                (literal [("name", VStr name);
                          ("envs", AppPlatformResource.array_or_undefined
                                     AppPlatformResource.instance config_envs)])
                eq_refl) as (items & Hitems).
    unfold parse, AppPlatformResource.Schema, z_object, literal in *.
    rewrite Hitems. unfold prop, refine, check. simpl get_prop. simpl z_string.
    unfold OK at 2. cbv iota beta. rewrite Hnb. reflexivity.
Qed.

(** X5. The base constructor accepts its input exactly when the name is a
    string with a character that is not white space; the resource then
    holds that name and the given env list as it is (the empty list when
    none is given): the initial list is not checked for duplicate keys. *)
Theorem X5_base_constructor (config_name : jsval)
  (config_envs : option (list EnvironmentVariable.t)) (this : AppPlatformResource.t) :
  AppPlatformResource.new config_name config_envs = Ok this <->
  exists name,
    config_name = VStr name /\ nonblank name = true
    /\ this = AppPlatformResource.mk name
                (match config_envs with Some l => l | None => [] end).
Proof. apply AppPlatformResource_new_spec. Qed.

(** ** Objects built by assignment *)

Lemma keys_obj_set_eq k v o :
  keys (obj_set k v o) = if mem k (keys o) then keys o else (keys o ++ [k])%list.
Proof.
  unfold mem. induction o as [|[k0 v0] r IH]; simpl.
  - reflexivity.
  - destruct (String.eqb k k0) eqn:Hk; simpl.
    + apply String.eqb_eq in Hk. subst. reflexivity.
    + rewrite IH. destruct (existsb (String.eqb k) (keys r)); reflexivity.
Qed.

Lemma mem_In k l : mem k l = true <-> In k l.
Proof.
  unfold mem. rewrite existsb_exists. split.
  - intros (x & Hin & Hx). apply String.eqb_eq in Hx. subst. exact Hin.
  - intros Hin. exists k. split; [exact Hin | apply String.eqb_refl].
Qed.

Lemma NoDup_keys_obj_set k v o : NoDup (keys o) -> NoDup (keys (obj_set k v o)).
Proof.
  intros Hnd. rewrite keys_obj_set_eq. destruct (mem k (keys o)) eqn:Hm.
  - exact Hnd.
  - rewrite <- (rev_involutive (keys o ++ [k])%list). apply NoDup_rev.
    rewrite rev_app_distr. simpl. constructor.
    + rewrite <- in_rev. intros Hin. apply mem_In in Hin. congruence.
    + apply NoDup_rev. exact Hnd.
Qed.

Lemma obj_set_fresh k v o : ~ In k (keys o) -> obj_set k v o = (o ++ [(k, v)])%list.
Proof.
  induction o as [|[k0 v0] r IH]; simpl; intros Hn.
  - reflexivity.
  - destruct (String.eqb_spec k k0) as [->|Hne].
    + exfalso. apply Hn. left. reflexivity.
    + rewrite IH; [reflexivity|]. intros Hin. apply Hn. right. exact Hin.
Qed.

Lemma Forall_entries_obj_set (P : string * jsval -> Prop) k v o :
  P (k, v) -> Forall P o -> Forall P (obj_set k v o).
Proof.
  intros Hv Ho. induction Ho as [|[k0 v0] r H0 Hr IH]; simpl.
  - constructor; [exact Hv | constructor].
  - destruct (String.eqb k k0); constructor; auto.
Qed.

(** Assigning the entries of an object with distinct keys, in order, to an
    object that has none of these keys appends them. *)
Lemma assign_all_fresh (step : list (string * jsval) -> string * jsval -> list (string * jsval))
  (entries : list (string * jsval)) :
  Forall (fun kv => forall acc, step acc kv = obj_set (fst kv) (snd kv) acc) entries ->
  NoDup (keys entries) ->
  forall acc, (forall k, In k (keys entries) -> ~ In k (keys acc)) ->
  fold_left step entries acc = (acc ++ entries)%list.
Proof.
  induction 1 as [|[k v] r Hkv Hr IH]; intros Hnd acc Hdisj; simpl.
  - symmetry. apply app_nil_r.
  - simpl in Hnd. inversion Hnd as [|? ? Hnotin Hnd']; subst.
    rewrite Hkv. simpl. rewrite obj_set_fresh by (apply Hdisj; left; reflexivity).
    rewrite IH.
    + rewrite <- app_assoc. reflexivity.
    + exact Hnd'.
    + intros k' Hin. unfold keys. rewrite map_app. simpl. intros Hin'.
      apply in_app_or in Hin'. destruct Hin' as [Hin'|[<-|[]]].
      * apply (Hdisj k'); [right; exact Hin | exact Hin'].
      * exact (Hnotin Hin).
Qed.

(** ** Pruning and renaming, applied again *)

Lemma prune_NoDup own : forall acc,
  NoDup (keys acc) -> NoDup (keys (fold_left prune_step own acc)).
Proof.
  induction own as [|kv r IH]; intros acc Hnd; simpl; [exact Hnd|].
  apply IH. unfold prune_step. destruct (defined (removeEmpty (snd kv))).
  - apply NoDup_keys_obj_set. exact Hnd.
  - exact Hnd.
Qed.

Lemma prune_values (P : jsval -> Prop) own :
  Forall (fun kv => defined (removeEmpty (snd kv)) = true -> P (removeEmpty (snd kv))) own ->
  forall acc, Forall (fun kv => P (snd kv)) acc ->
  Forall (fun kv => P (snd kv)) (fold_left prune_step own acc).
Proof.
  induction 1 as [|kv r Hkv Hr IH]; intros acc Hacc; simpl; [exact Hacc|].
  apply IH. unfold prune_step.
  destruct (defined (removeEmpty (snd kv))) eqn:Hd; [|exact Hacc].
  apply (Forall_obj_set P); [apply Hkv; reflexivity | exact Hacc].
Qed.

Lemma removeEmpty_defined v : defined (removeEmpty v) = true \/ removeEmpty v = VUndefined.
Proof.
  destruct (removeEmpty_clean v) as [Hu|Hc]; [right; exact Hu|].
  left. destruct (removeEmpty v); try reflexivity; discriminate.
Qed.

(** X6. Pruning is idempotent: pruning a pruned tree changes nothing. *)
Theorem X6_removeEmpty_idempotent (v : jsval) :
  removeEmpty (removeEmpty v) = removeEmpty v.
Proof.
  induction v as [| |b|n|x|s|items IH|proto own IH|] using jsval_ind; try reflexivity.
  - simpl.
    destruct (0 <? List.length (filter defined (map removeEmpty items)))%nat eqn:Hlen;
      [|reflexivity].
    assert (Hfix : map removeEmpty (filter defined (map removeEmpty items)) =
                   filter defined (map removeEmpty items)).
    { clear Hlen. induction IH as [|x r Hx Hr IHr]; simpl; [reflexivity|].
      destruct (defined (removeEmpty x)) eqn:Hd; simpl; [|exact IHr].
      rewrite Hx, IHr. reflexivity. }
    simpl. rewrite Hfix.
    assert (Hfilter : forall l, filter defined (filter defined l) = filter defined l).
    { induction l as [|x r IHr]; simpl; [reflexivity|].
      destruct (defined x) eqn:Hd; simpl; [rewrite Hd, IHr|]; auto. }
    rewrite Hfilter, Hlen. reflexivity.
  - rewrite removeEmpty_obj. cbv zeta.
    destruct (0 <? List.length (keys (fold_left prune_step own [])))%nat eqn:Hlen;
      [|reflexivity].
    rewrite removeEmpty_obj. cbv zeta.
    assert (Hagain : fold_left prune_step (fold_left prune_step own []) [] =
                     fold_left prune_step own []).
    { apply (assign_all_fresh prune_step).
      - eapply Forall_impl;
          [|apply (prune_values
                     (fun x => forall k acc, prune_step acc (k, x) = obj_set k x acc));
            [|constructor]].
        { intros [k x] Hx acc. apply Hx. }
        apply Forall_forall. intros kv Hin Hd k acc.
        rewrite Forall_forall in IH. unfold prune_step. simpl.
        rewrite (IH kv Hin), Hd. reflexivity.
      - apply prune_NoDup. constructor.
      - intros k _ []. }
    rewrite Hagain, Hlen. reflexivity.
Qed.

Lemma camelToSnake_fixed s :
  camelToSnake s = s <-> all_chars (fun c => negb (is_upper c)) s = true.
Proof.
  split.
  - intros Hfix. rewrite <- Hfix. apply camelToSnake_no_upper.
  - induction s as [|c r IH]; simpl; [reflexivity|].
    destruct (is_upper c); simpl; [discriminate|].
    intros Hr. rewrite (IH Hr). reflexivity.
Qed.

Lemma rename_NoDup own : forall acc,
  NoDup (keys acc) -> NoDup (keys (fold_left rename_step own acc)).
Proof.
  induction own as [|kv r IH]; intros acc Hnd; simpl; [exact Hnd|].
  apply IH. unfold rename_step. apply NoDup_keys_obj_set. exact Hnd.
Qed.

Lemma rename_entries (P : string * jsval -> Prop) own :
  Forall (fun kv => P (camelToSnake (fst kv), transformKeys (snd kv))) own ->
  forall acc, Forall P acc -> Forall P (fold_left rename_step own acc).
Proof.
  induction 1 as [|kv r Hkv Hr IH]; intros acc Hacc; simpl; [exact Hacc|].
  apply IH. unfold rename_step. apply Forall_entries_obj_set; assumption.
Qed.

(** X7. Key renaming is idempotent: a key without uppercase letters is left
    as it is, every renamed key is such a key, and renaming the keys of a
    renamed tree changes nothing. *)
Theorem X7_transformKeys_idempotent :
  (forall s, camelToSnake s = s <-> all_chars (fun c => negb (is_upper c)) s = true)
  /\ (forall s, camelToSnake (camelToSnake s) = camelToSnake s)
  /\ (forall v, transformKeys (transformKeys v) = transformKeys v).
Proof.
  split; [exact camelToSnake_fixed|].
  assert (Hkey : forall s, camelToSnake (camelToSnake s) = camelToSnake s)
    by (intros s; apply camelToSnake_fixed, camelToSnake_no_upper).
  split; [exact Hkey|].
  intros v.
  induction v as [| |b|n|x|s|items IH|proto own IH|] using jsval_ind; try reflexivity.
  - simpl. f_equal. rewrite map_map. apply map_ext_in.
    intros x Hx. rewrite Forall_forall in IH. exact (IH x Hx).
  - rewrite transformKeys_obj. rewrite transformKeys_obj. f_equal.
    apply (assign_all_fresh rename_step).
    + apply (@rename_entries
               (fun kv => forall acc, rename_step acc kv = obj_set (fst kv) (snd kv) acc));
        [|constructor].
      apply Forall_forall. intros kv Hin acc.
      rewrite Forall_forall in IH. unfold rename_step. simpl.
      rewrite Hkey, (IH kv Hin). reflexivity.
    + apply rename_NoDup. constructor.
    + intros k _ [].
Qed.

Lemma rename_not_nil own : forall acc,
  (0 <? List.length acc)%nat || (0 <? List.length own)%nat = true ->
  (0 <? List.length (fold_left rename_step own acc))%nat = true.
Proof.
  induction own as [|kv r IH]; intros acc Hne; simpl.
  - simpl in Hne. rewrite orb_false_r in Hne. exact Hne.
  - apply IH. unfold rename_step.
    destruct (obj_set (camelToSnake (fst kv)) (transformKeys (snd kv)) acc) eqn:Hset.
    + destruct acc as [|[k0 v0] acc']; simpl in Hset;
        [|destruct (String.eqb _ k0)]; discriminate.
    + reflexivity.
Qed.

Lemma transformKeys_clean v : clean v = true -> clean (transformKeys v) = true.
Proof.
  induction v as [| |b|n|x|s|items IH|proto own IH|] using jsval_ind; try (simpl; congruence).
  - simpl. intros Hc. apply andb_prop in Hc. destruct Hc as [Hlen Hall].
    rewrite length_map, Hlen. simpl.
    rewrite forallb_forall in *. intros y Hy. apply in_map_iff in Hy.
    destruct Hy as (x & <- & Hx). rewrite Forall_forall in IH. auto.
  - rewrite transformKeys_obj. simpl. intros Hc.
    apply andb_prop in Hc. destruct Hc as [Hlen Hall].
    rewrite rename_not_nil by (rewrite Hlen; apply orb_true_r). simpl.
    apply forallb_forall. apply Forall_forall.
    apply (@rename_entries (fun kv => clean (snd kv) = true)); [|constructor].
    apply Forall_forall. intros kv Hin. simpl.
    rewrite Forall_forall in IH. rewrite forallb_forall in Hall. auto.
Qed.

Lemma transformKeys_lower_keys v : lower_keys (transformKeys v) = true.
Proof.
  induction v as [| |b|n|x|s|items IH|proto own IH|] using jsval_ind; try reflexivity.
  - simpl. apply forallb_forall. intros y Hy. apply in_map_iff in Hy.
    destruct Hy as (x & <- & Hx). rewrite Forall_forall in IH. auto.
  - rewrite transformKeys_obj. simpl. apply forallb_forall. apply Forall_forall.
    apply (@rename_entries
             (fun kv => all_chars (fun c => negb (is_upper c)) (fst kv) &&
                        lower_keys (snd kv) = true)); [|constructor].
    apply Forall_forall. intros kv Hin. simpl.
    rewrite camelToSnake_no_upper. rewrite Forall_forall in IH.
    simpl. exact (IH kv Hin).
Qed.

(** X8. The tree that either serializer hands to the printer,
    [transformKeys (removeEmpty obj)], is either [undefined] or a tree
    without [null], [undefined] or an empty array or object at any depth,
    and no key of it has an uppercase letter. *)
Theorem X8_printer_input (obj : jsval) :
  let tree := transformKeys (removeEmpty obj) in
  (tree = VUndefined \/ clean tree = true) /\ lower_keys tree = true.
Proof.
  cbv zeta. split; [|apply transformKeys_lower_keys].
  destruct (removeEmpty_clean obj) as [-> | Hc].
  - left. reflexivity.
  - right. apply transformKeys_clean. exact Hc.
Qed.

Lemma camelToSnake_never_isSecret k : camelToSnake k <> "isSecret".
Proof.
  intros Heq. pose proof (camelToSnake_no_upper k) as Hno.
  rewrite Heq in Hno. discriminate.
Qed.

(** X9. After key renaming no value is recognised as deferred any more: a
    renamed key is never [isSecret], so on the path without resolution a
    deferred value reaches the printer as an ordinary mapping. *)
Theorem X9_renamed_tree_has_no_deferred (v : jsval) :
  has_deferred (transformKeys v) = false.
Proof.
  induction v as [| |b|n|x|s|items IH|proto own IH|] using jsval_ind; try reflexivity.
  - simpl. destruct (existsb has_deferred (map transformKeys items)) eqn:Hex;
      [|reflexivity].
    apply existsb_exists in Hex. destruct Hex as (y & Hy & Hd).
    apply in_map_iff in Hy. destruct Hy as (x & <- & Hx).
    rewrite Forall_forall in IH. rewrite (IH x Hx) in Hd. discriminate.
  - rewrite transformKeys_obj. cbn [has_deferred].
    apply orb_false_iff. split.
    + unfold isPulumiOutput, has_in. simpl.
      destruct (mem "isSecret" (keys (fold_left rename_step own []))) eqn:Hm;
        [|reflexivity].
      apply mem_In in Hm. apply rename_keys in Hm.
      destruct Hm as [[]|(k & _ & Hk)]. symmetry in Hk.
      exfalso. exact (@camelToSnake_never_isSecret k Hk).
    + destruct (existsb _ (fold_left rename_step own [])) eqn:Hex; [|reflexivity].
      apply existsb_exists in Hex. destruct Hex as (kv & Hin & Hd).
      assert (Hall : Forall (fun kv => has_deferred (snd kv) = false)
                       (fold_left rename_step own [])).
      { apply (@rename_entries (fun kv => has_deferred (snd kv) = false)); [|constructor].
        exact IH. }
      rewrite Forall_forall in Hall. rewrite (Hall kv Hin) in Hd. discriminate.
Qed.

(** ** Collection and substitution of deferred values *)

Lemma extract_fold_Forall (Q : OutputRef -> Prop)
  (f : jsval -> list OutputRef -> list OutputRef) items :
  Forall (fun x => forall acc, Forall Q acc -> Forall Q (f x acc)) items ->
  forall acc, Forall Q acc ->
  Forall Q (fold_left (fun outputs item => f item outputs) items acc).
Proof.
  induction 1 as [|x r Hx Hr IH]; intros acc Hacc; simpl; auto.
Qed.

Lemma extract_Forall v : forall acc,
  Forall (fun o => isPulumiOutput (o_value o) = true /\ o_path o = "") acc ->
  Forall (fun o => isPulumiOutput (o_value o) = true /\ o_path o = "")
    (extractPulumiOutputs v acc).
Proof.
  induction v as [| |b|n|x|s|items IH|proto own IH|] using jsval_ind; intros acc Hacc;
    try exact Hacc.
  - simpl. apply (@extract_fold_Forall _ extractPulumiOutputs); assumption.
  - cbn [extractPulumiOutputs].
    destruct (isPulumiOutput (VObj proto own)) eqn:Hd.
    + apply Forall_app. split; [exact Hacc|].
      constructor; [|constructor]. split; [exact Hd | reflexivity].
    + rewrite extract_own_as_items.
      apply (@extract_fold_Forall _ extractPulumiOutputs); [|exact Hacc].
      apply Forall_map. exact IH.
Qed.

(** X10. Every element that [extractPulumiOutputs] collects is a value
    recognised as deferred, recorded with the empty path; a deferred value
    is collected whole, without a search inside it; and nothing is collected
    exactly when the tree holds no deferred value. *)
Theorem X10_extract_collects_deferred (obj : jsval) :
  Forall (fun o => isPulumiOutput (o_value o) = true /\ o_path o = "")
    (extractPulumiOutputs obj [])
  /\ (isPulumiOutput obj = true ->
      extractPulumiOutputs obj [] = [mkOutputRef obj ""])
  /\ (extractPulumiOutputs obj [] = [] <-> has_deferred obj = false).
Proof.
  split; [apply extract_Forall; constructor|]. split; [|apply extract_nil_iff].
  intros Hd. destruct obj; try discriminate.
  cbn [extractPulumiOutputs]. rewrite Hd. reflexivity.
Qed.

(** The loops of [replacePulumiOutputs] over the elements of an array and
    over the own properties of an object. *)
Lemma replace_items (P : jsval -> Prop) same resolvedMap items :
  Forall (fun item => forall n, P (fst (replace_from same item resolvedMap n))) items ->
  forall done : list jsval * nat, Forall P (fst done) ->
  Forall P
    (fst (fold_left
            (fun (done : list jsval * nat) item =>
               let (replaced, n) := replace_from same item resolvedMap (snd done) in
               ((fst done ++ [replaced])%list, n))
            items done)).
Proof.
  induction 1 as [|x r Hx Hr IH]; intros done Hdone; simpl; [exact Hdone|].
  apply IH. specialize (Hx (snd done)).
  destruct (replace_from same x resolvedMap (snd done)) as [replaced n]. simpl in *.
  apply Forall_app. split; [exact Hdone|]. constructor; [exact Hx | constructor].
Qed.

Lemma replace_entries (P : jsval -> Prop) same resolvedMap own :
  Forall (fun kv => forall n, P (fst (replace_from same (snd kv) resolvedMap n))) own ->
  forall done : list (string * jsval) * nat,
  Forall (fun kv => P (snd kv)) (fst done) ->
  Forall (fun kv => P (snd kv))
    (fst (fold_left
            (fun (done : list (string * jsval) * nat) kv =>
               let (replaced, n) := replace_from same (snd kv) resolvedMap (snd done) in
               (obj_set (fst kv) replaced (fst done), n))
            own done)).
Proof.
  induction 1 as [|kv r Hkv Hr IH]; intros done Hdone; simpl; [exact Hdone|].
  apply IH. specialize (Hkv (snd done)).
  destruct (replace_from same (snd kv) resolvedMap (snd done)) as [replaced n].
  simpl in *. apply (Forall_obj_set P); assumption.
Qed.

Lemma replace_keys same resolvedMap own :
  forall (done : list (string * jsval) * nat) k,
  In k (keys (fst (fold_left
                     (fun (done : list (string * jsval) * nat) kv =>
                        let (replaced, n) :=
                          replace_from same (snd kv) resolvedMap (snd done) in
                        (obj_set (fst kv) replaced (fst done), n))
                     own done))) <->
  In k (keys (fst done)) \/ In k (keys own).
Proof.
  induction own as [|[k0 v0] r IH]; intros done k; simpl.
  - tauto.
  - rewrite IH.
    destruct (replace_from same v0 resolvedMap (snd done)) as [replaced n]. simpl.
    rewrite keys_obj_set. intuition (subst; auto).
Qed.

Lemma map_get_plain same j resolvedMap :
  Forall (fun kv => has_deferred (snd kv) = false) resolvedMap ->
  has_deferred (map_get same j resolvedMap) = false.
Proof.
  unfold map_get. intros Hall.
  assert (Hfind : forall i r,
             map_find same j i resolvedMap = Some r -> has_deferred r = false).
  { induction Hall as [|[k0 r0] rest H0 Hrest IH]; simpl; [discriminate|].
    intros i r. destruct (map_find same j (S i) rest) as [found|] eqn:Hrec.
    - intros Heq. injection Heq as <-. apply (IH (S i)). exact Hrec.
    - destruct (same i j); [|discriminate].
      intros Heq. injection Heq as <-. exact H0. }
  destruct (map_find same j 0 resolvedMap) as [r|] eqn:Hr;
    [apply (Hfind 0%nat); exact Hr | reflexivity].
Qed.

Lemma replace_from_plain same resolvedMap :
  Forall (fun kv => has_deferred (snd kv) = false) resolvedMap ->
  forall obj next, has_deferred (fst (replace_from same obj resolvedMap next)) = false.
Proof.
  intros Hmap obj.
  induction obj as [| |b|n|x|s|items IH|proto own IH|] using jsval_ind; intros next;
    try reflexivity.
  - cbn [replace_from isPulumiOutput].
    pose proof (@replace_items (fun v => has_deferred v = false) same resolvedMap
                  items IH ([], next) (Forall_nil _)) as Hall.
    destruct (fold_left _ items ([], next)) as [mapped next']. simpl in *.
    destruct (existsb has_deferred mapped) eqn:Hex; [|reflexivity].
    apply existsb_exists in Hex. destruct Hex as (y & Hy & Hd).
    rewrite Forall_forall in Hall. rewrite (Hall y Hy) in Hd. discriminate.
  - cbn [replace_from].
    destruct (isPulumiOutput (VObj proto own)) eqn:Hd.
    + apply map_get_plain. exact Hmap.
    + pose proof (@replace_entries (fun v => has_deferred v = false) same resolvedMap
                    own IH ([], next) (Forall_nil _)) as Hall.
      pose proof (replace_keys same resolvedMap own ([], next)) as Hkeys.
      destruct (fold_left _ own ([], next)) as [result next']. simpl in *.
      apply orb_false_iff. split.
      * unfold isPulumiOutput, has_in in *. simpl in *.
        rewrite !orb_false_r.
        destruct (mem "isSecret" (keys result)) eqn:H1; [|reflexivity].
        destruct (mem "then" (keys result)) eqn:H2; [|reflexivity].
        apply mem_In in H1. apply mem_In in H2.
        apply Hkeys in H1. apply Hkeys in H2.
        destruct H1 as [[]|H1]. destruct H2 as [[]|H2].
        apply mem_In in H1. apply mem_In in H2.
        rewrite H1, H2 in Hd. discriminate.
      * destruct (existsb _ result) eqn:Hex; [|reflexivity].
        apply existsb_exists in Hex. destruct Hex as (kv & Hin & Hkv).
        rewrite Forall_forall in Hall. rewrite (Hall kv Hin) in Hkv. discriminate.
Qed.

(** The traversal of [replacePulumiOutputs] passes as many deferred values as
    [extractPulumiOutputs] collects, so that the counter of [replace_from]
    runs through the indices of the collected outputs. *)
Lemma replace_items_count same resolvedMap items :
  Forall (fun item => forall n,
            snd (replace_from same item resolvedMap n) =
            (n + List.length (extractPulumiOutputs item []))%nat) items ->
  forall done : list jsval * nat,
  snd (fold_left
         (fun (done : list jsval * nat) item =>
            let (replaced, n) := replace_from same item resolvedMap (snd done) in
            ((fst done ++ [replaced])%list, n))
         items done) =
  (snd done +
   List.length (fold_left (fun outputs item => extractPulumiOutputs item outputs)
                  items []))%nat.
Proof.
  induction 1 as [|x r Hx Hr IH]; intros done; simpl; [lia|].
  rewrite IH. specialize (Hx (snd done)).
  destruct (replace_from same x resolvedMap (snd done)) as [replaced n]. simpl in *.
  assert (Happ : Forall (fun v => forall acc,
                           extractPulumiOutputs v acc =
                           (acc ++ extractPulumiOutputs v [])%list) r)
    by (apply Forall_forall; intros; apply extract_app).
  rewrite (extract_fold_app extractPulumiOutputs Happ (extractPulumiOutputs x [])).
  rewrite length_app. lia.
Qed.

Lemma replace_entries_count same resolvedMap own :
  Forall (fun kv => forall n,
            snd (replace_from same (snd kv) resolvedMap n) =
            (n + List.length (extractPulumiOutputs (snd kv) []))%nat) own ->
  forall done : list (string * jsval) * nat,
  snd (fold_left
         (fun (done : list (string * jsval) * nat) kv =>
            let (replaced, n) := replace_from same (snd kv) resolvedMap (snd done) in
            (obj_set (fst kv) replaced (fst done), n))
         own done) =
  (snd done +
   List.length (fold_left (fun outputs kv => extractPulumiOutputs (snd kv) outputs)
                  own []))%nat.
Proof.
  induction 1 as [|kv r Hkv Hr IH]; intros done; simpl; [lia|].
  rewrite IH. specialize (Hkv (snd done)).
  destruct (replace_from same (snd kv) resolvedMap (snd done)) as [replaced n].
  simpl in *. rewrite !extract_own_as_items.
  assert (Happ : Forall (fun v => forall acc,
                           extractPulumiOutputs v acc =
                           (acc ++ extractPulumiOutputs v [])%list) (map snd r))
    by (apply Forall_forall; intros; apply extract_app).
  rewrite (extract_fold_app extractPulumiOutputs Happ
             (extractPulumiOutputs (snd kv) [])).
  rewrite length_app. lia.
Qed.

Lemma replace_from_count same resolvedMap obj : forall next,
  snd (replace_from same obj resolvedMap next) =
  (next + List.length (extractPulumiOutputs obj []))%nat.
Proof.
  induction obj as [| |b|n|x|s|items IH|proto own IH|] using jsval_ind; intros next;
    try (simpl; lia).
  - cbn [replace_from extractPulumiOutputs isPulumiOutput].
    pose proof (@replace_items_count same resolvedMap items IH ([], next)) as Hcount.
    destruct (fold_left _ items ([], next)) as [mapped next']. exact Hcount.
  - cbn [replace_from extractPulumiOutputs].
    destruct (isPulumiOutput (VObj proto own)); [simpl; lia|].
    pose proof (@replace_entries_count same resolvedMap own IH ([], next)) as Hcount.
    destruct (fold_left _ own ([], next)) as [result next']. exact Hcount.
Qed.

(** X11. When every resolved value in the map is free of deferred values,
    the tree that [replacePulumiOutputs] returns holds no deferred value,
    whichever of the collected outputs are the same object (an output that
    is missing from the map is replaced by [undefined]). *)
Theorem X11_replace_removes_deferred (same : nat -> nat -> bool) (obj : jsval)
  (resolvedMap : list (jsval * jsval)) :
  Forall (fun kv => has_deferred (snd kv) = false) resolvedMap ->
  has_deferred (replacePulumiOutputs same obj resolvedMap) = false.
Proof.
  intros Hmap. unfold replacePulumiOutputs. apply replace_from_plain. exact Hmap.
Qed.

(** X12. The asynchronous serializer never raises an error of its own: an
    error it returns is the printer's error on the pruned and renamed,
    unresolved tree.  So when the printer accepts that tree, [toYAML]
    returns a text whatever the resolution backend does. *)
Theorem X12_toYAML_fails_only_with_printer
  (dump : jsval -> result string)
  (pulumi : option (list jsval -> result (list jsval)))
  (same : nat -> nat -> bool) (obj : jsval) :
  (forall e, toYAML dump pulumi same obj = Err e ->
             dump (transformKeys (removeEmpty obj)) = Err e)
  /\ (forall text, dump (transformKeys (removeEmpty obj)) = Ok text ->
                   exists text', toYAML dump pulumi same obj = Ok text').
Proof.
  unfold toYAML.
  destruct (0 <? List.length (extractPulumiOutputs obj []))%nat.
  - unfold try_catch.
    match goal with
    | |- context [match ?body with Ok _ => _ | Err _ => _ end] => destruct body as [s|e']
    end.
    + split; [discriminate | eauto].
    + split; [auto | eauto].
  - split; [auto | eauto].
Qed.

(** ** The validate helpers *)

Lemma validate_parse {A} (schema : ZodType A) input :
  match parse schema input with
  | Ok a => validate schema input = Ok a
  | Err (ZodError issues) => validate schema input = Err (fromZodError issues)
  | Err _ => False
  end.
Proof.
  unfold parse, validate. destruct (schema input) as [[|i errs] [a|]]; reflexivity.
Qed.

(** X13. [validate] accepts exactly what [parse] accepts, with the same
    data.  When [parse] throws, [validate] throws a [ValidationError] built
    from the first issue only: its field is the issue's path joined by dots
    ([unknown] for an empty path), its constraint is the issue's message
    ([Validation failed] for an empty one), and its value is what the issue
    received ([undefined] for an issue that records nothing).  So the value
    is the rejected input itself after an enum mismatch, the name of the
    received type after a type mismatch, and [undefined] after a failed
    refinement. *)
Theorem X13_validate_reports_first_issue :
  (forall (A : Type) (schema : ZodType A) input a,
     validate schema input = Ok a <-> parse schema input = Ok a)
  /\ (forall (A : Type) (schema : ZodType A) input i rest,
        parse schema input = Err (ZodError (i :: rest)) ->
        validate schema input =
        Err (ValidationError
               (match path i with [] => "unknown" | _ => String.concat "." (path i) end)
               (match received i with Some r => r | None => VUndefined end)
               (match message i with EmptyString => "Validation failed" | m => m end)))
  /\ (forall options s,
        mem s options = false ->
        validate (z_enum options) (VStr s) =
        Err (ValidationError "unknown" (VStr s)
               ("Invalid enum value. Expected " ++ enum_list options ++
                ", received '" ++ s ++ "'")))
  /\ (forall v,
        v <> VUndefined -> (forall s, v <> VStr s) ->
        validate z_string v =
        Err (ValidationError "unknown" (VStr (parsedType v))
               ("Expected string, received " ++ parsedType v)))
  /\ (forall (p : string -> bool) msg s,
        p s = false -> msg <> "" ->
        validate (refine p msg z_string) (VStr s) =
        Err (ValidationError "unknown" VUndefined msg)).
Proof.
  split; [|split; [|split; [|split]]].
  - intros A schema input a. pose proof (validate_parse schema input) as H.
    destruct (parse schema input) as [a'|[issues| | |]]; try contradiction;
      rewrite H; split; intros Heq; try discriminate; exact Heq.
  - intros A schema input i rest Hp. pose proof (validate_parse schema input) as H.
    rewrite Hp in H. rewrite H. unfold fromZodError.
    destruct (path i); destruct (message i); reflexivity.
  - intros options s Hm. unfold validate, z_enum. rewrite Hm. reflexivity.
  - intros v Hu Hs. destruct v as [| | | |[| |]| | | |]; try reflexivity.
    + contradiction.
    + exfalso. apply (Hs s). reflexivity.
  - intros p msg s Hp Hmsg. unfold validate, refine, check. simpl. rewrite Hp.
    simpl. destruct msg; [contradiction | reflexivity].
Qed.

Lemma fromZodError_kind issues :
  exists field rejected constraint,
    fromZodError issues = ValidationError field rejected constraint.
Proof. unfold fromZodError. destruct issues; eauto. Qed.

Lemma validate_cases {A} (schema : ZodType A) input prefix :
  (exists a, validate schema input = Ok a
             /\ validateWithPrefix schema input prefix = Ok a)
  \/ (exists field rejected constraint,
        validate schema input = Err (ValidationError field rejected constraint)
        /\ validateWithPrefix schema input prefix =
           Err (ValidationError (prefix ++ "." ++ field) rejected constraint)).
Proof.
  unfold validate, validateWithPrefix.
  destruct (schema input) as [errs o].
  assert (Hfail : exists field rejected constraint,
            Err (A := A) (fromZodError errs) =
              Err (ValidationError field rejected constraint)
            /\ match fromZodError errs with
               | ValidationError field rejected constraint =>
                   Err (A := A)
                     (ValidationError (prefix ++ "." ++ field) rejected constraint)
               | e => Err e
               end = Err (ValidationError (prefix ++ "." ++ field) rejected constraint)).
  { destruct (fromZodError_kind errs) as (f & r & c & ->). eauto 6. }
  destruct errs as [|i errs]; [destruct o as [a|]|]; [left; eauto | right; exact Hfail
                                                      | right; exact Hfail].
Qed.

(** X14. [validateWithPrefix] accepts exactly what [validate] accepts, and
    its error is the error of [validate] with the prefix and a dot put
    before the field. *)
Theorem X14_validateWithPrefix_prefixes {A : Type}
  (schema : ZodType A) (input : jsval) (prefix : string) :
  (forall a, validateWithPrefix schema input prefix = Ok a <->
             validate schema input = Ok a)
  /\ (forall field rejected constraint,
        validate schema input = Err (ValidationError field rejected constraint) ->
        validateWithPrefix schema input prefix =
        Err (ValidationError (prefix ++ "." ++ field) rejected constraint))
  /\ (forall e, validateWithPrefix schema input prefix = Err e ->
                is_ValidationError e = true).
Proof.
  destruct (validate_cases schema input prefix)
    as [(a & Hv & Hp) | (f & r & c & Hv & Hp)]; rewrite Hv, Hp.
  - split; [|split].
    + intros a'. tauto.
    + discriminate.
    + discriminate.
  - split; [|split].
    + intros a'. split; discriminate.
    + intros field rejected constraint Heq. injection Heq as -> -> ->. reflexivity.
    + intros e Heq. injection Heq as <-. reflexivity.
Qed.

(** ** The string checks of the schemas *)

Lemma rev_append_length s : forall acc,
  String.length (rev_append s acc) = (String.length s + String.length acc)%nat.
Proof.
  induction s as [|c r IH]; intros acc; simpl; [reflexivity|].
  rewrite IH. simpl. lia.
Qed.

Lemma rev_append_all_chars p s : forall acc,
  all_chars p (rev_append s acc) = all_chars p s && all_chars p acc.
Proof.
  induction s as [|c r IH]; intros acc; simpl; [reflexivity|].
  rewrite IH. simpl. destruct (p c); destruct (all_chars p r); reflexivity.
Qed.

Lemma trimStart_empty s :
  (0 <? String.length (trimStart s))%nat = negb (all_chars is_ws s).
Proof.
  induction s as [|c r IH]; simpl; [reflexivity|].
  destruct (is_ws c); simpl; [exact IH | reflexivity].
Qed.

Lemma trimStart_all_ws s :
  all_chars is_ws (trimStart s) = all_chars is_ws s.
Proof.
  induction s as [|c r IH]; simpl; [reflexivity|].
  destruct (is_ws c) eqn:Hc; simpl; [exact IH | rewrite Hc; reflexivity].
Qed.

Lemma nonblank_spec s : nonblank s = negb (all_chars is_ws s).
Proof.
  unfold nonblank, trim, trimEnd, reverse.
  rewrite rev_append_length. simpl. rewrite Nat.add_0_r.
  rewrite trimStart_empty, rev_append_all_chars. simpl.
  rewrite andb_true_r. rewrite trimStart_all_ws. reflexivity.
Qed.

(** X15. The check [val.trim().length > 0] passes exactly for a string with
    at least one character that is not white space (tab, line feed,
    vertical tab, form feed, carriage return, space, no-break space); the
    empty string and strings of white space only fail it. *)
Theorem X15_nonblank_is_some_visible_character (s : string) :
  nonblank s = negb (all_chars is_ws s)
  /\ (nonblank s = true <->
      exists before c after,
        s = before ++ String c after /\ is_ws c = false).
Proof.
  split; [apply nonblank_spec|].
  rewrite nonblank_spec. split.
  - induction s as [|c r IH]; simpl; [discriminate|].
    destruct (is_ws c) eqn:Hc; simpl.
    + intros Hr. destruct (IH Hr) as (before & c' & after & -> & Hc').
      exists (String c before), c', after. split; [reflexivity | exact Hc'].
    + intros _. exists "", c, r. split; [reflexivity | exact Hc].
  - intros (before & c & after & -> & Hc).
    induction before as [|b r IH]; simpl.
    + rewrite Hc. reflexivity.
    + destruct (is_ws b); simpl; [exact IH | reflexivity].
Qed.

Lemma all_repo_chars_app a b :
  all_repo_chars (a ++ b) = all_repo_chars a && all_repo_chars b.
Proof.
  induction a as [|c r IH]; simpl; [reflexivity|].
  rewrite IH. apply andb_assoc.
Qed.

Lemma repo_pattern_from_spec s : forall seen,
  repo_pattern_from s seen = true <->
  exists owner repo,
    s = owner ++ String "/" repo
    /\ all_repo_chars owner = true
    /\ (0 < seen + String.length owner)%nat
    /\ (0 < String.length repo)%nat
    /\ all_repo_chars repo = true.
Proof.
  induction s as [|c r IH]; intros seen; simpl.
  - split; [discriminate|]. intros (owner & repo & Heq & _).
    destruct owner; discriminate.
  - destruct (repo_char c) eqn:Hc.
    + rewrite IH. split.
      * intros (owner & repo & -> & Ho & Hlen & Hr & Hrc).
        exists (String c owner), repo. simpl. rewrite Hc, Ho.
        repeat split; try assumption. lia.
      * intros (owner & repo & Heq & Ho & Hlen & Hr & Hrc).
        destruct owner as [|c' owner']; simpl in Heq; inversion Heq; subst.
        { vm_compute in Hc. discriminate. }
        simpl in Ho. rewrite Hc in Ho. simpl in *.
        exists owner', repo. repeat split; try assumption. lia.
    + destruct (Ascii.eqb_spec c "/") as [->|Hne]; simpl.
      * rewrite !andb_true_iff, !Nat.ltb_lt. split.
        -- intros [[Hseen Hlen] Hrc]. exists "", r. simpl.
           repeat split; try assumption. lia.
        -- intros (owner & repo & Heq & Ho & Hlen & Hr & Hrc).
           destruct owner as [|c' owner']; simpl in Heq; inversion Heq; subst.
           ++ simpl in Hlen. repeat split; try assumption. lia.
           ++ simpl in Ho. discriminate.
      * split; [discriminate|].
        intros (owner & repo & Heq & Ho & _).
        destruct owner as [|c' owner']; simpl in Heq; inversion Heq; subst.
        -- congruence.
        -- simpl in Ho. rewrite Hc in Ho. discriminate.
Qed.

(** X16. The repository pattern matches exactly the strings of the form
    [owner/repo] in which owner and repo are non-empty and made of letters,
    digits, underscores and hyphens only: a string without a slash, with two
    or more slashes, or with a leading or trailing slash does not match. *)
Theorem X16_repo_pattern_is_owner_slash_repo (s : string) :
  GITHUB_REPO_PATTERN s = true <->
  exists owner repo,
    s = owner ++ String "/" repo
    /\ (0 < String.length owner)%nat /\ all_repo_chars owner = true
    /\ (0 < String.length repo)%nat /\ all_repo_chars repo = true.
Proof.
  unfold GITHUB_REPO_PATTERN. rewrite repo_pattern_from_spec. simpl.
  split; intros (owner & repo & H1 & H2 & H3 & H4 & H5); exists owner, repo; auto.
Qed.

(** ** What the constructors accept *)

Lemma z_default_given_or {A} d (t : ZodType A) v : z_default d t v = t (given_or d v).
Proof. destruct v; reflexivity. Qed.

(** Inversion of the parsed fields down to the value each one read. *)
Ltac reads :=
  unfold refine, port_range, HealthCheck.at_least, z_min, z_max, z_minLength,
    EnvVarType, EnvVarScope, DockerRegistryType in *;
  repeat match goal with
    | H : z_default _ _ _ = OK _ |- _ => rewrite z_default_given_or in H
    | H : integer _ _ = OK _ |- _ => apply integer_OK in H
    | H : z_int _ _ = OK _ |- _ => apply z_int_OK in H; destruct H as [H _]
    | H : check _ _ _ _ _ = OK _ |- _ => apply check_OK in H; destruct H as [H ?]
    | H : z_enum _ _ = OK _ |- _ => apply z_enum_OK in H; destruct H as [H ?]
    | H : z_string _ = OK _ |- _ => apply z_string_OK in H
    | H : z_number _ = OK _ |- _ => apply z_number_OK in H
    | H : z_boolean _ = OK _ |- _ => apply z_boolean_OK in H
    | H : z_any _ = OK _ |- _ => injection H as H
    end;
  cbv beta in *.

Lemma HealthCheck_new_reads cfg h :
  HealthCheck.new cfg = Ok h ->
  get_prop "httpPath" cfg = VStr (HealthCheck.httpPath h)
  /\ get_prop "port" cfg = VNum (HealthCheck.port h)
  /\ given_or (VNum 0) (get_prop "initialDelaySeconds" cfg)
     = VNum (HealthCheck.initialDelaySeconds h)
  /\ given_or (VNum 10) (get_prop "periodSeconds" cfg)
     = VNum (HealthCheck.periodSeconds h)
  /\ given_or (VNum 1) (get_prop "timeoutSeconds" cfg)
     = VNum (HealthCheck.timeoutSeconds h)
  /\ given_or (VNum 1) (get_prop "successThreshold" cfg)
     = VNum (HealthCheck.successThreshold h)
  /\ given_or (VNum 3) (get_prop "failureThreshold" cfg)
     = VNum (HealthCheck.failureThreshold h).
Proof.
  unfold HealthCheck.new. intros H.
  apply bind_Ok in H. destruct H as (data & Hp & Heq). injection Heq as <-.
  unfold HealthCheck.Schema in Hp. parsed. reads. simpl. repeat split; assumption.
Qed.

Lemma HealthCheck_valid_spec h :
  HealthCheck_valid h = true <->
  nonblank (HealthCheck.httpPath h) = true
  /\ 1 <= HealthCheck.port h <= 65535
  /\ 0 <= HealthCheck.initialDelaySeconds h
  /\ 1 <= HealthCheck.periodSeconds h
  /\ 1 <= HealthCheck.timeoutSeconds h
  /\ 1 <= HealthCheck.successThreshold h
  /\ 1 <= HealthCheck.failureThreshold h.
Proof.
  unfold HealthCheck_valid. rewrite !andb_true_iff, !Z.leb_le. tauto.
Qed.

(** What the HealthCheck constructor accepts. *)
Lemma HealthCheck_new_spec (proto : list string)
  (own : list (string * jsval)) (h : HealthCheck.t) (config := VObj proto own) :
  HealthCheck.new config = Ok h <->
  get_prop "httpPath" config = VStr (HealthCheck.httpPath h)
  /\ nonblank (HealthCheck.httpPath h) = true
  /\ get_prop "port" config = VNum (HealthCheck.port h)
  /\ 1 <= HealthCheck.port h <= 65535
  /\ given_or (VNum 0) (get_prop "initialDelaySeconds" config)
     = VNum (HealthCheck.initialDelaySeconds h)
  /\ 0 <= HealthCheck.initialDelaySeconds h
  /\ given_or (VNum 10) (get_prop "periodSeconds" config)
     = VNum (HealthCheck.periodSeconds h)
  /\ 1 <= HealthCheck.periodSeconds h
  /\ given_or (VNum 1) (get_prop "timeoutSeconds" config)
     = VNum (HealthCheck.timeoutSeconds h)
  /\ 1 <= HealthCheck.timeoutSeconds h
  /\ given_or (VNum 1) (get_prop "successThreshold" config)
     = VNum (HealthCheck.successThreshold h)
  /\ 1 <= HealthCheck.successThreshold h
  /\ given_or (VNum 3) (get_prop "failureThreshold" config)
     = VNum (HealthCheck.failureThreshold h)
  /\ 1 <= HealthCheck.failureThreshold h.
Proof.
  split.
  - intros Hnew. pose proof (HealthCheck_new_valid _ Hnew) as Hvalid.
    apply HealthCheck_valid_spec in Hvalid. apply HealthCheck_new_reads in Hnew.
    tauto.
  - intros (H1 & V1 & H2 & V2 & H3 & V3 & H4 & V4 & H5 & V5 & H6 & V6 & H7 & V7).
    rewrite <- (HealthCheck_reconstruct h) by (apply HealthCheck_valid_spec; tauto).
    assert (Hs : HealthCheck.Schema config = HealthCheck.Schema (HealthCheck.toJSON h)).
    { unfold HealthCheck.Schema, z_object, config, prop. fold config.
      rewrite !z_default_given_or, H1, H2, H3, H4, H5, H6, H7. reflexivity. }
    unfold HealthCheck.new, parse. rewrite Hs. reflexivity.
Qed.

(** Checks keep the issues raised before them. *)
Lemma check_keeps {A} c (p : A -> bool) msg (t : ZodType A) v i :
  In i (issues_of (t v)) -> In i (issues_of (check c p msg t v)).
Proof.
  unfold check. destruct (t v) as [errs [a|]]; simpl; [|auto].
  destruct (p a); simpl; [auto|]. intros Hin. apply in_or_app. left. exact Hin.
Qed.

Lemma not_integer_number x :
  In (not_integer_issue [] x) (issues_of (z_int z_number (VFloat x))).
Proof. destruct x; simpl; auto. Qed.

(** A number field that holds a number which is not an integer. *)
Lemma not_integer_field k (chain : ZodType number -> ZodType number) d data x :
  (forall t v i, In i (issues_of (t v)) -> In i (issues_of (chain t v))) ->
  get_prop k data = VFloat x ->
  In (not_integer_issue [k] x)
    (issues_of (prop k (integer (chain (z_int z_number))) data))
  /\ In (not_integer_issue [k] x)
       (issues_of (prop k (z_default d (integer (chain (z_int z_number)))) data)).
Proof.
  intros Hchain Hget.
  assert (Hin : In (not_integer_issue [k] x)
                  (issues_of (at_key k (integer (chain (z_int z_number)) (VFloat x))))).
  { unfold at_key, integer. cbn [issues_of]. apply in_map_iff.
    exists (not_integer_issue [] x). split; [destruct x; reflexivity|].
    apply Hchain. apply not_integer_number. }
  unfold prop, z_default. rewrite Hget. split; exact Hin.
Qed.

(** X17. The HealthCheck constructor accepts a configuration object exactly
    when [httpPath] is a string with a visible character, [port] is an
    integer from 1 to 65535, and each of the five timing fields is either
    omitted or an integer not below its minimum (0 for the initial delay, 1
    for the others); the health check holds the given values, and 0, 10, 1,
    1 and 3 for omitted initial delay, period, timeout, success threshold
    and failure threshold.  A number that is not an integer in one of the
    six number fields is rejected with the issue [Expected integer, received
    float] at that field ([Expected number, received nan] for NaN). *)
Theorem X17_HealthCheck_constructor (proto : list string)
  (own : list (string * jsval)) (config := VObj proto own) :
  (forall h,
     HealthCheck.new config = Ok h <->
     get_prop "httpPath" config = VStr (HealthCheck.httpPath h)
     /\ nonblank (HealthCheck.httpPath h) = true
     /\ get_prop "port" config = VNum (HealthCheck.port h)
     /\ 1 <= HealthCheck.port h <= 65535
     /\ given_or (VNum 0) (get_prop "initialDelaySeconds" config)
        = VNum (HealthCheck.initialDelaySeconds h)
     /\ 0 <= HealthCheck.initialDelaySeconds h
     /\ given_or (VNum 10) (get_prop "periodSeconds" config)
        = VNum (HealthCheck.periodSeconds h)
     /\ 1 <= HealthCheck.periodSeconds h
     /\ given_or (VNum 1) (get_prop "timeoutSeconds" config)
        = VNum (HealthCheck.timeoutSeconds h)
     /\ 1 <= HealthCheck.timeoutSeconds h
     /\ given_or (VNum 1) (get_prop "successThreshold" config)
        = VNum (HealthCheck.successThreshold h)
     /\ 1 <= HealthCheck.successThreshold h
     /\ given_or (VNum 3) (get_prop "failureThreshold" config)
        = VNum (HealthCheck.failureThreshold h)
     /\ 1 <= HealthCheck.failureThreshold h)
  /\ (forall field x,
        In field ["port"; "initialDelaySeconds"; "periodSeconds"; "timeoutSeconds";
                  "successThreshold"; "failureThreshold"] ->
        get_prop field config = VFloat x ->
        exists issues,
          HealthCheck.new config = Err (ZodError issues)
          /\ In (not_integer_issue [field] x) issues).
Proof.
  split; [intros h; apply HealthCheck_new_spec|].
  intros field x Hfield Hget.
  assert (Hin : In (not_integer_issue [field] x) (issues_of (HealthCheck.Schema config))).
  { unfold HealthCheck.Schema, z_object, config. fold config.
    cbn [ap issues_of]. rewrite !in_app_iff.
    unfold port_range, HealthCheck.at_least, z_max, z_min.
    simpl in Hfield.
    destruct Hfield as [<-|[<-|[<-|[<-|[<-|[<-|[]]]]]]].
    - left. left. left. left. left. right.
      apply (@not_integer_field "port"
               (fun t => check "too_big" _ _ (check "too_small" _ _ t)) VNull);
        [|exact Hget].
      intros t v i Hi. apply check_keeps, check_keeps. exact Hi.
    - left. left. left. left. right.
      apply (@not_integer_field "initialDelaySeconds" (fun t => check "too_small" _ _ t));
        [|exact Hget].
      intros t v i Hi. apply check_keeps. exact Hi.
    - left. left. left. right.
      apply (@not_integer_field "periodSeconds" (fun t => check "too_small" _ _ t));
        [|exact Hget].
      intros t v i Hi. apply check_keeps. exact Hi.
    - left. left. right.
      apply (@not_integer_field "timeoutSeconds" (fun t => check "too_small" _ _ t));
        [|exact Hget].
      intros t v i Hi. apply check_keeps. exact Hi.
    - left. right.
      apply (@not_integer_field "successThreshold" (fun t => check "too_small" _ _ t));
        [|exact Hget].
      intros t v i Hi. apply check_keeps. exact Hi.
    - right.
      apply (@not_integer_field "failureThreshold" (fun t => check "too_small" _ _ t));
        [|exact Hget].
      intros t v i Hi. apply check_keeps. exact Hi. }
  exists (issues_of (HealthCheck.Schema config)). split; [|exact Hin].
  unfold HealthCheck.new. rewrite parse_issues; [reflexivity|].
  intros Hnil. rewrite Hnil in Hin. exact Hin.
Qed.

Lemma GitHubSource_new_reads cfg g :
  GitHubSource.new cfg = Ok g ->
  get_prop "repo" cfg = VStr (GitHubSource.repo g)
  /\ get_prop "branch" cfg = VStr (GitHubSource.branch g)
  /\ given_or (VStr "/") (get_prop "sourceDir" cfg) = VStr (GitHubSource.sourceDir g)
  /\ given_or (VStr "Dockerfile") (get_prop "dockerfilePath" cfg)
     = VStr (GitHubSource.dockerfilePath g)
  /\ given_or (VBool false) (get_prop "deployOnPush" cfg)
     = VBool (GitHubSource.deployOnPush g).
Proof.
  unfold GitHubSource.new. intros H.
  apply bind_Ok in H. destruct H as (data & Hp & Heq). injection Heq as <-.
  unfold GitHubSource.Schema in Hp. parsed. reads. simpl. repeat split; assumption.
Qed.

(** X18. The GitHubSource constructor accepts a configuration object exactly
    when [repo] is a string matching the repository pattern, [branch] is a
    string with a visible character, [sourceDir] is omitted or any string,
    [dockerfilePath] is omitted or a string with a visible character, and
    [deployOnPush] is omitted or a boolean; the source holds the given
    values, and [/], [Dockerfile] and [false] for the omitted ones. *)
Theorem X18_GitHubSource_constructor (proto : list string)
  (own : list (string * jsval)) (g : GitHubSource.t) (config := VObj proto own) :
  GitHubSource.new config = Ok g <->
  get_prop "repo" config = VStr (GitHubSource.repo g)
  /\ GITHUB_REPO_PATTERN (GitHubSource.repo g) = true
  /\ get_prop "branch" config = VStr (GitHubSource.branch g)
  /\ nonblank (GitHubSource.branch g) = true
  /\ given_or (VStr "/") (get_prop "sourceDir" config) = VStr (GitHubSource.sourceDir g)
  /\ given_or (VStr "Dockerfile") (get_prop "dockerfilePath" config)
     = VStr (GitHubSource.dockerfilePath g)
  /\ nonblank (GitHubSource.dockerfilePath g) = true
  /\ given_or (VBool false) (get_prop "deployOnPush" config)
     = VBool (GitHubSource.deployOnPush g).
Proof.
  split.
  - intros Hnew. pose proof (GitHubSource_new_valid _ Hnew) as Hvalid.
    unfold GitHubSource_valid in Hvalid. rewrite !andb_true_iff in Hvalid.
    apply GitHubSource_new_reads in Hnew. tauto.
  - intros (H1 & V1 & H2 & V2 & H3 & H4 & V4 & H5).
    rewrite <- (GitHubSource_reconstruct g)
      by (unfold GitHubSource_valid; rewrite V1, V2, V4; reflexivity).
    assert (Hs : GitHubSource.Schema config = GitHubSource.Schema (GitHubSource.toJSON g)).
    { unfold GitHubSource.Schema, z_object, config, prop. fold config.
      rewrite !z_default_given_or, H1, H2, H3, H4, H5. reflexivity. }
    unfold GitHubSource.new, parse. rewrite Hs. reflexivity.
Qed.

Lemma EnvironmentVariable_new_reads cfg e :
  EnvironmentVariable.new cfg = Ok e ->
  get_prop "key" cfg = VStr (EnvironmentVariable.key e)
  /\ get_prop "value" cfg = EnvironmentVariable.value e
  /\ given_or (VStr "GENERAL") (get_prop "type" cfg) = VStr (EnvironmentVariable.type e)
  /\ given_or (VStr "RUN_TIME") (get_prop "scope" cfg)
     = VStr (EnvironmentVariable.scope e).
Proof.
  unfold EnvironmentVariable.new. intros H.
  apply bind_Ok in H. destruct H as (data & Hp & Heq). injection Heq as <-.
  unfold EnvironmentVariable.Schema in Hp. parsed. reads. simpl.
  repeat split; assumption.
Qed.

(** X19. The EnvironmentVariable constructor accepts a configuration object
    exactly when [key] is a string with a visible character, [value] is
    neither [undefined] nor [null], [type] is omitted or one of GENERAL and
    SECRET, and [scope] is omitted or one of RUN_TIME, BUILD_TIME and
    DEPLOY_TIME; the variable holds the key as given (not trimmed), the
    value as given, and GENERAL and RUN_TIME for an omitted type and
    scope. *)
Theorem X19_EnvironmentVariable_constructor (proto : list string)
  (own : list (string * jsval)) (e : EnvironmentVariable.t) (config := VObj proto own) :
  EnvironmentVariable.new config = Ok e <->
  get_prop "key" config = VStr (EnvironmentVariable.key e)
  /\ nonblank (EnvironmentVariable.key e) = true
  /\ get_prop "value" config = EnvironmentVariable.value e
  /\ defined (EnvironmentVariable.value e) = true
  /\ given_or (VStr "GENERAL") (get_prop "type" config)
     = VStr (EnvironmentVariable.type e)
  /\ In (EnvironmentVariable.type e) ["GENERAL"; "SECRET"]
  /\ given_or (VStr "RUN_TIME") (get_prop "scope" config)
     = VStr (EnvironmentVariable.scope e)
  /\ In (EnvironmentVariable.scope e) ["RUN_TIME"; "BUILD_TIME"; "DEPLOY_TIME"].
Proof.
  split.
  - intros Hnew. pose proof (EnvironmentVariable_new_valid _ Hnew) as Hvalid.
    unfold EnvironmentVariable_valid in Hvalid.
    rewrite !andb_true_iff, !mem_In in Hvalid.
    apply EnvironmentVariable_new_reads in Hnew. tauto.
  - intros (H1 & V1 & H2 & V2 & H3 & V3 & H4 & V4).
    apply mem_In in V3. apply mem_In in V4.
    rewrite <- (EnvironmentVariable_reconstruct e)
      by (unfold EnvironmentVariable_valid; rewrite V1, V2, V3, V4; reflexivity).
    assert (Hs : EnvironmentVariable.Schema config =
                 EnvironmentVariable.Schema (EnvironmentVariable.toJSON e)).
    { unfold EnvironmentVariable.Schema, z_object, config, prop. fold config.
      rewrite !z_default_given_or, H1, H2, H3, H4. reflexivity. }
    unfold EnvironmentVariable.new, parse. rewrite Hs. reflexivity.
Qed.

Lemma VolumeMount_new_reads cfg m :
  VolumeMount.new cfg = Ok m ->
  get_prop "name" cfg = VStr (VolumeMount.name m)
  /\ get_prop "mountPath" cfg = VStr (VolumeMount.mountPath m)
  /\ given_or (VStr "1GB") (VolumeMount.nullish_or (get_prop "size" cfg) (VStr "1GB"))
     = VStr (VolumeMount.size m).
Proof.
  unfold VolumeMount.new. intros H.
  apply bind_Ok in H. destruct H as (data & Hp & Heq). injection Heq as <-.
  unfold VolumeMount.Schema in Hp. parsed. reads. simpl in *.
  repeat split; assumption.
Qed.

(** X20. The VolumeMount constructor accepts a configuration exactly when
    [name] is a string with a visible character, [mountPath] is a string
    starting with a slash, and [size] is omitted, [null], or a non-empty
    string; the mount holds the given values, and [1GB] for an omitted or
    [null] size. *)
Theorem X20_VolumeMount_constructor (config : jsval) (m : VolumeMount.t) :
  VolumeMount.new config = Ok m <->
  get_prop "name" config = VStr (VolumeMount.name m)
  /\ nonblank (VolumeMount.name m) = true
  /\ get_prop "mountPath" config = VStr (VolumeMount.mountPath m)
  /\ startsWith "/" (VolumeMount.mountPath m) = true
  /\ match get_prop "size" config with
     | VUndefined | VNull => VolumeMount.size m = "1GB"
     | given => given = VStr (VolumeMount.size m)
     end
  /\ (0 < String.length (VolumeMount.size m))%nat.
Proof.
  split.
  - intros Hnew. pose proof (VolumeMount_new_valid _ Hnew) as Hvalid.
    unfold VolumeMount_valid in Hvalid. rewrite !andb_true_iff in Hvalid.
    destruct Hvalid as [[V1 V2] V3]. apply Nat.leb_le in V3.
    apply VolumeMount_new_reads in Hnew. destruct Hnew as (H1 & H2 & H3).
    split; [exact H1|]. split; [exact V1|]. split; [exact H2|]. split; [exact V2|].
    split; [|lia].
    unfold VolumeMount.nullish_or in H3.
    destruct (get_prop "size" config); simpl in H3; congruence.
  - intros (H1 & V1 & H2 & V2 & H3 & V3).
    assert (V3' : (1 <=? String.length (VolumeMount.size m))%nat = true)
      by (apply Nat.leb_le; lia).
    rewrite <- (VolumeMount_reconstruct m)
      by (unfold VolumeMount_valid; rewrite V1, V2, V3'; reflexivity).
    unfold VolumeMount.new, VolumeMount.toJSON. simpl get_prop.
    rewrite H1, H2. f_equal. f_equal. unfold literal. f_equal.
    do 3 f_equal. unfold VolumeMount.nullish_or.
    destruct (get_prop "size" config); simpl; congruence.
Qed.

Lemma DockerImage_new_reads cfg d :
  DockerImage.new cfg = Ok d ->
  get_prop "repository" cfg = VStr (DockerImage.repository d)
  /\ get_prop "tag" cfg = VStr (DockerImage.tag d).
Proof.
  unfold DockerImage.new. intros H.
  apply bind_Ok in H. destruct H as (data & Hp & Heq). injection Heq as <-.
  unfold DockerImage.Schema in Hp. parsed. reads. simpl. split; assumption.
Qed.

Lemma DockerImage_valid_spec d :
  DockerImage_valid d = true <->
  In (DockerImage.registryType d) ["DOCKER_HUB"; "DOCR"; "GHCR"]
  /\ (forall r, DockerImage.registry d = Some r -> nonblank r = true)
  /\ (DockerImage.registryType d = "DOCR" -> DockerImage.registry d <> None)
  /\ nonblank (DockerImage.repository d) = true
  /\ nonblank (DockerImage.tag d) = true.
Proof.
  unfold DockerImage_valid, DockerImage.docr_rule.
  rewrite !andb_true_iff, mem_In.
  destruct (String.eqb_spec (DockerImage.registryType d) "DOCR") as [Hd|Hd];
    destruct (DockerImage.registry d) as [r|]; split.
  - intros ((((H1 & H2) & H3) & H4) & H5). repeat split; try assumption.
    + intros r' Heq. injection Heq as <-. exact H2.
    + discriminate.
  - intros (H1 & H2 & H3 & H4 & H5). repeat split; auto.
  - intros ((((H1 & H2) & H3) & H4) & H5). discriminate.
  - intros (H1 & H2 & H3 & H4 & H5). exfalso. apply (H3 Hd). reflexivity.
  - intros ((((H1 & H2) & H3) & H4) & H5). repeat split; try assumption.
    + intros r' Heq. injection Heq as <-. exact H2.
    + discriminate.
  - intros (H1 & H2 & H3 & H4 & H5). repeat split; auto.
  - intros ((((H1 & H2) & H3) & H4) & H5). repeat split; try assumption.
    + discriminate.
    + intros Heq. contradiction.
  - intros (H1 & H2 & H3 & H4 & H5). repeat split; auto.
Qed.

(** X21. The DockerImage constructor accepts a configuration object exactly
    when [registryType] is one of DOCKER_HUB, DOCR and GHCR, [registry] is
    omitted or a string with a visible character (for every registry type)
    and is not omitted for DOCR, and [repository] and [tag] are strings with
    a visible character; the image holds the values as given. *)
Theorem X21_DockerImage_constructor (proto : list string)
  (own : list (string * jsval)) (d : DockerImage.t) (config := VObj proto own) :
  DockerImage.new config = Ok d <->
  get_prop "registryType" config = VStr (DockerImage.registryType d)
  /\ In (DockerImage.registryType d) ["DOCKER_HUB"; "DOCR"; "GHCR"]
  /\ get_prop "registry" config = registry_input (DockerImage.registry d)
  /\ (forall r, DockerImage.registry d = Some r -> nonblank r = true)
  /\ (DockerImage.registryType d = "DOCR" -> DockerImage.registry d <> None)
  /\ get_prop "repository" config = VStr (DockerImage.repository d)
  /\ nonblank (DockerImage.repository d) = true
  /\ get_prop "tag" config = VStr (DockerImage.tag d)
  /\ nonblank (DockerImage.tag d) = true.
Proof.
  split.
  - intros Hnew. pose proof (DockerImage_new_fields _ Hnew) as (H1 & H2 & Hvalid).
    apply DockerImage_valid_spec in Hvalid. apply DockerImage_new_reads in Hnew.
    tauto.
  - intros (H1 & V1 & H2 & V2 & V3 & H3 & V4 & H4 & V5).
    assert (Hvalid : DockerImage_valid d = true)
      by (apply DockerImage_valid_spec; tauto).
    assert (Hs : DockerImage.Schema config = mkParse (DockerImage_issues d) (Some d))
      by (apply DockerImage_Schema_typed; try assumption; apply mem_In; exact V1).
    unfold config. rewrite (@DockerImage_new_issues proto own d Hs).
    unfold DockerImage_valid in Hvalid. rewrite !andb_true_iff in Hvalid.
    destruct Hvalid as ((((_ & Hr) & _) & _) & Hrule).
    unfold DockerImage_issues, blank_issue. rewrite V4, V5, Hrule.
    destruct (DockerImage.registry d); [rewrite Hr|]; reflexivity.
Qed.

(** ** What the constructors of the aggregates accept *)

(** An integer field with a lower bound, and with both bounds of a port. *)
Lemma at_least_OK n msg x a :
  integer (z_min n msg (z_int z_number)) x = OK a <-> x = VNum a /\ (n <=? a) = true.
Proof.
  unfold z_min. split.
  - intros H. apply integer_OK in H. apply check_OK in H. destruct H as [H Hmin].
    apply z_int_OK in H. destruct H as [H _]. apply z_number_OK in H.
    split; assumption.
  - intros [-> H]. unfold integer, check, z_int. simpl. rewrite H. reflexivity.
Qed.

Lemma in_range_OK msg msg' x a :
  integer (z_max 65535 msg (z_min 1 msg' (z_int z_number))) x = OK a <->
  x = VNum a /\ in_port_range a = true.
Proof.
  unfold z_max, z_min, in_port_range. split.
  - intros H. apply integer_OK in H. apply check_OK in H. destruct H as [H Hmax].
    apply check_OK in H. destruct H as [H Hmin].
    apply z_int_OK in H. destruct H as [H _]. apply z_number_OK in H.
    simpl in Hmin, Hmax. rewrite Hmin, Hmax. split; [exact H | reflexivity].
  - intros [-> H]. apply andb_prop in H. destruct H as [Hmin Hmax].
    unfold integer, check, z_int. simpl. rewrite Hmin. simpl. rewrite Hmax.
    reflexivity.
Qed.

Lemma parse_items_ports items : forall index l,
  parse_items
    (integer
       (z_max 65535 "Number must be less than or equal to 65535"
          (z_min 1 "Number must be greater than or equal to 1" (z_int z_number))))
    index items
  = OK l <->
  items = map VNum l /\ forallb in_port_range l = true.
Proof.
  induction items as [|x r IH]; intros index l; cbn [parse_items].
  - split.
    + intros Heq. injection Heq as <-. split; reflexivity.
    + intros [Heq _]. destruct l; [reflexivity | discriminate].
  - split.
    + intros H. apply ap_OK in H. destruct H as (g & tl & H & Hr & ->).
      apply ap_OK in H. destruct H as (g' & a & Hc & Hx & ->).
      injection Hc as <-. apply at_key_OK in Hx. apply IH in Hr.
      destruct Hr as [-> Hrange]. apply in_range_OK in Hx.
      destruct Hx as [-> Ha]. simpl. rewrite Ha, Hrange. split; reflexivity.
    + intros [Heq Hrange]. destruct l as [|a tl]; [discriminate|].
      simpl in Heq. injection Heq as -> ->. simpl in Hrange.
      apply andb_prop in Hrange. destruct Hrange as [Ha Htl].
      rewrite (proj2 (IH (S index) tl) (conj eq_refl Htl)).
      rewrite (proj2 (in_range_OK _ _ (VNum a) a) (conj eq_refl Ha)).
      reflexivity.
Qed.

Lemma optional_OK {A} (t : ZodType A) (f : A -> jsval) (P : A -> bool) v (o : option A) :
  (forall x a, t x = OK a <-> x = f a /\ P a = true) ->
  (forall a, f a <> VUndefined) ->
  z_optional t v = OK o <->
  v = optional_input f o /\ match o with Some a => P a = true | None => True end.
Proof.
  intros Ht Hf. split.
  - intros H. apply z_optional_OK in H.
    destruct H as [[-> ->] | (a & Ha & ->)]; [split; [reflexivity | exact I]|].
    apply Ht in Ha. destruct Ha as [-> HP]. split; [reflexivity | exact HP].
  - intros [-> HP]. destruct o as [a|]; simpl; [|reflexivity].
    unfold z_optional. pose proof (proj2 (Ht (f a) a) (conj eq_refl HP)) as Ha.
    destruct (f a) eqn:Hfa; try (rewrite Ha; reflexivity).
    exfalso. exact (Hf a Hfa).
Qed.

Lemma port_OK x a :
  integer (port_range (z_int z_number)) x = OK a <->
  x = VNum a /\ in_port_range a = true.
Proof. unfold port_range. apply in_range_OK. Qed.

Lemma internalPorts_OK x l :
  z_array
    (integer
       (z_max 65535 "Number must be less than or equal to 65535"
          (z_min 1 "Number must be greater than or equal to 1" (z_int z_number)))) x
  = OK l <->
  x = ports l /\ forallb in_port_range l = true.
Proof.
  unfold z_array, ports. destruct x; try (split; [discriminate | intros [H _]; discriminate]).
  rewrite parse_items_ports. split; intros [H1 H2]; (split; [congruence | exact H2]).
Qed.

Lemma string_OK x a : z_string x = OK a <-> x = VStr a /\ true = true.
Proof.
  split.
  - intros H. apply z_string_OK in H. split; [exact H | reflexivity].
  - intros [-> _]. reflexivity.
Qed.

Lemma count_OK msg x a :
  integer (z_min 1 msg (z_int z_number)) x = OK a <-> x = VNum a /\ (1 <=? a) = true.
Proof. apply at_least_OK. Qed.

Lemma enum_OK options x a :
  z_enum options x = OK a <-> x = VStr a /\ mem a options = true.
Proof.
  split; [apply z_enum_OK|]. intros [-> H]. apply enum_member. exact H.
Qed.

Lemma nonblank_string_OK msg x a :
  refine nonblank msg z_string x = OK a <-> x = VStr a /\ nonblank a = true.
Proof.
  unfold refine. split.
  - intros H. apply check_OK in H. destruct H as [H Hnb]. apply z_string_OK in H.
    split; assumption.
  - intros [-> H]. apply checked_string. exact H.
Qed.

Lemma ap_OK_iff {A B} (f : ParseReturn (A -> B)) (x : ParseReturn A) b :
  f <*> x = OK b <-> exists g a, f = OK g /\ x = OK a /\ b = g a.
Proof.
  split; [apply ap_OK|]. intros (g & a & -> & -> & ->). reflexivity.
Qed.

Lemma prop_OK_iff {A} k (t : ZodType A) data a :
  prop k t data = OK a <-> t (get_prop k data) = OK a.
Proof.
  split; [apply prop_OK|]. unfold prop. intros ->. reflexivity.
Qed.

(** An array read as internal ports holds integers only. *)
Lemma not_integer_among_ports items (o : option (list Z)) x :
  VArr items = optional_input ports o -> In (VFloat x) items -> False.
Proof.
  destruct o as [l|]; simpl; [|discriminate].
  unfold ports. intros Heq Hin. injection Heq as ->.
  apply in_map_iff in Hin. destruct Hin as (n & Hn & _). discriminate.
Qed.

Lemma Service_Schema_spec data p :
  Service.Schema (literal data) = OK p <->
  get_prop "instanceSizeSlug" (literal data) = VStr (Service.p_instanceSizeSlug p)
  /\ mem (Service.p_instanceSizeSlug p) INSTANCE_SIZE_SLUGS = true
  /\ get_prop "instanceCount" (literal data) = VNum (Service.p_instanceCount p)
  /\ (1 <=? Service.p_instanceCount p) = true
  /\ get_prop "httpPort" (literal data) = optional_input VNum (Service.p_httpPort p)
  /\ match Service.p_httpPort p with Some a => in_port_range a = true | None => True end
  /\ get_prop "internalPorts" (literal data)
     = optional_input ports (Service.p_internalPorts p)
  /\ match Service.p_internalPorts p with
     | Some l => forallb in_port_range l = true
     | None => True
     end
  /\ get_prop "runCommand" (literal data) = optional_input VStr (Service.p_runCommand p).
Proof.
  unfold Service.Schema, z_object, literal.
  rewrite !ap_OK_iff. split.
  - intros (g4 & rc & H & Hrc & ->).
    apply ap_OK in H. destruct H as (g3 & ip & H & Hip & ->).
    apply ap_OK in H. destruct H as (g2 & hp & H & Hhp & ->).
    apply ap_OK in H. destruct H as (g1 & ic & H & Hic & ->).
    apply ap_OK in H. destruct H as (g0 & slug & H & Hslug & ->).
    injection H as <-. simpl.
    apply prop_OK in Hrc, Hip, Hhp, Hic, Hslug.
    apply enum_OK in Hslug. apply count_OK in Hic.
    apply (optional_OK (integer (port_range (z_int z_number))) VNum in_port_range) in Hhp;
      [|apply port_OK | discriminate].
    apply (optional_OK _ ports (fun l => forallb in_port_range l)) in Hip;
      [|apply internalPorts_OK | discriminate].
    apply (optional_OK z_string VStr (fun _ => true)) in Hrc;
      [|apply string_OK | discriminate].
    destruct Hrc as [Hrc _]. tauto.
  - intros (H1 & V1 & H2 & V2 & H3 & V3 & H4 & V4 & H5).
    destruct p as [slug ic hp ip rc]. simpl in *.
    exists (Service.mkPrimitives slug ic hp ip), rc. split; [|split; [|reflexivity]].
    + apply ap_OK_iff. exists (Service.mkPrimitives slug ic hp), ip.
      split; [|split; [|reflexivity]].
      * apply ap_OK_iff. exists (Service.mkPrimitives slug ic), hp.
        split; [|split; [|reflexivity]].
        -- apply ap_OK_iff. exists (Service.mkPrimitives slug), ic.
           split; [|split; [|reflexivity]].
           ++ apply ap_OK_iff. exists Service.mkPrimitives, slug.
              split; [reflexivity|]. split; [|reflexivity].
              apply prop_OK_iff. apply enum_OK. split; assumption.
           ++ apply prop_OK_iff. apply count_OK. split; assumption.
        -- apply prop_OK_iff.
           apply (optional_OK (integer (port_range (z_int z_number))) VNum in_port_range);
             [apply port_OK | discriminate | split; assumption].
      * apply prop_OK_iff.
        apply (optional_OK _ ports (fun l => forallb in_port_range l));
          [apply internalPorts_OK | discriminate | split; assumption].
    + apply prop_OK_iff.
      apply (optional_OK z_string VStr (fun _ => true));
        [apply string_OK | discriminate | split; [assumption|]].
      destruct rc; auto.
Qed.

Lemma in_port_range_spec p : in_port_range p = true <-> 1 <= p <= 65535.
Proof. unfold in_port_range. rewrite andb_true_iff, !Z.leb_le. tauto. Qed.

Lemma optional_range (o : option Z) :
  match o with Some a => in_port_range a = true | None => True end <->
  forall p, o = Some p -> 1 <= p <= 65535.
Proof.
  destruct o as [a|]; split.
  - intros H p Heq. injection Heq as <-. apply in_port_range_spec. exact H.
  - intros H. apply in_port_range_spec. apply H. reflexivity.
  - discriminate.
  - auto.
Qed.

Lemma optional_ranges (o : option (list Z)) :
  match o with Some l => forallb in_port_range l = true | None => True end <->
  forall l p, o = Some l -> In p l -> 1 <= p <= 65535.
Proof.
  destruct o as [l|]; split.
  - intros H l' p Heq Hin. injection Heq as <-. apply in_port_range_spec.
    rewrite forallb_forall in H. auto.
  - intros H. apply forallb_forall. intros p Hin. apply in_port_range_spec.
    apply (H l); [reflexivity | exact Hin].
  - discriminate.
  - auto.
Qed.

(** What the Service constructor accepts. *)
Lemma Service_new_spec (cfg : Service.Config.t) (s : Service.t) :
  Service.new cfg = Ok s <->
  (exists name,
     Service.Config.name cfg = VStr name /\ nonblank name = true
     /\ Service.base s =
        AppPlatformResource.mk name
          (match Service.Config.envs cfg with Some l => l | None => [] end))
  /\ Service.Config.instanceSizeSlug cfg = VStr (Service.instanceSizeSlug s)
  /\ In (Service.instanceSizeSlug s) INSTANCE_SIZE_SLUGS
  /\ Service.Config.instanceCount cfg = VNum (Service.instanceCount s)
  /\ 1 <= Service.instanceCount s
  /\ Service.Config.httpPort cfg = optional_input VNum (Service.httpPort s)
  /\ (forall p, Service.httpPort s = Some p -> 1 <= p <= 65535)
  /\ Service.Config.internalPorts cfg = optional_input ports (Service.internalPorts s)
  /\ (forall l p, Service.internalPorts s = Some l -> In p l -> 1 <= p <= 65535)
  /\ Service.Config.runCommand cfg = optional_input VStr (Service.runCommand s)
  /\ Service.healthCheck s = Service.Config.healthCheck cfg
  /\ Service.volumes s = Service.Config.volumes cfg
  /\ Service.source s = Service.Config.source cfg.
Proof.
  unfold Service.new. split.
  - intros H. apply bind_Ok in H. destruct H as (super & Hsuper & H).
    apply bind_Ok in H. destruct H as (data & Hp & Heq). injection Heq as <-.
    apply AppPlatformResource_new_spec in Hsuper.
    apply parse_Ok in Hp. apply Service_Schema_spec in Hp. simpl get_prop in Hp.
    destruct Hp as (H1 & V1 & H2 & V2 & H3 & V3 & H4 & V4 & H5).
    apply mem_In in V1. apply Z.leb_le in V2.
    pose proof (proj1 (optional_range _) V3) as V3'.
    pose proof (proj1 (optional_ranges _) V4) as V4'.
    destruct Hsuper as (name & Hn & Hnb & ->). simpl.
    split; [exists name; repeat split; assumption|].
    split; [exact H1|]. split; [exact V1|]. split; [exact H2|]. split; [exact V2|].
    split; [exact H3|]. split; [exact V3'|]. split; [exact H4|]. split; [exact V4'|].
    split; [exact H5|]. repeat split.
  - intros ((name & Hn & Hnb & Hbase) & H1 & V1 & H2 & V2 & H3 & V3 & H4 & V4 & H5
            & H6 & H7 & H8).
    assert (Hsuper : AppPlatformResource.new (Service.Config.name cfg)
                       (Service.Config.envs cfg) = Ok (Service.base s))
      by (apply AppPlatformResource_new_spec; exists name; auto).
    rewrite Hsuper. simpl bind.
    assert (Hp : Service.Schema
                   (literal [("instanceSizeSlug", Service.Config.instanceSizeSlug cfg);
                             ("instanceCount", Service.Config.instanceCount cfg);
                             ("httpPort", Service.Config.httpPort cfg);
                             ("internalPorts", Service.Config.internalPorts cfg);
                             ("runCommand", Service.Config.runCommand cfg)])
                 = OK (Service.mkPrimitives (Service.instanceSizeSlug s)
                         (Service.instanceCount s) (Service.httpPort s)
                         (Service.internalPorts s) (Service.runCommand s))).
    { apply Service_Schema_spec. simpl.
      apply mem_In in V1. apply Z.leb_le in V2.
      apply (proj2 (optional_range _)) in V3. apply (proj2 (optional_ranges _)) in V4.
      repeat split; assumption. }
    apply parse_Ok in Hp. rewrite Hp. simpl. rewrite <- H6, <- H7, <- H8.
    destruct s; reflexivity.
Qed.

(** X22. The Service constructor accepts a configuration exactly when the
    name is a string with a visible character, the size slug is one of the
    eight recognised slugs, the instance count is an integer of at least 1,
    the HTTP port is omitted or an integer from 1 to 65535, the internal
    ports are omitted or an array of such integers, and the run command is
    omitted or any string.  The service holds these values, the given env
    list as it is (empty when omitted), and the given health check, volumes
    and source without any check of them.  A number that is not an integer
    as instance count, as HTTP port or among the internal ports makes the
    constructor throw. *)
Theorem X22_Service_constructor (cfg : Service.Config.t) :
  (forall s,
     Service.new cfg = Ok s <->
     (exists name,
        Service.Config.name cfg = VStr name /\ nonblank name = true
        /\ Service.base s =
           AppPlatformResource.mk name
             (match Service.Config.envs cfg with Some l => l | None => [] end))
     /\ Service.Config.instanceSizeSlug cfg = VStr (Service.instanceSizeSlug s)
     /\ In (Service.instanceSizeSlug s) INSTANCE_SIZE_SLUGS
     /\ Service.Config.instanceCount cfg = VNum (Service.instanceCount s)
     /\ 1 <= Service.instanceCount s
     /\ Service.Config.httpPort cfg = optional_input VNum (Service.httpPort s)
     /\ (forall p, Service.httpPort s = Some p -> 1 <= p <= 65535)
     /\ Service.Config.internalPorts cfg = optional_input ports (Service.internalPorts s)
     /\ (forall l p, Service.internalPorts s = Some l -> In p l -> 1 <= p <= 65535)
     /\ Service.Config.runCommand cfg = optional_input VStr (Service.runCommand s)
     /\ Service.healthCheck s = Service.Config.healthCheck cfg
     /\ Service.volumes s = Service.Config.volumes cfg
     /\ Service.source s = Service.Config.source cfg)
  /\ (forall x,
        Service.Config.instanceCount cfg = VFloat x
        \/ Service.Config.httpPort cfg = VFloat x
        \/ (exists items, Service.Config.internalPorts cfg = VArr items
                          /\ In (VFloat x) items) ->
        exists issues, Service.new cfg = Err (ZodError issues)).
Proof.
  split; [intros s; apply Service_new_spec|].
  intros x Hx. destruct (Service.new cfg) as [s|e] eqn:Hnew.
  - exfalso. apply Service_new_spec in Hnew.
    destruct Hnew as (_ & _ & _ & Hcount & _ & Hport & _ & Hports & _).
    destruct Hx as [Hx|[Hx|(items & Hx & Hin)]].
    + rewrite Hx in Hcount. discriminate.
    + rewrite Hx in Hport. destruct (Service.httpPort s); discriminate.
    + rewrite Hx in Hports. apply (@not_integer_among_ports _ _ _ Hports Hin).
  - destruct (proj1 (aggregate_new_Err e) cfg Hnew) as [issues ->]. eauto.
Qed.

Lemma Job_Schema_spec data p :
  Job.Schema (literal data) = OK p <->
  get_prop "kind" (literal data) = VStr (Job.p_kind p)
  /\ mem (Job.p_kind p) ["PRE_DEPLOY"; "POST_DEPLOY"] = true
  /\ get_prop "runCommand" (literal data) = VStr (Job.p_runCommand p)
  /\ nonblank (Job.p_runCommand p) = true
  /\ get_prop "instanceSizeSlug" (literal data)
     = optional_input VStr (Job.p_instanceSizeSlug p)
  /\ match Job.p_instanceSizeSlug p with
     | Some a => mem a INSTANCE_SIZE_SLUGS = true
     | None => True
     end
  /\ get_prop "instanceCount" (literal data) = optional_input VNum (Job.p_instanceCount p)
  /\ match Job.p_instanceCount p with Some a => (1 <=? a) = true | None => True end.
Proof.
  unfold Job.Schema, z_object, literal.
  rewrite !ap_OK_iff. split.
  - intros (g3 & ic & H & Hic & ->).
    apply ap_OK in H. destruct H as (g2 & slug & H & Hslug & ->).
    apply ap_OK in H. destruct H as (g1 & rc & H & Hrc & ->).
    apply ap_OK in H. destruct H as (g0 & kind & H & Hkind & ->).
    injection H as <-. simpl.
    apply prop_OK in Hic, Hslug, Hrc, Hkind.
    apply enum_OK in Hkind. apply nonblank_string_OK in Hrc.
    apply (optional_OK _ VStr (fun a => mem a INSTANCE_SIZE_SLUGS)) in Hslug;
      [|apply enum_OK | discriminate].
    apply (optional_OK _ VNum (fun a => 1 <=? a)) in Hic;
      [|apply count_OK | discriminate].
    tauto.
  - intros (H1 & V1 & H2 & V2 & H3 & V3 & H4 & V4).
    destruct p as [kind rc slug ic]. simpl in *.
    exists (Job.mkPrimitives kind rc slug), ic. split; [|split; [|reflexivity]].
    + apply ap_OK_iff. exists (Job.mkPrimitives kind rc), slug.
      split; [|split; [|reflexivity]].
      * apply ap_OK_iff. exists (Job.mkPrimitives kind), rc.
        split; [|split; [|reflexivity]].
        -- apply ap_OK_iff. exists Job.mkPrimitives, kind.
           split; [reflexivity|]. split; [|reflexivity].
           apply prop_OK_iff. apply enum_OK. split; assumption.
        -- apply prop_OK_iff. apply nonblank_string_OK. split; assumption.
      * apply prop_OK_iff.
        apply (optional_OK _ VStr (fun a => mem a INSTANCE_SIZE_SLUGS));
          [apply enum_OK | discriminate | split; assumption].
    + apply prop_OK_iff.
      apply (optional_OK _ VNum (fun a => 1 <=? a));
        [apply count_OK | discriminate | split; assumption].
Qed.

Lemma optional_member (o : option string) options :
  match o with Some a => mem a options = true | None => True end <->
  forall a, o = Some a -> In a options.
Proof.
  destruct o as [a|]; split.
  - intros H a' Heq. injection Heq as <-. apply mem_In. exact H.
  - intros H. apply mem_In. apply H. reflexivity.
  - discriminate.
  - auto.
Qed.

Lemma optional_at_least (o : option Z) :
  match o with Some a => (1 <=? a) = true | None => True end <->
  forall a, o = Some a -> 1 <= a.
Proof.
  destruct o as [a|]; split.
  - intros H a' Heq. injection Heq as <-. apply Z.leb_le. exact H.
  - intros H. apply Z.leb_le. apply H. reflexivity.
  - discriminate.
  - auto.
Qed.

(** What the Job constructor accepts. *)
Lemma Job_new_spec (cfg : Job.Config.t) (j : Job.t) :
  Job.new cfg = Ok j <->
  (exists name,
     Job.Config.name cfg = VStr name /\ nonblank name = true
     /\ Job.base j =
        AppPlatformResource.mk name
          (match Job.Config.envs cfg with Some l => l | None => [] end))
  /\ Job.Config.kind cfg = VStr (Job.kind j)
  /\ In (Job.kind j) ["PRE_DEPLOY"; "POST_DEPLOY"]
  /\ Job.Config.runCommand cfg = VStr (Job.runCommand j)
  /\ nonblank (Job.runCommand j) = true
  /\ Job.Config.instanceSizeSlug cfg = optional_input VStr (Job.instanceSizeSlug j)
  /\ (forall slug, Job.instanceSizeSlug j = Some slug -> In slug INSTANCE_SIZE_SLUGS)
  /\ Job.Config.instanceCount cfg = optional_input VNum (Job.instanceCount j)
  /\ (forall n, Job.instanceCount j = Some n -> 1 <= n)
  /\ Job.source j = Job.Config.source cfg.
Proof.
  unfold Job.new. split.
  - intros H. apply bind_Ok in H. destruct H as (super & Hsuper & H).
    apply bind_Ok in H. destruct H as (data & Hp & Heq). injection Heq as <-.
    apply AppPlatformResource_new_spec in Hsuper.
    apply parse_Ok in Hp. apply Job_Schema_spec in Hp. simpl get_prop in Hp.
    destruct Hp as (H1 & V1 & H2 & V2 & H3 & V3 & H4 & V4).
    apply mem_In in V1.
    pose proof (proj1 (optional_member _ _) V3) as V3'.
    pose proof (proj1 (optional_at_least _) V4) as V4'.
    destruct Hsuper as (name & Hn & Hnb & ->). simpl.
    split; [exists name; repeat split; assumption|].
    split; [exact H1|]. split; [exact V1|]. split; [exact H2|]. split; [exact V2|].
    split; [exact H3|]. split; [exact V3'|]. split; [exact H4|]. split; [exact V4'|].
    reflexivity.
  - intros ((name & Hn & Hnb & Hbase) & H1 & V1 & H2 & V2 & H3 & V3 & H4 & V4 & H5).
    assert (Hsuper : AppPlatformResource.new (Job.Config.name cfg)
                       (Job.Config.envs cfg) = Ok (Job.base j))
      by (apply AppPlatformResource_new_spec; exists name; auto).
    rewrite Hsuper. simpl bind.
    assert (Hp : Job.Schema
                   (literal [("kind", Job.Config.kind cfg);
                             ("runCommand", Job.Config.runCommand cfg);
                             ("instanceSizeSlug", Job.Config.instanceSizeSlug cfg);
                             ("instanceCount", Job.Config.instanceCount cfg)])
                 = OK (Job.mkPrimitives (Job.kind j) (Job.runCommand j)
                         (Job.instanceSizeSlug j) (Job.instanceCount j))).
    { apply Job_Schema_spec. simpl. apply mem_In in V1.
      pose proof (proj2 (optional_member _ _) V3) as V3'.
      pose proof (proj2 (optional_at_least _) V4) as V4'.
      repeat split; assumption. }
    apply parse_Ok in Hp. rewrite Hp. simpl. rewrite <- H5.
    destruct j; reflexivity.
Qed.

(** X23. The Job constructor accepts a configuration exactly when the name
    is a string with a visible character, the kind is PRE_DEPLOY or
    POST_DEPLOY, the run command is a string with a visible character, the
    size slug is omitted or one of the recognised slugs, and the instance
    count is omitted or an integer of at least 1.  The job holds these
    values, the given env list as it is and the given source unchecked.  An
    instance count that is a number but not an integer makes the constructor
    throw. *)
Theorem X23_Job_constructor (cfg : Job.Config.t) :
  (forall j,
     Job.new cfg = Ok j <->
     (exists name,
        Job.Config.name cfg = VStr name /\ nonblank name = true
        /\ Job.base j =
           AppPlatformResource.mk name
             (match Job.Config.envs cfg with Some l => l | None => [] end))
     /\ Job.Config.kind cfg = VStr (Job.kind j)
     /\ In (Job.kind j) ["PRE_DEPLOY"; "POST_DEPLOY"]
     /\ Job.Config.runCommand cfg = VStr (Job.runCommand j)
     /\ nonblank (Job.runCommand j) = true
     /\ Job.Config.instanceSizeSlug cfg = optional_input VStr (Job.instanceSizeSlug j)
     /\ (forall slug, Job.instanceSizeSlug j = Some slug -> In slug INSTANCE_SIZE_SLUGS)
     /\ Job.Config.instanceCount cfg = optional_input VNum (Job.instanceCount j)
     /\ (forall n, Job.instanceCount j = Some n -> 1 <= n)
     /\ Job.source j = Job.Config.source cfg)
  /\ (forall x,
        Job.Config.instanceCount cfg = VFloat x ->
        exists issues, Job.new cfg = Err (ZodError issues)).
Proof.
  split; [intros j; apply Job_new_spec|].
  intros x Hx. destruct (Job.new cfg) as [j|e] eqn:Hnew.
  - exfalso. apply Job_new_spec in Hnew.
    destruct Hnew as (_ & _ & _ & _ & _ & _ & _ & Hcount & _).
    rewrite Hx in Hcount. destruct (Job.instanceCount j); discriminate.
  - destruct (proj1 (proj2 (aggregate_new_Err e)) cfg Hnew) as [issues ->]. eauto.
Qed.

Lemma Worker_Schema_spec data p :
  Worker.Schema (literal data) = OK p <->
  get_prop "instanceSizeSlug" (literal data) = VStr (Worker.p_instanceSizeSlug p)
  /\ mem (Worker.p_instanceSizeSlug p) INSTANCE_SIZE_SLUGS = true
  /\ get_prop "instanceCount" (literal data) = VNum (Worker.p_instanceCount p)
  /\ (1 <=? Worker.p_instanceCount p) = true
  /\ get_prop "internalPorts" (literal data)
     = optional_input ports (Worker.p_internalPorts p)
  /\ match Worker.p_internalPorts p with
     | Some l => forallb in_port_range l = true
     | None => True
     end
  /\ get_prop "runCommand" (literal data) = optional_input VStr (Worker.p_runCommand p).
Proof.
  unfold Worker.Schema, z_object, literal.
  rewrite !ap_OK_iff. split.
  - intros (g3 & rc & H & Hrc & ->).
    apply ap_OK in H. destruct H as (g2 & ip & H & Hip & ->).
    apply ap_OK in H. destruct H as (g1 & ic & H & Hic & ->).
    apply ap_OK in H. destruct H as (g0 & slug & H & Hslug & ->).
    injection H as <-. simpl.
    apply prop_OK in Hrc, Hip, Hic, Hslug.
    apply enum_OK in Hslug. apply count_OK in Hic.
    apply (optional_OK _ ports (fun l => forallb in_port_range l)) in Hip;
      [|apply internalPorts_OK | discriminate].
    apply (optional_OK z_string VStr (fun _ => true)) in Hrc;
      [|apply string_OK | discriminate].
    destruct Hrc as [Hrc _]. tauto.
  - intros (H1 & V1 & H2 & V2 & H4 & V4 & H5).
    destruct p as [slug ic ip rc]. simpl in *.
    exists (Worker.mkPrimitives slug ic ip), rc. split; [|split; [|reflexivity]].
    + apply ap_OK_iff. exists (Worker.mkPrimitives slug ic), ip.
      split; [|split; [|reflexivity]].
      * apply ap_OK_iff. exists (Worker.mkPrimitives slug), ic.
        split; [|split; [|reflexivity]].
        -- apply ap_OK_iff. exists Worker.mkPrimitives, slug.
           split; [reflexivity|]. split; [|reflexivity].
           apply prop_OK_iff. apply enum_OK. split; assumption.
        -- apply prop_OK_iff. apply count_OK. split; assumption.
      * apply prop_OK_iff.
        apply (optional_OK _ ports (fun l => forallb in_port_range l));
          [apply internalPorts_OK | discriminate | split; assumption].
    + apply prop_OK_iff.
      apply (optional_OK z_string VStr (fun _ => true));
        [apply string_OK | discriminate | split; [assumption|]].
      destruct rc; auto.
Qed.

(** What the Worker constructor accepts. *)
Lemma Worker_new_spec (cfg : Worker.Config.t) (w : Worker.t) :
  Worker.new cfg = Ok w <->
  (exists name,
     Worker.Config.name cfg = VStr name /\ nonblank name = true
     /\ Worker.base w =
        AppPlatformResource.mk name
          (match Worker.Config.envs cfg with Some l => l | None => [] end))
  /\ Worker.Config.instanceSizeSlug cfg = VStr (Worker.instanceSizeSlug w)
  /\ In (Worker.instanceSizeSlug w) INSTANCE_SIZE_SLUGS
  /\ Worker.Config.instanceCount cfg = VNum (Worker.instanceCount w)
  /\ 1 <= Worker.instanceCount w
  /\ Worker.Config.internalPorts cfg = optional_input ports (Worker.internalPorts w)
  /\ (forall l p, Worker.internalPorts w = Some l -> In p l -> 1 <= p <= 65535)
  /\ Worker.Config.runCommand cfg = optional_input VStr (Worker.runCommand w)
  /\ Worker.volumes w = Worker.Config.volumes cfg
  /\ Worker.source w = Worker.Config.source cfg.
Proof.
  unfold Worker.new. split.
  - intros H. apply bind_Ok in H. destruct H as (super & Hsuper & H).
    apply bind_Ok in H. destruct H as (data & Hp & Heq). injection Heq as <-.
    apply AppPlatformResource_new_spec in Hsuper.
    apply parse_Ok in Hp. apply Worker_Schema_spec in Hp. simpl get_prop in Hp.
    destruct Hp as (H1 & V1 & H2 & V2 & H4 & V4 & H5).
    apply mem_In in V1. apply Z.leb_le in V2.
    pose proof (proj1 (optional_ranges _) V4) as V4'.
    destruct Hsuper as (name & Hn & Hnb & ->). simpl.
    split; [exists name; repeat split; assumption|].
    split; [exact H1|]. split; [exact V1|]. split; [exact H2|]. split; [exact V2|].
    split; [exact H4|]. split; [exact V4'|]. split; [exact H5|]. split; reflexivity.
  - intros ((name & Hn & Hnb & Hbase) & H1 & V1 & H2 & V2 & H4 & V4 & H5 & H6 & H7).
    assert (Hsuper : AppPlatformResource.new (Worker.Config.name cfg)
                       (Worker.Config.envs cfg) = Ok (Worker.base w))
      by (apply AppPlatformResource_new_spec; exists name; auto).
    rewrite Hsuper. simpl bind.
    assert (Hp : Worker.Schema
                   (literal [("instanceSizeSlug", Worker.Config.instanceSizeSlug cfg);
                             ("instanceCount", Worker.Config.instanceCount cfg);
                             ("internalPorts", Worker.Config.internalPorts cfg);
                             ("runCommand", Worker.Config.runCommand cfg)])
                 = OK (Worker.mkPrimitives (Worker.instanceSizeSlug w)
                         (Worker.instanceCount w) (Worker.internalPorts w)
                         (Worker.runCommand w))).
    { apply Worker_Schema_spec. simpl. apply mem_In in V1. apply Z.leb_le in V2.
      pose proof (proj2 (optional_ranges _) V4) as V4'.
      repeat split; assumption. }
    apply parse_Ok in Hp. rewrite Hp. simpl. rewrite <- H6, <- H7.
    destruct w; reflexivity.
Qed.

(** X24. The Worker constructor accepts a configuration exactly when the
    name is a string with a visible character, the size slug is one of the
    recognised slugs, the instance count is an integer of at least 1, the
    internal ports are omitted or an array of integers from 1 to 65535, and
    the run command is omitted or any string.  The worker holds these
    values, the given env list as it is, and the given volumes and source
    unchecked.  A number that is not an integer as instance count or among
    the internal ports makes the constructor throw. *)
Theorem X24_Worker_constructor (cfg : Worker.Config.t) :
  (forall w,
     Worker.new cfg = Ok w <->
     (exists name,
        Worker.Config.name cfg = VStr name /\ nonblank name = true
        /\ Worker.base w =
           AppPlatformResource.mk name
             (match Worker.Config.envs cfg with Some l => l | None => [] end))
     /\ Worker.Config.instanceSizeSlug cfg = VStr (Worker.instanceSizeSlug w)
     /\ In (Worker.instanceSizeSlug w) INSTANCE_SIZE_SLUGS
     /\ Worker.Config.instanceCount cfg = VNum (Worker.instanceCount w)
     /\ 1 <= Worker.instanceCount w
     /\ Worker.Config.internalPorts cfg = optional_input ports (Worker.internalPorts w)
     /\ (forall l p, Worker.internalPorts w = Some l -> In p l -> 1 <= p <= 65535)
     /\ Worker.Config.runCommand cfg = optional_input VStr (Worker.runCommand w)
     /\ Worker.volumes w = Worker.Config.volumes cfg
     /\ Worker.source w = Worker.Config.source cfg)
  /\ (forall x,
        Worker.Config.instanceCount cfg = VFloat x
        \/ (exists items, Worker.Config.internalPorts cfg = VArr items
                          /\ In (VFloat x) items) ->
        exists issues, Worker.new cfg = Err (ZodError issues)).
Proof.
  split; [intros w; apply Worker_new_spec|].
  intros x Hx. destruct (Worker.new cfg) as [w|e] eqn:Hnew.
  - exfalso. apply Worker_new_spec in Hnew.
    destruct Hnew as (_ & _ & _ & Hcount & _ & Hports & _).
    destruct Hx as [Hx|(items & Hx & Hin)].
    + rewrite Hx in Hcount. discriminate.
    + rewrite Hx in Hports. apply (@not_integer_among_ports _ _ _ Hports Hin).
  - destruct (proj2 (proj2 (aggregate_new_Err e)) cfg Hnew) as [issues ->]. eauto.
Qed.

(** ** The JSON projection of the aggregates *)

(** X25. The projection of a Service, a Job or a Worker has its required
    keys and [envs] always, [envs] being the list of the projections of the
    env entries (the empty list when there is none), followed by the key of
    each optional field that is set, in a fixed order; [volumes] appears
    only for a non-empty list. *)
Theorem X25_aggregate_projection :
  (forall s : Service.t,
     keys (own_props (Service.toJSON s)) =
       (["name"; "instanceSizeSlug"; "instanceCount"; "envs"]
        ++ present "httpPort" (Service.httpPort s)
        ++ present "internalPorts" (Service.internalPorts s)
        ++ present "healthCheck" (Service.healthCheck s)
        ++ present "runCommand" (Service.runCommand s)
        ++ present "volumes" (nonempty_volumes (Service.volumes s))
        ++ present "source" (Service.source s))%list
     /\ own_prop "envs" (Service.toJSON s) =
        Some (VArr (map EnvironmentVariable.toJSON
                      (AppPlatformResource.envs (Service.base s))))
     /\ own_prop "httpPort" (Service.toJSON s) = option_map VNum (Service.httpPort s)
     /\ own_prop "internalPorts" (Service.toJSON s)
        = option_map ports (Service.internalPorts s)
     /\ own_prop "healthCheck" (Service.toJSON s)
        = option_map HealthCheck.toJSON (Service.healthCheck s)
     /\ own_prop "runCommand" (Service.toJSON s) = option_map VStr (Service.runCommand s)
     /\ own_prop "volumes" (Service.toJSON s)
        = option_map (fun l => VArr (map VolumeMount.toJSON l))
            (nonempty_volumes (Service.volumes s))
     /\ own_prop "source" (Service.toJSON s) = option_map Source_toJSON (Service.source s))
  /\
  (forall j : Job.t,
     keys (own_props (Job.toJSON j)) =
       (["name"; "kind"; "runCommand"; "envs"]
        ++ present "instanceSizeSlug" (Job.instanceSizeSlug j)
        ++ present "instanceCount" (Job.instanceCount j)
        ++ present "source" (Job.source j))%list
     /\ own_prop "envs" (Job.toJSON j) =
        Some (VArr (map EnvironmentVariable.toJSON
                      (AppPlatformResource.envs (Job.base j))))
     /\ own_prop "instanceSizeSlug" (Job.toJSON j)
        = option_map VStr (Job.instanceSizeSlug j)
     /\ own_prop "instanceCount" (Job.toJSON j) = option_map VNum (Job.instanceCount j)
     /\ own_prop "source" (Job.toJSON j) = option_map Source_toJSON (Job.source j))
  /\
  (forall w : Worker.t,
     keys (own_props (Worker.toJSON w)) =
       (["name"; "instanceSizeSlug"; "instanceCount"; "envs"]
        ++ present "internalPorts" (Worker.internalPorts w)
        ++ present "runCommand" (Worker.runCommand w)
        ++ present "volumes" (nonempty_volumes (Worker.volumes w))
        ++ present "source" (Worker.source w))%list
     /\ own_prop "envs" (Worker.toJSON w) =
        Some (VArr (map EnvironmentVariable.toJSON
                      (AppPlatformResource.envs (Worker.base w))))
     /\ own_prop "internalPorts" (Worker.toJSON w)
        = option_map ports (Worker.internalPorts w)
     /\ own_prop "runCommand" (Worker.toJSON w) = option_map VStr (Worker.runCommand w)
     /\ own_prop "volumes" (Worker.toJSON w)
        = option_map (fun l => VArr (map VolumeMount.toJSON l))
            (nonempty_volumes (Worker.volumes w))
     /\ own_prop "source" (Worker.toJSON w) = option_map Source_toJSON (Worker.source w)).
Proof.
  split; [|split].
  - intros [base slug ic hp ip hc rc vols src]. unfold Service.toJSON. simpl.
    destruct hp, ip, hc, rc, (nonempty_volumes vols), src; repeat split.
  - intros [base kind rc slug ic src]. unfold Job.toJSON. simpl.
    destruct slug, ic, src; repeat split.
  - intros [base slug ic ip rc vols src]. unfold Worker.toJSON. simpl.
    destruct ip, rc, (nonempty_volumes vols), src; repeat split.
Qed.

(** ** The env list through pruning *)

Lemma lookup_In k v o : lookup k o = Some v -> In (k, v) o.
Proof.
  induction o as [|[k0 v0] r IH]; simpl; [discriminate|].
  destruct (String.eqb_spec k k0) as [->|Hne].
  - intros Heq. injection Heq as <-. left. reflexivity.
  - intros H. right. exact (IH H).
Qed.

Lemma In_lookup k v o : NoDup (keys o) -> In (k, v) o -> lookup k o = Some v.
Proof.
  induction o as [|[k0 v0] r IH]; simpl; intros Hnd Hin; [contradiction|].
  inversion Hnd as [|? ? Hnotin Hnd']; subst.
  destruct Hin as [Heq|Hin].
  - injection Heq as -> ->. rewrite String.eqb_refl. reflexivity.
  - destruct (String.eqb_spec k k0) as [->|Hne]; [|exact (IH Hnd' Hin)].
    exfalso. apply Hnotin. apply in_map_iff. exists (k0, v). split; [reflexivity | exact Hin].
Qed.

Lemma removeEmpty_env_defined e :
  defined (removeEmpty (EnvironmentVariable.toJSON e)) = true.
Proof.
  unfold EnvironmentVariable.toJSON, literal. rewrite removeEmpty_obj. cbv zeta.
  destruct (fold_left prune_step _ []) as [|kv kept] eqn:Hfold; [|reflexivity].
  exfalso.
  assert (Hin : In "key" (keys (fold_left prune_step
                  [("key", VStr (EnvironmentVariable.key e));
                   ("value", EnvironmentVariable.value e);
                   ("type", VStr (EnvironmentVariable.type e));
                   ("scope", VStr (EnvironmentVariable.scope e))] []))).
  { apply prune_keys. right. eexists. split; [left; reflexivity | reflexivity]. }
  rewrite Hfold in Hin. exact Hin.
Qed.

Lemma removeEmpty_envs_defined envs :
  defined (removeEmpty (VArr (map EnvironmentVariable.toJSON envs))) =
  (0 <? List.length envs)%nat.
Proof.
  assert (Hall : filter defined (map removeEmpty (map EnvironmentVariable.toJSON envs)) =
                 map removeEmpty (map EnvironmentVariable.toJSON envs)).
  { induction envs as [|e r IH]; [reflexivity|].
    cbn [map filter]. rewrite removeEmpty_env_defined, IH. reflexivity. }
  cbn [removeEmpty]. rewrite Hall, !length_map.
  destruct envs; reflexivity.
Qed.

Lemma envs_survive_pruning proto own envs :
  NoDup (keys own) ->
  lookup "envs" own = Some (VArr (map EnvironmentVariable.toJSON envs)) ->
  has_in "envs" (removeEmpty (VObj proto own)) = (0 <? List.length envs)%nat.
Proof.
  intros Hnd Hlook. rewrite removeEmpty_obj. cbv zeta.
  assert (Hiff : In "envs" (keys (fold_left prune_step own [])) <->
                 (0 <? List.length envs)%nat = true).
  { rewrite prune_keys. rewrite <- removeEmpty_envs_defined. split.
    - intros [[]|(v & Hin & Hd)].
      rewrite (@In_lookup _ _ _ Hnd Hin) in Hlook. injection Hlook as <-. exact Hd.
    - intros Hd. right. eexists. split; [apply lookup_In; exact Hlook | exact Hd]. }
  destruct (0 <? List.length (keys (fold_left prune_step own [])))%nat eqn:Hlen.
  - unfold has_in. simpl. rewrite orb_false_r.
    destruct (mem "envs" (keys (fold_left prune_step own []))) eqn:Hm.
    + apply mem_In in Hm. symmetry. apply Hiff. exact Hm.
    + destruct (0 <? List.length envs)%nat; [|reflexivity].
      assert (Hin : In "envs" (keys (fold_left prune_step own [])))
        by (apply Hiff; reflexivity).
      apply mem_In in Hin. congruence.
  - simpl. destruct (0 <? List.length envs)%nat; [|reflexivity].
    assert (Hin : In "envs" (keys (fold_left prune_step own [])))
      by (apply Hiff; reflexivity).
    destruct (keys (fold_left prune_step own [])); [contradiction | discriminate].
Qed.

Ltac distinct_keys :=
  repeat (apply NoDup_cons;
          [simpl; intros Hin;
           repeat (destruct Hin as [Hin|Hin]; [discriminate Hin|]); exact Hin|]);
  apply NoDup_nil.

Lemma projection_keys :
  (forall s : Service.t,
     NoDup (keys (own_props (Service.toJSON s)))
     /\ lookup "envs" (own_props (Service.toJSON s)) =
        Some (VArr (map EnvironmentVariable.toJSON
                      (AppPlatformResource.envs (Service.base s)))))
  /\ (forall j : Job.t,
        NoDup (keys (own_props (Job.toJSON j)))
        /\ lookup "envs" (own_props (Job.toJSON j)) =
           Some (VArr (map EnvironmentVariable.toJSON
                         (AppPlatformResource.envs (Job.base j)))))
  /\ (forall w : Worker.t,
        NoDup (keys (own_props (Worker.toJSON w)))
        /\ lookup "envs" (own_props (Worker.toJSON w)) =
           Some (VArr (map EnvironmentVariable.toJSON
                         (AppPlatformResource.envs (Worker.base w))))).
Proof.
  split; [|split].
  - intros [base slug ic hp ip hc rc vols src]. unfold Service.toJSON, literal. simpl.
    destruct hp, ip, hc, rc, (nonempty_volumes vols), src; simpl;
      (split; [distinct_keys | reflexivity]).
  - intros [base kind rc slug ic src]. unfold Job.toJSON, literal. simpl.
    destruct slug, ic, src; simpl; (split; [distinct_keys | reflexivity]).
  - intros [base slug ic ip rc vols src]. unfold Worker.toJSON, literal. simpl.
    destruct ip, rc, (nonempty_volumes vols), src; simpl;
      (split; [distinct_keys | reflexivity]).
Qed.

(** X26. For every Service, Job and Worker the [envs] key of the projection
    survives emptiness pruning exactly when the env list is not empty: an
    aggregate without environment variables is serialized without an
    [envs] key. *)
Theorem X26_envs_key_after_pruning :
  (forall s : Service.t,
     has_in "envs" (removeEmpty (Service.toJSON s)) =
     (0 <? List.length (AppPlatformResource.envs (Service.base s)))%nat)
  /\ (forall j : Job.t,
        has_in "envs" (removeEmpty (Job.toJSON j)) =
        (0 <? List.length (AppPlatformResource.envs (Job.base j)))%nat)
  /\ (forall w : Worker.t,
        has_in "envs" (removeEmpty (Worker.toJSON w)) =
        (0 <? List.length (AppPlatformResource.envs (Worker.base w)))%nat).
Proof.
  destruct projection_keys as (Hs & Hj & Hw). split; [|split].
  - intros s. destruct (Hs s) as [Hnd Hlook].
    change (Service.toJSON s) with (VObj [] (own_props (Service.toJSON s))).
    apply envs_survive_pruning; assumption.
  - intros j. destruct (Hj j) as [Hnd Hlook].
    change (Job.toJSON j) with (VObj [] (own_props (Job.toJSON j))).
    apply envs_survive_pruning; assumption.
  - intros w. destruct (Hw w) as [Hnd Hlook].
    change (Worker.toJSON w) with (VObj [] (own_props (Worker.toJSON w))).
    apply envs_survive_pruning; assumption.
Qed.

(** ** The further properties at sample inputs *)

Lemma X1_witness :
  AppPlatformResource.removeEnv "MISSING" sample_resource = (false, sample_resource)
  /\ exists before e after,
       AppPlatformResource.envs sample_resource = (before ++ e :: after)%list
       /\ EnvironmentVariable.key e = "HOST"
       /\ has_key "HOST" before = false
       /\ AppPlatformResource.removeEnv "HOST" sample_resource =
          (true, AppPlatformResource.mk (AppPlatformResource.name sample_resource)
                   (before ++ after)%list).
Proof.
  split.
  - apply (proj1 (X1_removeEnv_first_match "MISSING" sample_resource)). reflexivity.
  - apply (proj2 (X1_removeEnv_first_match "HOST" sample_resource)). reflexivity.
Defined.

Lemma X2_witness :
  exists before after,
    AppPlatformResource.envs sample_resource = (before ++ sample_env_host :: after)%list
    /\ EnvironmentVariable.key sample_env_host = "HOST"
    /\ has_key "HOST" before = false.
Proof.
  apply (proj2 (X2_getEnv_first_match "HOST" sample_resource) sample_env_host).
  reflexivity.
Defined.

Lemma X3_witness :
  let this := AppPlatformResource.mk "rest" [sample_env_port] in
  let after := snd (AppPlatformResource.addEnv sample_env_host this) in
  fst (AppPlatformResource.addEnv sample_env_host this) = Ok tt
  /\ AppPlatformResource.getEnv "HOST" after = Some sample_env_host
  /\ (forall key, key <> "HOST" ->
        AppPlatformResource.getEnv key after = AppPlatformResource.getEnv key this)
  /\ AppPlatformResource.removeEnv "HOST" after = (true, this).
Proof.
  exact (X3_addEnv_then_get_and_remove sample_env_host
           (AppPlatformResource.mk "rest" [sample_env_port]) eq_refl).
Defined.

Lemma X4_witness :
  NoDup (env_keys (AppPlatformResource.envs
                     (snd (AppPlatformResource.addEnv sample_env_port_again
                             sample_resource))))
  /\ NoDup (env_keys (AppPlatformResource.envs
                        (snd (AppPlatformResource.removeEnv "PORT" sample_resource))))
  /\ AppPlatformResource.getEnv "PORT"
       (snd (AppPlatformResource.removeEnv "PORT" sample_resource)) = None.
Proof.
  apply (X4_unique_keys_invariant sample_env_port_again "PORT" sample_resource).
  simpl. repeat constructor; simpl; intuition discriminate.
Defined.

Lemma X10_witness :
  extractPulumiOutputs (deferred_handle (VStr "postgres")) [] =
  [mkOutputRef (deferred_handle (VStr "postgres")) ""].
Proof.
  apply (proj1 (proj2 (X10_extract_collects_deferred
                         (deferred_handle (VStr "postgres"))))).
  reflexivity.
Defined.

Lemma X11_witness :
  has_deferred (replacePulumiOutputs Nat.eqb sample_deferred_tree sample_resolved)
  = false.
Proof.
  apply (X11_replace_removes_deferred Nat.eqb sample_deferred_tree).
  constructor; [reflexivity | constructor].
Defined.

Lemma X12_witness :
  exists text, toYAML yaml_dump None Nat.eqb sample_deferred_tree = Ok text.
Proof.
  apply (proj2 (X12_toYAML_fails_only_with_printer yaml_dump None Nat.eqb
                  sample_deferred_tree)
           (yaml_text (transformKeys (removeEmpty sample_deferred_tree)))).
  reflexivity.
Defined.

Lemma X13_witness :
  validate (z_enum ["GENERAL"; "SECRET"]) (VStr "BAD") =
  Err (ValidationError "unknown" (VStr "BAD")
         "Invalid enum value. Expected 'GENERAL' | 'SECRET', received 'BAD'")
  /\ validate z_string (VNum 1) =
     Err (ValidationError "unknown" (VStr "number") "Expected string, received number").
Proof.
  split.
  - exact (proj1 (proj2 (proj2 X13_validate_reports_first_issue))
             ["GENERAL"; "SECRET"] "BAD" eq_refl).
  - exact (proj1 (proj2 X13_validate_reports_first_issue) _ z_string (VNum 1)
             (invalid_type "string" (VNum 1)) [] eq_refl).
Defined.

Lemma X14_witness :
  validateWithPrefix z_string (VNum 1) "service" =
  Err (ValidationError "service.unknown" (VStr "number")
         "Expected string, received number").
Proof.
  apply (proj1 (proj2 (X14_validateWithPrefix_prefixes z_string (VNum 1) "service"))
           "unknown" (VStr "number") "Expected string, received number").
  reflexivity.
Defined.

Ltac holds :=
  repeat (split; [first [reflexivity | lia | simpl; lia | vm_compute; tauto]|]).

Lemma X5_witness :
  AppPlatformResource.new (VStr "rest") None = Ok (AppPlatformResource.mk "rest" []).
Proof.
  apply (proj2 (X5_base_constructor (VStr "rest") None (AppPlatformResource.mk "rest" []))).
  exists "rest". holds. reflexivity.
Defined.

Lemma X7_witness : camelToSnake "name" = "name".
Proof.
  apply (proj2 (proj1 X7_transformKeys_idempotent "name")). reflexivity.
Defined.

Lemma X15_witness : nonblank " a " = true.
Proof.
  apply (proj2 (proj2 (X15_nonblank_is_some_visible_character " a "))).
  exists " ", "a"%char, " ". split; reflexivity.
Defined.

Lemma X16_witness : GITHUB_REPO_PATTERN "owner/repo" = true.
Proof.
  apply (proj2 (X16_repo_pattern_is_owner_slash_repo "owner/repo")).
  exists "owner", "repo". holds. reflexivity.
Defined.

Lemma X17_witness :
  HealthCheck.new sample_health_config = Ok (HealthCheck.mk "/" 3000 0 10 1 1 3)
  /\ exists issues,
       HealthCheck.new sample_fraction_config = Err (ZodError issues)
       /\ In (mkIssue "invalid_type" ["port"] "Expected integer, received float"
                (Some (VStr "float"))) issues.
Proof.
  split.
  - apply (proj2 (proj1 (X17_HealthCheck_constructor []
                           [("httpPath", VStr "/"); ("port", VNum 3000)])
                    (HealthCheck.mk "/" 3000 0 10 1 1 3))).
    holds. simpl. lia.
  - apply (proj2 (X17_HealthCheck_constructor []
                    [("httpPath", VStr "/"); ("port", VFloat (Fraction 80 1))])
             "port" (Fraction 80 1)).
    + simpl. tauto.
    + reflexivity.
Defined.

Lemma X18_witness :
  GitHubSource.new sample_github_config =
  Ok (GitHubSource.mk "owner/repo" "main" "/" "Dockerfile" false).
Proof.
  apply (proj2 (X18_GitHubSource_constructor []
                  [("repo", VStr "owner/repo"); ("branch", VStr "main")]
                  (GitHubSource.mk "owner/repo" "main" "/" "Dockerfile" false))).
  holds. reflexivity.
Defined.

Lemma X19_witness :
  EnvironmentVariable.new sample_zero_value_config =
  Ok (EnvironmentVariable.mk "TEST_VAR" (VNum 0) "GENERAL" "RUN_TIME").
Proof.
  apply (proj2 (X19_EnvironmentVariable_constructor []
                  [("key", VStr "TEST_VAR"); ("value", VNum 0)]
                  (EnvironmentVariable.mk "TEST_VAR" (VNum 0) "GENERAL" "RUN_TIME"))).
  holds. vm_compute; tauto.
Defined.

Lemma X20_witness :
  VolumeMount.new sample_volume_config = Ok (VolumeMount.mk "data" "/data" "1GB").
Proof.
  apply (proj2 (X20_VolumeMount_constructor sample_volume_config
                  (VolumeMount.mk "data" "/data" "1GB"))).
  holds. simpl. lia.
Defined.

Lemma X21_witness :
  DockerImage.new sample_hub_config =
  Ok (DockerImage.mk "DOCKER_HUB" None "postgrest" "v14.2").
Proof.
  apply (proj2 (X21_DockerImage_constructor []
                  [("registryType", VStr "DOCKER_HUB");
                   ("repository", VStr "postgrest"); ("tag", VStr "v14.2")]
                  (DockerImage.mk "DOCKER_HUB" None "postgrest" "v14.2"))).
  split; [reflexivity|]. split; [vm_compute; tauto|]. split; [reflexivity|].
  split; [intros r Hr; discriminate Hr|]. split; [intros Hd; discriminate Hd|].
  holds. reflexivity.
Defined.

Lemma X22_witness :
  Service.new minimal_config =
  Ok (Service.mk (AppPlatformResource.mk "rest" []) "professional-xs" 1
        None None None None None None)
  /\ exists issues, Service.new sample_fraction_service_config = Err (ZodError issues).
Proof.
  split;
    [|exact (proj2 (X22_Service_constructor sample_fraction_service_config)
               (Fraction 1 1) (or_introl eq_refl))].
  apply (proj2 (proj1 (X22_Service_constructor minimal_config)
                  (Service.mk (AppPlatformResource.mk "rest" []) "professional-xs" 1
                     None None None None None None))).
  split; [exists "rest"; holds; reflexivity|].
  split; [reflexivity|]. split; [vm_compute; tauto|]. split; [reflexivity|].
  split; [simpl; lia|]. split; [reflexivity|].
  split; [intros p Hp; discriminate Hp|]. split; [reflexivity|].
  split; [intros l p Hl; discriminate Hl|].
  holds. reflexivity.
Defined.

Lemma X23_witness :
  Job.new sample_job_config =
  Ok (Job.mk (AppPlatformResource.mk "migrate" []) "PRE_DEPLOY" "npm run migrate"
        None None None)
  /\ exists issues, Job.new sample_fraction_job_config = Err (ZodError issues).
Proof.
  split;
    [|exact (proj2 (X23_Job_constructor sample_fraction_job_config)
               (Fraction 1 1) eq_refl)].
  apply (proj2 (proj1 (X23_Job_constructor sample_job_config)
                  (Job.mk (AppPlatformResource.mk "migrate" []) "PRE_DEPLOY"
                     "npm run migrate" None None None))).
  split; [exists "migrate"; holds; reflexivity|].
  split; [reflexivity|]. split; [vm_compute; tauto|]. split; [reflexivity|].
  split; [reflexivity|]. split; [reflexivity|].
  split; [intros slug Hs; discriminate Hs|]. split; [reflexivity|].
  split; [intros n Hn; discriminate Hn|]. reflexivity.
Defined.

Lemma X24_witness :
  Worker.new sample_worker_config =
  Ok (Worker.mk (AppPlatformResource.mk "queue" [sample_env_port]) "basic-xxs" 2
        (Some [9090]) None None None)
  /\ exists issues, Worker.new sample_fraction_worker_config = Err (ZodError issues).
Proof.
  split;
    [|exact (proj2 (X24_Worker_constructor sample_fraction_worker_config)
               (Fraction 80 1)
               (or_intror (ex_intro _ [VNum 9090; VFloat (Fraction 80 1)]
                             (conj eq_refl (or_intror (or_introl eq_refl))))))].
  apply (proj2 (proj1 (X24_Worker_constructor sample_worker_config)
                  (Worker.mk (AppPlatformResource.mk "queue" [sample_env_port])
                     "basic-xxs" 2 (Some [9090]) None None None))).
  split; [exists "queue"; holds; reflexivity|].
  split; [reflexivity|]. split; [vm_compute; tauto|]. split; [reflexivity|].
  split; [simpl; lia|]. split; [reflexivity|].
  split; [intros l p Hl Hp; injection Hl as <-; destruct Hp as [<-|[]]; lia|].
  holds. reflexivity.
Defined.
